(** * URL shortener: registry (UrlService) and logging middleware

    A shallow embedding of

    - [Frontend_Test_Submission/src/types/url.ts]           (the data model),
    - [Logging_MIddleware/logger.ts]                         (class LoggingMiddleware),
    - [Frontend_Test_Submission/src/services/urlService.ts]  (class UrlService),
    - the handlers of the three components that call them (the form, the
      redirect page and the statistics page),

    followed by the properties of the registry and of the log buffer, and
    then by those of the constructor, the components and the application
    as a whole.

    Modelling conventions.

    - A [Date] is the integer number of milliseconds it holds ([getTime]);
      an ISO-8601 time string is identified with the same integer.
    - A JavaScript [Map] is an association list in insertion order, because
      [Array.from(map.values())] and the stable [Array.prototype.sort]
      observe that order.
    - Both singletons ([urlService], [logger]) live in one [World]; every
      method is a function in a state-and-exception monad in which the
      state survives a [throw], as it does in JavaScript.
    - What the platform supplies (clock, [Math.random], [crypto.randomUUID],
      the WHATWG URL parser, storage quotas, [typeof window]) is collected
      in an environment [Env]; clock, random numbers and UUIDs are streams,
      and the world counts how many values of each were consumed.
    - The [do .. while] loop of [generateShortcode] is bounded by a fuel
      argument; running out of fuel is the outcome [Diverge].
    - [sendToTestServer] is [async]: what it does before its [await]
      belongs to the call of [Log]; what it does after is a separate step,
      [settle], taken when the fetch has ended.

    - A component is its state record and its handlers; a handler takes
      the state it is run on and returns the next one, [confirm] being
      answered by an argument. What a component renders is left out.

    Left out, as no property below depends on them: [logBackendError] and
    [logDatabaseError], which only build a message and call [Log], and
    the [copyToClipboard] and date formatting helpers of the components. *)

From Stdlib Require Import String Ascii List ZArith Arith Bool Lia.
From Stdlib Require Import Permutation Sorted DecimalString.
Import ListNotations.

Local Open Scope list_scope.

(** ** Values carried in a log context *)

Inductive Exn : Type :=
| Error (message : string)          (* new Error(message) *)
| DOMException (name : string).     (* thrown by the storage API *)

#[warnings="-register-all"]
Inductive Json : Type :=
| JNull
| JNum (n : Z)
| JStr (s : string)
| JDate (ms : Z)
| JErr (e : Exn)
| JObj (fields : list (string * Json)).

(** ** Data model: types/url.ts *)

Module ClickRecord.
Record t : Type := mk {
  id : string;
  timestamp : Z;
  source : string;
  userLocation : string
}.
End ClickRecord.

Module ShortenedUrl.
Record t : Type := mk {
  id : string;
  originalUrl : string;
  shortCode : string;
  expiryDate : Z;
  createdAt : Z;
  clicks : list ClickRecord.t;
  isExpired : bool
}.

Definition set_isExpired (b : bool) (u : t) : t :=
  mk (id u) (originalUrl u) (shortCode u) (expiryDate u) (createdAt u) (clicks u) b.

Definition set_clicks (c : list ClickRecord.t) (u : t) : t :=
  mk (id u) (originalUrl u) (shortCode u) (expiryDate u) (createdAt u) c (isExpired u).
End ShortenedUrl.

(** A JavaScript [number], as far as [validateValidityMinutes] can tell
    numbers apart: [Number.isInteger] holds exactly of [Integer z];
    [NonInteger] stands for fractions, [NaN] and the infinities. *)
Inductive JsNumber : Type :=
| Integer (z : Z)
| NonInteger.

Module UrlFormData.
Record t : Type := mk {
  originalUrl : string;
  validityMinutes : JsNumber;
  preferredShortcode : option string
}.
End UrlFormData.

Module UrlValidationResult.
Record t : Type := mk {
  isValid : bool;
  error : option string
}.
End UrlValidationResult.

(** ** Data model: logger.ts *)

Inductive Level : Type := Info | Warn | Err | Debug | Fatal.

Module LogEntry.
Record t : Type := mk {
  timestamp : Z;
  stack : string;
  level : Level;
  package : string;
  message : string;
  context : option Json
}.
End LogEntry.

(** ** Platform and world *)

Record Env : Type := mkEnv {
  window : bool;                                (* typeof window !== 'undefined' *)
  clock : nat -> Z;                             (* successive values of new Date() *)
  random : nat -> nat;                          (* successive Math.floor(Math.random() * 62) *)
  randomUUID : nat -> string;                   (* successive crypto.randomUUID() *)
  urlProtocol : string -> option string;        (* new URL(s).protocol; None: the constructor throws *)
  localQuota : list ShortenedUrl.t -> bool;     (* localStorage.setItem accepts the array *)
  sessionQuota : list LogEntry.t -> bool;       (* sessionStorage.setItem accepts the array *)
  navigatorLanguage : string;
  timeZone : string;
  errorStack : option (list string)             (* lines of (new Error()).stack, when there is one *)
}.

Record World : Type := mkWorld {
  urls : list (string * ShortenedUrl.t);        (* UrlService.urls *)
  localStorage : option (list ShortenedUrl.t);  (* localStorage['shortened-urls'] *)
  logs : list LogEntry.t;                       (* LoggingMiddleware.logs *)
  testServerEndpoint : string;
  sessionStorage : option (list LogEntry.t);    (* sessionStorage['logging-middleware-logs'] *)
  pending : list (string * LogEntry.t);         (* fetches in flight: endpoint and body *)
  dateReads : nat;
  randomReads : nat;
  uuidReads : nat
}.

Definition set_urls (x : list (string * ShortenedUrl.t)) (w : World) : World :=
  mkWorld x (localStorage w) (logs w) (testServerEndpoint w) (sessionStorage w)
          (pending w) (dateReads w) (randomReads w) (uuidReads w).

Definition set_localStorage (x : option (list ShortenedUrl.t)) (w : World) : World :=
  mkWorld (urls w) x (logs w) (testServerEndpoint w) (sessionStorage w)
          (pending w) (dateReads w) (randomReads w) (uuidReads w).

Definition set_logs (x : list LogEntry.t) (w : World) : World :=
  mkWorld (urls w) (localStorage w) x (testServerEndpoint w) (sessionStorage w)
          (pending w) (dateReads w) (randomReads w) (uuidReads w).

Definition set_testServerEndpoint (x : string) (w : World) : World :=
  mkWorld (urls w) (localStorage w) (logs w) x (sessionStorage w)
          (pending w) (dateReads w) (randomReads w) (uuidReads w).

Definition set_sessionStorage (x : option (list LogEntry.t)) (w : World) : World :=
  mkWorld (urls w) (localStorage w) (logs w) (testServerEndpoint w) x
          (pending w) (dateReads w) (randomReads w) (uuidReads w).

Definition set_pending (x : list (string * LogEntry.t)) (w : World) : World :=
  mkWorld (urls w) (localStorage w) (logs w) (testServerEndpoint w) (sessionStorage w)
          x (dateReads w) (randomReads w) (uuidReads w).

Definition set_dateReads (x : nat) (w : World) : World :=
  mkWorld (urls w) (localStorage w) (logs w) (testServerEndpoint w) (sessionStorage w)
          (pending w) x (randomReads w) (uuidReads w).

Definition set_randomReads (x : nat) (w : World) : World :=
  mkWorld (urls w) (localStorage w) (logs w) (testServerEndpoint w) (sessionStorage w)
          (pending w) (dateReads w) x (uuidReads w).

Definition set_uuidReads (x : nat) (w : World) : World :=
  mkWorld (urls w) (localStorage w) (logs w) (testServerEndpoint w) (sessionStorage w)
          (pending w) (dateReads w) (randomReads w) x.

(** ** The monad of methods *)

Inductive Res (A : Type) : Type :=
| Ok (a : A)          (* normal return *)
| Throw (e : Exn)     (* an exception reaches the caller *)
| Diverge.            (* the loop did not end within the fuel *)

Arguments Ok {A} a.
Arguments Throw {A} e.
Arguments Diverge {A}.

Definition M (A : Type) : Type := World -> Res A * World.

Definition ret {A} (a : A) : M A := fun w => (Ok a, w).

Definition bind {A B} (m : M A) (k : A -> M B) : M B :=
  fun w =>
    match m w with
    | (Ok a, w') => k a w'
    | (Throw e, w') => (Throw e, w')
    | (Diverge, w') => (Diverge, w')
    end.

Definition throw {A} (e : Exn) : M A := fun w => (Throw e, w).

(** [try { body } catch (e) { handler }] *)
Definition tryCatch {A} (body : M A) (handler : Exn -> M A) : M A :=
  fun w =>
    match body w with
    | (Throw e, w') => handler e w'
    | r => r
    end.

Definition get : M World := fun w => (Ok w, w).
Definition modify (f : World -> World) : M unit := fun w => (Ok tt, f w).

Declare Scope js_scope.
Delimit Scope js_scope with js.
Notation "x <- m ;; k" := (bind m (fun x => k))
  (at level 61, m at next level, right associativity) : js_scope.
Notation "m ;; k" := (bind m (fun _ => k))
  (at level 61, right associativity) : js_scope.
Local Open Scope js_scope.

(** ** Platform primitives *)

Section Platform.
Variable env : Env.

(** [new Date()] *)
Definition newDate : M Z :=
  fun w => (Ok (clock env (dateReads w)), set_dateReads (S (dateReads w)) w).

(** [Math.floor(Math.random() * chars.length)] *)
Definition randomIndex : M nat :=
  fun w => (Ok (random env (randomReads w)), set_randomReads (S (randomReads w)) w).

(** [crypto.randomUUID()] *)
Definition crypto_randomUUID : M string :=
  fun w => (Ok (randomUUID env (uuidReads w)), set_uuidReads (S (uuidReads w)) w).

(** [localStorage.setItem(storageKey, JSON.stringify(urlsArray))] *)
Definition localStorage_setItem (urlsArray : list ShortenedUrl.t) : M unit :=
  fun w =>
    if localQuota env urlsArray then (Ok tt, set_localStorage (Some urlsArray) w)
    else (Throw (DOMException "QuotaExceededError"), w).

(** [sessionStorage.getItem('logging-middleware-logs')], parsed *)
Definition sessionStorage_getItem : M (option (list LogEntry.t)) :=
  fun w => (Ok (sessionStorage w), w).

(** [sessionStorage.setItem('logging-middleware-logs', JSON.stringify(logs))] *)
Definition sessionStorage_setItem (l : list LogEntry.t) : M unit :=
  fun w =>
    if sessionQuota env l then (Ok tt, set_sessionStorage (Some l) w)
    else (Throw (DOMException "QuotaExceededError"), w).
End Platform.

(** Decimal rendering of a number inside a template string. *)
Definition natToString (n : nat) : string := NilEmpty.string_of_uint (Nat.to_uint n).
Definition intToString (z : Z) : string := NilZero.string_of_int (Z.to_int z).

(** [array.slice(-n)]: the last [n] elements. *)
Definition sliceLast {A} (n : nat) (l : list A) : list A := skipn (length l - n) l.

(** [array.splice(0, n)], for what is left in the array. *)
Definition spliceFront {A} (n : nat) (l : list A) : list A := skipn n l.

Definition removeNth {A} (i : nat) (l : list A) : list A := firstn i l ++ skipn (S i) l.

(** ** logger.ts: class LoggingMiddleware *)

Definition levelName (l : Level) : string :=
  match l with
  | Info => "info" | Warn => "warn" | Err => "error" | Debug => "debug" | Fatal => "fatal"
  end.

(** Severity order of the levels: debug < info < warn < error < fatal. *)
Definition severity (l : Level) : nat :=
  match l with
  | Debug => 0 | Info => 1 | Warn => 2 | Err => 3 | Fatal => 4
  end.

(** A log entry as the object placed under [originalLog] in a context. *)
Definition entryJson (e : LogEntry.t) : Json :=
  JObj [("timestamp", JDate (LogEntry.timestamp e));
        ("stack", JStr (LogEntry.stack e));
        ("level", JStr (levelName (LogEntry.level e)));
        ("package", JStr (LogEntry.package e));
        ("message", JStr (LogEntry.message e));
        ("context", match LogEntry.context e with Some c => c | None => JNull end)]%string.

Definition newline : string := String (ascii_of_nat 10) EmptyString.

Module logger.
Section WithEnv.
Variable env : Env.

Definition maxLogs : nat := 1000.

(** [private storeInSession(logEntry)] *)
Definition storeInSession (logEntry : LogEntry.t) : M unit :=
  if window env then
    tryCatch
      (existingLogs <- sessionStorage_getItem ;;
       let logs0 := match existingLogs with Some l => l | None => [] end in
       let logs1 := logs0 ++ [logEntry] in
       let logs2 :=
         if 100 <? length logs1 then spliceFront (length logs1 - 100) logs1 else logs1 in
       sessionStorage_setItem env logs2)
      (fun _ => ret tt)
  else ret tt.

(** [private addLog(logEntry)] *)
Definition addLog (logEntry : LogEntry.t) : M unit :=
  modify (fun w =>
    let pushed := logs w ++ [logEntry] in
    set_logs (if maxLogs <? length pushed then sliceLast maxLogs pushed else pushed) w) ;;
  storeInSession logEntry.

(** [private getStackTrace()] *)
Definition getStackTrace : string :=
  match errorStack env with
  | Some lines => String.concat newline (firstn 3 (skipn 3 lines))
  | None => "Stack trace unavailable"%string
  end.

(** [private async sendToTestServer(logEntry)], up to its [await]: in a
    browser the request is handed to [fetch] and the method suspends;
    nothing in that prefix throws. *)
Definition sendToTestServer (logEntry : LogEntry.t) : M unit :=
  if window env then
    modify (fun w => set_pending (pending w ++ [(testServerEndpoint w, logEntry)]) w)
  else ret tt.

(** How a fetch ends: a response with its status, or a rejected promise. *)
Inductive FetchResult : Type :=
| Response (status : Z)
| Rejected (error : Exn).

Definition response_ok (status : Z) : bool := (200 <=? status)%Z && (status <=? 299)%Z.

(** [sendToTestServer] after its [await], when the fetch of [logEntry]
    has ended in [r]. *)
Definition sendToTestServer_resume (logEntry : LogEntry.t) (r : FetchResult) : M unit :=
  match r with
  | Response status =>
      if negb (response_ok status) then
        t <- newDate env ;;
        storeInSession
          (LogEntry.mk t getStackTrace Warn "LoggingMiddleware"
             ("Failed to send log to test server: " ++ intToString status)%string
             (Some (JObj [("originalLog", entryJson logEntry)]%string)))
      else ret tt
  | Rejected error =>
      t <- newDate env ;;
      storeInSession
        (LogEntry.mk t getStackTrace Warn "LoggingMiddleware"
           "Test server unavailable"%string
           (Some (JObj [("error", JErr error); ("originalLog", entryJson logEntry)]%string)))
  end.

(** The event loop resumes the [i]-th delivery in flight with result [r]. *)
Definition settle (i : nat) (r : FetchResult) : M unit :=
  fun w =>
    match nth_error (pending w) i with
    | Some (_, logEntry) =>
        sendToTestServer_resume logEntry r (set_pending (removeNth i (pending w)) w)
    | None => (Ok tt, w)
    end.

(** [public Log(stack, level, packageName, message, context?)] *)
Definition Log (stack : string) (level : Level) (packageName message : string)
    (context : option Json) : M unit :=
  t <- newDate env ;;
  let logEntry := LogEntry.mk t stack level packageName message context in
  addLog logEntry ;;
  sendToTestServer logEntry.

Definition info (stack packageName message : string) (context : option Json) : M unit :=
  Log stack Info packageName message context.

Definition warn (stack packageName message : string) (context : option Json) : M unit :=
  Log stack Warn packageName message context.

Definition error (stack packageName message : string) (context : option Json) : M unit :=
  Log stack Err packageName message context.

Definition debug (stack packageName message : string) (context : option Json) : M unit :=
  Log stack Debug packageName message context.

Definition fatal (stack packageName message : string) (context : option Json) : M unit :=
  Log stack Fatal packageName message context.

(** [public getLogs()] *)
Definition getLogs : M (list LogEntry.t) :=
  w <- get ;; ret (logs w).

(** [public clearLogs()] *)
Definition clearLogs : M unit :=
  modify (set_logs []) ;;
  if window env then modify (set_sessionStorage None) else ret tt.

(** [public setTestServerEndpoint(endpoint)] *)
Definition setTestServerEndpoint (endpoint : string) : M unit :=
  modify (set_testServerEndpoint endpoint).

End WithEnv.
End logger.

(** ** JavaScript [Map<string, V>] in insertion order *)

Section JsMap.
Context {V : Type}.

Fixpoint Map_get (k : string) (m : list (string * V)) : option V :=
  match m with
  | [] => None
  | (k', v) :: rest => if String.eqb k k' then Some v else Map_get k rest
  end.

Definition Map_has (k : string) (m : list (string * V)) : bool :=
  match Map_get k m with Some _ => true | None => false end.

(** [map.set(k, v)]: an existing key keeps its place, a new key goes last. *)
Fixpoint Map_set (k : string) (v : V) (m : list (string * V)) : list (string * V) :=
  match m with
  | [] => [(k, v)]
  | (k', v') :: rest =>
      if String.eqb k k' then (k', v) :: rest else (k', v') :: Map_set k v rest
  end.

(** [map.delete(k)]: what is left of the map. *)
Fixpoint Map_delete (k : string) (m : list (string * V)) : list (string * V) :=
  match m with
  | [] => []
  | (k', v') :: rest =>
      if String.eqb k k' then rest else (k', v') :: Map_delete k rest
  end.

Definition Map_values (m : list (string * V)) : list V := map snd m.
Definition Map_keys (m : list (string * V)) : list string := map fst m.
End JsMap.

(** ** [Array.prototype.sort(compare)]

    The sort of ECMAScript 2019 is stable, and a stable sort has one
    result: insertion from the right, an element going in front of the
    first one it does not have to follow. *)

Section ArraySort.
Context {A : Type}.
Variable compare : A -> A -> Z.

Fixpoint sortInsert (x : A) (l : list A) : list A :=
  match l with
  | [] => [x]
  | y :: rest => if (compare x y <=? 0)%Z then x :: y :: rest else y :: sortInsert x rest
  end.

Fixpoint Array_sort (l : list A) : list A :=
  match l with
  | [] => []
  | x :: rest => sortInsert x (Array_sort rest)
  end.
End ArraySort.

(** ** urlService.ts: class UrlService *)

Definition isAlnumChar (c : ascii) : bool :=
  let n := nat_of_ascii c in
  ((97 <=? n) && (n <=? 122)) || ((65 <=? n) && (n <=? 90)) || ((48 <=? n) && (n <=? 57)).

(** [/^[a-zA-Z0-9]+$/.test(s)] *)
Definition isAlphanumeric (s : string) : bool :=
  match s with
  | EmptyString => false
  | _ => forallb isAlnumChar (list_ascii_of_string s)
  end.

(** [chars.charAt(i)]: the empty string when [i] is out of range. *)
Definition charAt (s : string) (i : nat) : string :=
  match String.get i s with
  | Some c => String c EmptyString
  | None => EmptyString
  end.

(** [x || ''] and the truthiness of an optional string. *)
Definition orEmpty (s : option string) : string :=
  match s with Some x => x | None => EmptyString end.

Definition truthy (s : option string) : bool :=
  match s with
  | Some (String _ _) => true
  | _ => false
  end.

(** [minutes * 60 * 1000] for a number that passed validation. *)
Definition minutesToMs (minutes : JsNumber) : Z :=
  match minutes with
  | Integer z => z * 60 * 1000
  | NonInteger => 0
  end.

(** The comparator of [getAllUrls]:
    [(a, b) => b.createdAt.getTime() - a.createdAt.getTime()]. *)
Definition newestFirst (a b : ShortenedUrl.t) : Z :=
  (ShortenedUrl.createdAt b - ShortenedUrl.createdAt a)%Z.

Module urlService.
Section WithEnv.
Variable env : Env.

Local Open Scope string_scope.

(** [private saveToStorage()] *)
Definition saveToStorage : M unit :=
  if window env then
    tryCatch
      (w <- get ;;
       let urlsArray := Map_values (urls w) in
       localStorage_setItem env urlsArray ;;
       logger.debug env "UrlService.saveToStorage" "frontend"
         ("Saved " ++ natToString (length urlsArray) ++ " URLs to storage")
         (Some (JObj [("count", JNum (Z.of_nat (length urlsArray)))])))
      (fun error =>
         logger.error env "UrlService.saveToStorage" "frontend"
           "Failed to save URLs to storage" (Some (JObj [("error", JErr error)])))
  else ret tt.

Definition validateUrl (url : string) : UrlValidationResult.t :=
  match urlProtocol env url with
  | Some protocol =>
      if negb (existsb (String.eqb protocol) ["http:"; "https:"]) then
        UrlValidationResult.mk false (Some "URL must use HTTP or HTTPS protocol")
      else UrlValidationResult.mk true None
  | None => UrlValidationResult.mk false (Some "Please enter a valid URL")
  end.

Definition validateShortcode (w : World) (shortcode : string) : UrlValidationResult.t :=
  if String.eqb shortcode "" then UrlValidationResult.mk true None
  else if negb (isAlphanumeric shortcode) then
    UrlValidationResult.mk false (Some "Shortcode must contain only alphanumeric characters")
  else if (String.length shortcode <? 3)%nat || (20 <? String.length shortcode)%nat then
    UrlValidationResult.mk false (Some "Shortcode must be between 3 and 20 characters")
  else if Map_has shortcode (urls w) then
    UrlValidationResult.mk false (Some "This shortcode is already taken")
  else UrlValidationResult.mk true None.

Definition validateValidityMinutes (minutes : JsNumber) : UrlValidationResult.t :=
  match minutes with
  | NonInteger =>
      UrlValidationResult.mk false (Some "Validity period must be a positive integer")
  | Integer z =>
      if (z <=? 0)%Z then
        UrlValidationResult.mk false (Some "Validity period must be a positive integer")
      else if (525600 <? z)%Z then
        UrlValidationResult.mk false (Some "Validity period cannot exceed 1 year")
      else UrlValidationResult.mk true None
  end.

Definition chars : string :=
  "abcdefghijklmnopqrstuvwxyzABCDEFGHIJKLMNOPQRSTUVWXYZ0123456789".

(** The [for] loop of [generateShortcode], with [n] rounds to go. *)
Fixpoint drawChars (n : nat) (result : string) : M string :=
  match n with
  | O => ret result
  | S n' =>
      i <- randomIndex env ;;
      drawChars n' (result ++ charAt chars i)
  end.

(** [private generateShortcode()]; [fuel] bounds the rounds of [do .. while]. *)
Fixpoint generateShortcode (fuel : nat) : M string :=
  match fuel with
  | O => fun w => (Diverge, w)
  | S fuel' =>
      result <- drawChars 6 "" ;;
      w <- get ;;
      if Map_has result (urls w) then generateShortcode fuel' else ret result
  end.

(** [private getUserLocation()] *)
Definition getUserLocation : string :=
  if window env then
    let language :=
      if String.eqb (navigatorLanguage env) "" then "unknown" else navigatorLanguage env in
    let timezone := if String.eqb (timeZone env) "" then "unknown" else timeZone env in
    language ++ "/" ++ timezone
  else "unknown/unknown".

Definition shortenUrl (fuel : nat) (formData : UrlFormData.t) : M ShortenedUrl.t :=
  let urlValidation := validateUrl (UrlFormData.originalUrl formData) in
  if negb (UrlValidationResult.isValid urlValidation) then
    throw (Error (orEmpty (UrlValidationResult.error urlValidation)))
  else
  w <- get ;;
  let shortcodeValidation :=
    validateShortcode w (orEmpty (UrlFormData.preferredShortcode formData)) in
  if negb (UrlValidationResult.isValid shortcodeValidation) then
    throw (Error (orEmpty (UrlValidationResult.error shortcodeValidation)))
  else
  let validityValidation := validateValidityMinutes (UrlFormData.validityMinutes formData) in
  if negb (UrlValidationResult.isValid validityValidation) then
    throw (Error (orEmpty (UrlValidationResult.error validityValidation)))
  else
  shortCode <- (if truthy (UrlFormData.preferredShortcode formData)
                then ret (orEmpty (UrlFormData.preferredShortcode formData))
                else generateShortcode fuel) ;;
  now <- newDate env ;;
  let expiryDate := (now + minutesToMs (UrlFormData.validityMinutes formData))%Z in
  id <- crypto_randomUUID env ;;
  let shortenedUrl :=
    ShortenedUrl.mk id (UrlFormData.originalUrl formData) shortCode expiryDate now [] false in
  modify (fun w => set_urls (Map_set shortCode shortenedUrl (urls w)) w) ;;
  saveToStorage ;;
  logger.info env "UrlService.shortenUrl" "frontend" "URL shortened successfully"
    (Some (JObj [("shortCode", JStr shortCode);
                 ("originalUrl", JStr (UrlFormData.originalUrl formData));
                 ("expiryDate", JDate expiryDate)])) ;;
  ret shortenedUrl.

Definition getUrlByShortcode (shortCode : string) : M (option ShortenedUrl.t) :=
  w <- get ;;
  match Map_get shortCode (urls w) with
  | None => ret None
  | Some url =>
      now <- newDate env ;;
      if (now >? ShortenedUrl.expiryDate url)%Z then
        modify (fun w =>
          set_urls (Map_set shortCode (ShortenedUrl.set_isExpired true url) (urls w)) w) ;;
        saveToStorage ;;
        logger.warn env "UrlService.getUrlByShortcode" "frontend"
          "Attempted to access expired URL" (Some (JObj [("shortCode", JStr shortCode)])) ;;
        ret None
      else ret (Some url)
  end.

(** [recordClick(shortCode, source = 'direct')], the default filled in
    by the caller. *)
Definition recordClick (shortCode : string) (source : string) : M bool :=
  found <- getUrlByShortcode shortCode ;;
  match found with
  | None => ret false
  | Some url =>
      id <- crypto_randomUUID env ;;
      now <- newDate env ;;
      let clickRecord := ClickRecord.mk id now source getUserLocation in
      modify (fun w =>
        set_urls (Map_set shortCode
                    (ShortenedUrl.set_clicks (ShortenedUrl.clicks url ++ [clickRecord]) url)
                    (urls w)) w) ;;
      saveToStorage ;;
      logger.info env "UrlService.recordClick" "frontend" "Click recorded"
        (Some (JObj [("shortCode", JStr shortCode); ("source", JStr source);
                     ("userLocation", JStr (ClickRecord.userLocation clickRecord))])) ;;
      ret true
  end.

(** The callback of [this.urls.forEach] in [getAllUrls]: it assigns the
    record's flag and may log; the updated record is its result. *)
Definition refreshExpired (now : Z) (url : ShortenedUrl.t) : M ShortenedUrl.t :=
  let wasExpired := ShortenedUrl.isExpired url in
  let url' := ShortenedUrl.set_isExpired (now >? ShortenedUrl.expiryDate url)%Z url in
  (if negb wasExpired && ShortenedUrl.isExpired url' then
     logger.info env "UrlService.getAllUrls" "frontend" "URL expired"
       (Some (JObj [("shortCode", JStr (ShortenedUrl.shortCode url))]))
   else ret tt) ;;
  ret url'.

(** [map.forEach(callback)] for a callback that updates the visited value
    and leaves the map itself alone. *)
Fixpoint forEachUrl (callback : ShortenedUrl.t -> M ShortenedUrl.t)
    (entries : list (string * ShortenedUrl.t)) : M (list (string * ShortenedUrl.t)) :=
  match entries with
  | [] => ret []
  | (k, url) :: rest =>
      url' <- callback url ;;
      rest' <- forEachUrl callback rest ;;
      ret ((k, url') :: rest')
  end.

Definition getAllUrls : M (list ShortenedUrl.t) :=
  now <- newDate env ;;
  w <- get ;;
  entries <- forEachUrl (refreshExpired now) (urls w) ;;
  modify (set_urls entries) ;;
  saveToStorage ;;
  w' <- get ;;
  ret (Array_sort newestFirst (Map_values (urls w'))).

Definition deleteUrl (shortCode : string) : M bool :=
  w <- get ;;
  let deleted := Map_has shortCode (urls w) in
  modify (fun w => set_urls (Map_delete shortCode (urls w)) w) ;;
  if deleted then
    saveToStorage ;;
    logger.info env "UrlService.deleteUrl" "frontend" "URL deleted"
      (Some (JObj [("shortCode", JStr shortCode)])) ;;
    ret deleted
  else ret deleted.

Definition clearAllUrls : M unit :=
  modify (set_urls []) ;;
  saveToStorage ;;
  logger.info env "UrlService.clearAllUrls" "frontend" "All URLs cleared" None.

End WithEnv.
End urlService.

(** ** Sequences of operations on the logger *)

Inductive LoggerOp : Type :=
| OpLog (stack : string) (level : Level) (packageName message : string)
        (context : option Json)
| OpSettle (i : nat) (r : logger.FetchResult)
| OpGetLogs
| OpClearLogs
| OpSetEndpoint (endpoint : string).

Definition runLoggerOp (env : Env) (op : LoggerOp) : M unit :=
  match op with
  | OpLog stack level packageName message context =>
      logger.Log env stack level packageName message context
  | OpSettle i r => logger.settle env i r
  | OpGetLogs => _ <- logger.getLogs ;; ret tt
  | OpClearLogs => logger.clearLogs env
  | OpSetEndpoint endpoint => logger.setTestServerEndpoint endpoint
  end.

Fixpoint runLoggerOps (env : Env) (ops : list LoggerOp) : M unit :=
  match ops with
  | [] => ret tt
  | op :: rest => runLoggerOp env op ;; runLoggerOps env rest
  end.

(** The arguments of one call of [Log]. *)
Record LogCall : Type := mkLogCall {
  call_stack : string;
  call_level : Level;
  call_package : string;
  call_message : string;
  call_context : option Json
}.

Definition callOf (e : LogEntry.t) : LogCall :=
  mkLogCall (LogEntry.stack e) (LogEntry.level e) (LogEntry.package e)
            (LogEntry.message e) (LogEntry.context e).

Fixpoint logAll (env : Env) (calls : list LogCall) : M unit :=
  match calls with
  | [] => ret tt
  | c :: rest =>
      logger.Log env (call_stack c) (call_level c) (call_package c) (call_message c)
        (call_context c) ;;
      logAll env rest
  end.

Definition sessionEntries (w : World) : list LogEntry.t :=
  match sessionStorage w with Some l => l | None => [] end.

(** Both buffers within their bounds. *)
Definition buffersBounded (w : World) : Prop :=
  length (logs w) <= 1000 /\ length (sessionEntries w) <= 100.

(** A delivery that failed: a response outside 200..299, or no response. *)
Definition deliveryFailed (r : logger.FetchResult) : bool :=
  match r with
  | logger.Response status => negb (logger.response_ok status)
  | logger.Rejected _ => true
  end.

(** ** Sequences of clicks *)


(** ** Sequences of operations on the registry *)

Inductive RegistryOp : Type :=
| OpCreate (fuel : nat) (formData : UrlFormData.t)
| OpResolve (shortCode : string)
| OpClick (shortCode source : string)
| OpList
| OpDelete (shortCode : string)
| OpClear.

Definition runRegistryOp (env : Env) (op : RegistryOp) : M unit :=
  match op with
  | OpCreate fuel formData => _ <- urlService.shortenUrl env fuel formData ;; ret tt
  | OpResolve shortCode => _ <- urlService.getUrlByShortcode env shortCode ;; ret tt
  | OpClick shortCode source => _ <- urlService.recordClick env shortCode source ;; ret tt
  | OpList => _ <- urlService.getAllUrls env ;; ret tt
  | OpDelete shortCode => _ <- urlService.deleteUrl env shortCode ;; ret tt
  | OpClear => urlService.clearAllUrls env
  end.

(** The worlds the registry can be in, from a given starting world: a
    caller goes on after an exception, so every outcome of a step counts. *)
Inductive reachableFrom (env : Env) (w0 : World) : World -> Prop :=
| reach_start : reachableFrom env w0 w0
| reach_step (op : RegistryOp) (w w' : World) (res : Res unit) :
    reachableFrom env w0 w ->
    runRegistryOp env op w = (res, w') ->
    reachableFrom env w0 w'.

(** ** Vocabulary of the properties *)

(** The first validation of [create] that fails, in the order URL,
    shortcode, validity; [None] when all three pass. *)
Definition firstViolation (env : Env) (w : World) (formData : UrlFormData.t)
    : option string :=
  let v1 := urlService.validateUrl env (UrlFormData.originalUrl formData) in
  let v2 := urlService.validateShortcode w (orEmpty (UrlFormData.preferredShortcode formData)) in
  let v3 := urlService.validateValidityMinutes (UrlFormData.validityMinutes formData) in
  if negb (UrlValidationResult.isValid v1) then Some (orEmpty (UrlValidationResult.error v1))
  else if negb (UrlValidationResult.isValid v2) then Some (orEmpty (UrlValidationResult.error v2))
  else if negb (UrlValidationResult.isValid v3) then Some (orEmpty (UrlValidationResult.error v3))
  else None.

(** 3 to 20 characters, all of them letters or digits. *)
Definition wellFormedShortcode (s : string) : bool :=
  isAlphanumeric s && (3 <=? String.length s) && (String.length s <=? 20).

(** Every record is filed under its own shortcode. *)
Definition keyedByShortCode (w : World) : Prop :=
  Forall (fun kv => fst kv = ShortenedUrl.shortCode (snd kv)) (urls w).

(** The registry as a map: no key twice, every record under its own
    shortcode. *)
Definition registryOk (w : World) : Prop :=
  NoDup (Map_keys (urls w)) /\ keyedByShortCode w.

(** What six (or [n]) draws from position [pos] of the random source
    spell, appended to [acc]. *)
Fixpoint spell (env : Env) (n pos : nat) (acc : string) : string :=
  match n with
  | O => acc
  | S n' => spell env n' (S pos) (acc ++ charAt urlService.chars (random env pos))%string
  end.

(** The candidate of the attempt that starts at position [pos]. *)
Definition candidate (env : Env) (pos : nat) : string := spell env 6 pos EmptyString.

(** Every character of [s] is one of the 62 of [chars]. *)
Definition overAlphabet (s : string) : Prop :=
  Forall (fun c => In c (list_ascii_of_string urlService.chars)) (list_ascii_of_string s).

Definition randomInRange (env : Env) : Prop := forall i, random env i < 62.

(** Newest first. *)
Definition newerOrSame (a b : ShortenedUrl.t) : Prop :=
  (ShortenedUrl.createdAt b <= ShortenedUrl.createdAt a)%Z.

Definition refreshFlag (now : Z) (u : ShortenedUrl.t) : ShortenedUrl.t :=
  ShortenedUrl.set_isExpired (now >? ShortenedUrl.expiryDate u)%Z u.

Definition refreshEntry (now : Z) (kv : string * ShortenedUrl.t) : string * ShortenedUrl.t :=
  (fst kv, refreshFlag now (snd kv)).

(** The code [create] assigns: the preferred one, or a generated one. *)
Definition assignCode (env : Env) (fuel : nat) (formData : UrlFormData.t) : M string :=
  if truthy (UrlFormData.preferredShortcode formData)
  then ret (orEmpty (UrlFormData.preferredShortcode formData))
  else urlService.generateShortcode env fuel.

(** What a logger method may change: never the registry, its store, the
    random source or the UUID source. *)
Record loggerFrame (w w' : World) : Prop := mkLoggerFrame {
  frame_urls : urls w' = urls w;
  frame_localStorage : localStorage w' = localStorage w;
  frame_randomReads : randomReads w' = randomReads w;
  frame_uuidReads : uuidReads w' = uuidReads w
}.

(** What saving and logging may change: not the record set, and not the
    random or UUID sources. *)
Record serviceFrame (w w' : World) : Prop := mkServiceFrame {
  sframe_urls : urls w' = urls w;
  sframe_randomReads : randomReads w' = randomReads w;
  sframe_uuidReads : uuidReads w' = uuidReads w
}.

(** ** Sample platform and worlds for the examples *)

Definition sampleProtocol (s : string) : option string :=
  if String.prefix "https://" s then Some "https:"%string
  else if String.prefix "http://" s then Some "http:"%string
  else if String.prefix "ftp://" s then Some "ftp:"%string
  else None.

Definition browser : Env :=
  mkEnv true (fun n => 1700000000000 + Z.of_nat n)%Z (fun n => n mod 62)
        (fun n => ("uuid-" ++ natToString n)%string) sampleProtocol
        (fun _ => true) (fun _ => true) "en-US" "UTC" None.

(** A browser whose random source always returns 0. *)
Definition stuckBrowser : Env :=
  mkEnv true (fun n => 1700000000000 + Z.of_nat n)%Z (fun _ => 0)
        (fun n => ("uuid-" ++ natToString n)%string) sampleProtocol
        (fun _ => true) (fun _ => true) "en-US" "UTC" None.

Definition emptyWorld : World :=
  mkWorld [] None [] "http://localhost:3001/api/logs" None [] 0 0 0.

Definition sampleUrl (code : string) (created expiry : Z) (expired : bool) : ShortenedUrl.t :=
  ShortenedUrl.mk "id-0" "https://example.com/page" code expiry created [] expired.

Definition worldWith (us : list ShortenedUrl.t) : World :=
  set_urls (map (fun u => (ShortenedUrl.shortCode u, u)) us) emptyWorld.

(** * The rest of the service and its callers *)

(** ** urlService.ts: the constructor *)

(** What [localStorage.getItem(storageKey)] can find under the key when
    the service is constructed. The key is shared with whatever else
    writes to the browser's store (another tab, an earlier version, the
    user), so besides an array of records it may hold nothing, text that
    [JSON.parse] rejects or that parses to a value without [forEach], or
    an array some of whose elements make the callback of [forEach] throw
    ([null], a primitive, an object whose [clicks] is no array of
    objects). An object that lacks fields without making the callback
    throw would become a record with [undefined] or [NaN] fields, which
    [ShortenedUrl.t] does not hold; such elements are outside the model. *)
Inductive StoredElement : Type :=
| Stored (url : ShortenedUrl.t)
| Malformed.

Inductive StoredItem : Type :=
| NoItem                                    (* [null], or the empty string *)
| Unparsable                                (* [JSON.parse] throws *)
| NotAnArray                                (* parsed, but without [forEach] *)
| Parsed (urlsArray : list StoredElement).

(** The key holds what [saveToStorage] last wrote, an array of records;
    as long as the service has written nothing it holds what the browser
    had, [found]. *)
Definition itemUnderKey (found : StoredItem) (w : World) : StoredItem :=
  match localStorage w with
  | Some urlsArray => Parsed (map Stored urlsArray)
  | None => found
  end.

(** [localStorage.getItem(storageKey)] *)
Definition localStorage_getItem (found : StoredItem) : M StoredItem :=
  fun w => (Ok (itemUnderKey found w), w).

(** The [urlsArray.forEach] of [loadFromStorage]: dates come back as they
    were saved, the flag is recomputed at a fresh clock reading, and the
    record is filed under its shortcode; an element the callback cannot
    handle ends the loop with a [TypeError], the records before it
    staying loaded. *)
Fixpoint loadEach (env : Env) (urlsArray : list StoredElement) : M unit :=
  match urlsArray with
  | [] => ret tt
  | Malformed :: _ => throw (Error "TypeError")
  | Stored url :: rest =>
      now <- newDate env ;;
      let url' := ShortenedUrl.set_isExpired (now >? ShortenedUrl.expiryDate url)%Z url in
      modify (fun w => set_urls (Map_set (ShortenedUrl.shortCode url') url' (urls w)) w) ;;
      loadEach env rest
  end.

(** [private loadFromStorage()] *)
Definition loadFromStorage (env : Env) (found : StoredItem) : M unit :=
  if window env then
    tryCatch
      (stored <- localStorage_getItem found ;;
       match stored with
       | NoItem => ret tt
       | Unparsable => throw (Error "SyntaxError")
       | NotAnArray => throw (Error "TypeError")
       | Parsed urlsArray =>
           loadEach env urlsArray ;;
           logger.info env "UrlService.loadFromStorage" "frontend"
             ("Loaded " ++ natToString (length urlsArray) ++ " URLs from storage")%string
             (Some (JObj [("count"%string, JNum (Z.of_nat (length urlsArray)))]))
       end)
      (fun error =>
         logger.error env "UrlService.loadFromStorage" "frontend"
           "Failed to load URLs from storage" (Some (JObj [("error"%string, JErr error)])))
  else ret tt.

(** A page load: [new LoggingMiddleware()] and [new UrlService()] start
    from their field initialisers, fetches in flight are abandoned, the
    two browser stores stay, and the constructor loads the registry. *)
Definition pageLoad (env : Env) (found : StoredItem) : M unit :=
  modify (fun w =>
    mkWorld [] (localStorage w) [] "http://localhost:3001/api/logs" (sessionStorage w) []
            (dateReads w) (randomReads w) (uuidReads w)) ;;
  loadFromStorage env found.

(** ** components/RedirectPage.tsx *)

Module RedirectPage.

Inductive Status : Type := loading | redirecting | expired | notfound.

(** The component's state, and the address [setTimeout] will assign to
    [window.location.href]. *)
Record View : Type := mkView {
  status : Status;
  originalUrl : string;
  location : option string
}.

Definition initialView : View := mkView loading EmptyString None.

Section WithEnv.
Variable env : Env.

Local Open Scope string_scope.

(** [document.referrer || 'direct'] *)
Definition referrerOrDirect (referrer : string) : string :=
  if String.eqb referrer "" then "direct" else referrer.

(** [handleRedirect], with [document.referrer] as an argument. *)
Definition handleRedirect (shortcode referrer : string) (view : View) : M View :=
  url <- urlService.getUrlByShortcode env shortcode ;;
  match url with
  | None =>
      logger.warn env "RedirectPage.handleRedirect" "frontend" "Shortcode not found"
        (Some (JObj [("shortcode", JStr shortcode)])) ;;
      ret (mkView notfound (originalUrl view) (location view))
  | Some url =>
      if ShortenedUrl.isExpired url then
        logger.warn env "RedirectPage.handleRedirect" "frontend"
          "Attempted to access expired URL"
          (Some (JObj [("shortcode", JStr shortcode);
                       ("originalUrl", JStr (ShortenedUrl.originalUrl url))])) ;;
        ret (mkView expired (ShortenedUrl.originalUrl url) (location view))
      else
        recorded <- urlService.recordClick env shortcode (referrerOrDirect referrer) ;;
        if recorded then
          logger.info env "RedirectPage.handleRedirect" "frontend" "Redirecting user"
            (Some (JObj [("shortcode", JStr shortcode);
                         ("originalUrl", JStr (ShortenedUrl.originalUrl url));
                         ("referrer", JStr (referrerOrDirect referrer))])) ;;
          ret (mkView redirecting (ShortenedUrl.originalUrl url)
                 (Some (ShortenedUrl.originalUrl url)))
        else
          logger.error env "RedirectPage.handleRedirect" "frontend" "Failed to record click"
            (Some (JObj [("shortcode", JStr shortcode)])) ;;
          ret (mkView notfound (originalUrl view) (location view))
  end.

(** The effect run on mount, [params.shortcode] being absent or a string. *)
Definition onMount (shortcode : option string) (referrer : string) (view : View) : M View :=
  if negb (truthy shortcode) then ret (mkView notfound (originalUrl view) (location view))
  else handleRedirect (orEmpty shortcode) referrer view.

End WithEnv.
End RedirectPage.

(** ** components/StatisticsPage.tsx *)

Module StatisticsPage.

(** The page holds the registry's own record objects, in [urls] (the
    array [getAllUrls] returned) and in [selectedUrl]; whatever the
    service writes into a record shows in the page without a reload, and
    what the page writes into one reaches the registry. A reference to a
    record object is modelled by the shortcode it is filed under: it
    stands for the object for as long as the object stays in the
    registry, and what the page shows of an object that has been removed
    since is outside the model. *)
Definition Ref : Type := string.

Definition deref (w : World) (ref : Ref) : option ShortenedUrl.t := Map_get ref (urls w).

(** [(a, b) => b.timestamp.getTime() - a.timestamp.getTime()] *)
Definition newestClickFirst (a b : ClickRecord.t) : Z :=
  (ClickRecord.timestamp b - ClickRecord.timestamp a)%Z.

(** [selectedUrl.clicks.sort(...)]: the array of the record itself is
    sorted. *)
Definition sortClicks (ref : Ref) (w : World) : World :=
  match deref w ref with
  | Some url =>
      if (0 <? length (ShortenedUrl.clicks url))%nat then
        set_urls (Map_set ref
                    (ShortenedUrl.set_clicks
                       (Array_sort newestClickFirst (ShortenedUrl.clicks url)) url)
                    (urls w)) w
      else w
  | None => w
  end.

Record State : Type := mkState {
  urls : list Ref;
  selectedUrl : option Ref;
  detailsOpen : bool
}.

Definition initialState : State := mkState [] None false.

(** The records the array of the page holds, as they are now. *)
Definition shown (w : World) (st : State) : list ShortenedUrl.t :=
  flat_map (fun ref => match deref w ref with Some url => [url] | None => [] end) (urls st).

Definition getTotalClicks (w : World) (st : State) : nat :=
  fold_left (fun total url => total + length (ShortenedUrl.clicks url)) (shown w st) 0.

Definition getActiveUrls (w : World) (st : State) : nat :=
  length (filter (fun url => negb (ShortenedUrl.isExpired url)) (shown w st)).

Definition handleViewDetails (url : Ref) (st : State) : State :=
  mkState (urls st) (Some url) true.

(** What a render does to the world: while a record is selected, the
    click table of the dialog sorts that record's clicks in place. *)
Definition renderDetails (st : State) : M unit :=
  match selectedUrl st with
  | Some ref => modify (sortClicks ref)
  | None => ret tt
  end.

Section WithEnv.
Variable env : Env.

Local Open Scope string_scope.

Definition loadUrls (st : State) : M State :=
  allUrls <- urlService.getAllUrls env ;;
  logger.info env "StatisticsPage.loadUrls" "frontend"
    ("Loaded " ++ natToString (length allUrls) ++ " URLs for statistics")
    (Some (JObj [("count", JNum (Z.of_nat (length allUrls)))])) ;;
  ret (mkState (map ShortenedUrl.shortCode allUrls) (selectedUrl st) (detailsOpen st)).

(** [handleDelete], with the answer to [confirm] as an argument. *)
Definition handleDelete (confirmed : bool) (shortCode : string) (st : State) : M State :=
  if confirmed then
    _ <- urlService.deleteUrl env shortCode ;;
    st' <- loadUrls st ;;
    logger.info env "StatisticsPage.handleDelete" "frontend" "URL deleted from statistics"
      (Some (JObj [("shortCode", JStr shortCode)])) ;;
    ret st'
  else ret st.

(** [handleClearAll], with the answer to [confirm] as an argument. *)
Definition handleClearAll (confirmed : bool) (st : State) : M State :=
  if confirmed then
    urlService.clearAllUrls env ;;
    st' <- loadUrls st ;;
    logger.info env "StatisticsPage.handleClearAll" "frontend"
      "All URLs cleared from statistics" None ;;
    ret st'
  else ret st.

End WithEnv.
End StatisticsPage.

(** ** components/UrlShortenerForm.tsx *)

Module UrlShortenerForm.

(** [interface UrlRow extends UrlFormData { id: string }] *)
Record UrlRow : Type := mkRow {
  id : string;
  originalUrl : string;
  validityMinutes : JsNumber;
  preferredShortcode : option string
}.

Record State : Type := mkState {
  urlRows : list UrlRow;
  shortenedUrls : list (UrlRow * ShortenedUrl.t);
  errors : list (string * string);
  isLoading : bool
}.

Definition emptyRow (id : string) : UrlRow :=
  mkRow id EmptyString (Integer 30) (Some EmptyString).

Definition initialState : State := mkState [emptyRow "1"] [] [] false.

(** The field and value of one [updateUrlRow] call, as the inputs pair them. *)
Inductive Change : Type :=
| ChangeOriginalUrl (value : string)
| ChangeValidityMinutes (value : JsNumber)
| ChangePreferredShortcode (value : string).

Definition applyChange (c : Change) (row : UrlRow) : UrlRow :=
  match c with
  | ChangeOriginalUrl value =>
      mkRow (id row) value (validityMinutes row) (preferredShortcode row)
  | ChangeValidityMinutes value =>
      mkRow (id row) (originalUrl row) value (preferredShortcode row)
  | ChangePreferredShortcode value =>
      mkRow (id row) (originalUrl row) (validityMinutes row) (Some value)
  end.

(** [errors[id]] is truthy. *)
Definition hasError (id : string) (errors : list (string * string)) : bool :=
  truthy (Map_get id errors).

Definition removeUrlRow (rowId : string) (st : State) : State :=
  if 1 <? length (urlRows st) then
    mkState (filter (fun row => negb (String.eqb (id row) rowId)) (urlRows st))
            (shortenedUrls st) (Map_delete rowId (errors st)) (isLoading st)
  else st.

Definition updateUrlRow (rowId : string) (c : Change) (st : State) : State :=
  mkState (map (fun row => if String.eqb (id row) rowId then applyChange c row else row)
               (urlRows st))
          (shortenedUrls st)
          (if hasError rowId (errors st) then Map_delete rowId (errors st) else errors st)
          (isLoading st).

(** The object handed to [shortenUrl] for a row:
    [preferredShortcode: row.preferredShortcode || undefined]. *)
Definition formDataOf (row : UrlRow) : UrlFormData.t :=
  UrlFormData.mk (originalUrl row) (validityMinutes row)
    (if truthy (preferredShortcode row) then preferredShortcode row else None).

(** [error instanceof Error ? error.message : 'Failed to shorten URL']; the
    service throws [Error] objects only. *)
Definition errorMessage (error : Exn) : string :=
  match error with
  | Error message => message
  | DOMException name => name
  end.

Section WithEnv.
Variable env : Env.
(** [!s.trim()]: the string is empty or all white space. *)
Variable isBlank : string -> bool.

Local Open Scope string_scope.

(** [Date.now().toString()] *)
Definition freshId : M string :=
  now <- newDate env ;; ret (intToString now).

Definition addUrlRow (st : State) : M State :=
  if (length (urlRows st) <? 5)%nat then
    rowId <- freshId ;;
    ret (mkState (urlRows st ++ [emptyRow rowId]) (shortenedUrls st) (errors st)
                 (isLoading st))
  else ret st.

(** What the callback of [urlRows.forEach] in [validateForm] finds wrong
    with a row. *)
Definition rowError (w : World) (row : UrlRow) : option string :=
  if isBlank (originalUrl row) then Some "URL is required"
  else
    let urlValidation := urlService.validateUrl env (originalUrl row) in
    if negb (UrlValidationResult.isValid urlValidation) then
      Some (orEmpty (UrlValidationResult.error urlValidation))
    else
      let shortcodeValidation :=
        urlService.validateShortcode w (orEmpty (preferredShortcode row)) in
      if negb (UrlValidationResult.isValid shortcodeValidation) then
        Some (orEmpty (UrlValidationResult.error shortcodeValidation))
      else
        let validityValidation := urlService.validateValidityMinutes (validityMinutes row) in
        if negb (UrlValidationResult.isValid validityValidation) then
          Some (orEmpty (UrlValidationResult.error validityValidation))
        else None.

Fixpoint collectErrors (w : World) (rows : list UrlRow) (newErrors : list (string * string))
    : list (string * string) :=
  match rows with
  | [] => newErrors
  | row :: rest =>
      collectErrors w rest
        (match rowError w row with
         | Some message => Map_set (id row) message newErrors
         | None => newErrors
         end)
  end.

(** [validateForm]: the new error object, and whether it has no key. *)
Definition validateForm (w : World) (st : State) : State * bool :=
  let newErrors := collectErrors w (urlRows st) [] in
  (mkState (urlRows st) (shortenedUrls st) newErrors (isLoading st),
   Nat.eqb (length (Map_keys newErrors)) 0).

(** The [for .. of] loop of [handleSubmit]. *)
Fixpoint submitRows (fuel : nat) (rows : list UrlRow)
    (newShortenedUrls : list (UrlRow * ShortenedUrl.t)) (errors : list (string * string))
    : M (list (UrlRow * ShortenedUrl.t) * list (string * string)) :=
  match rows with
  | [] => ret (newShortenedUrls, errors)
  | row :: rest =>
      outcome <- tryCatch
                   (shortened <- urlService.shortenUrl env fuel (formDataOf row) ;;
                    ret (inl shortened))
                   (fun error => ret (inr (errorMessage error))) ;;
      match outcome with
      | inl shortened => submitRows fuel rest (newShortenedUrls ++ [(row, shortened)]) errors
      | inr message => submitRows fuel rest newShortenedUrls (Map_set (id row) message errors)
      end
  end.

Definition handleSubmit (fuel : nat) (st : State) : M State :=
  w <- get ;;
  let (validated, ok) := validateForm w st in
  if negb ok then ret validated
  else
    tryCatch
      (done <- submitRows fuel (urlRows validated) [] (errors validated) ;;
       let (newShortenedUrls, errors') := done in
       if Nat.eqb (length newShortenedUrls) (length (urlRows validated)) then
         rowId <- freshId ;;
         ret (mkState [emptyRow rowId] newShortenedUrls errors' false)
       else ret (mkState (urlRows validated) newShortenedUrls errors' false))
      (fun error =>
         logger.error env "UrlShortenerForm.handleSubmit" "frontend"
           "Error in bulk URL shortening" (Some (JObj [("error", JErr error)])) ;;
         ret (mkState (urlRows validated) (shortenedUrls validated) (errors validated) false)).

End WithEnv.
End UrlShortenerForm.

(** The handlers of the form, as the steps a user can take on it. *)
Inductive FormOp : Type :=
| FormAdd
| FormRemove (rowId : string)
| FormUpdate (rowId : string) (c : UrlShortenerForm.Change)
| FormSubmit (fuel : nat).

Definition runFormOp (env : Env) (isBlank : string -> bool) (op : FormOp)
    (st : UrlShortenerForm.State) : M UrlShortenerForm.State :=
  match op with
  | FormAdd => UrlShortenerForm.addUrlRow env st
  | FormRemove rowId => ret (UrlShortenerForm.removeUrlRow rowId st)
  | FormUpdate rowId c => ret (UrlShortenerForm.updateUrlRow rowId c st)
  | FormSubmit fuel => UrlShortenerForm.handleSubmit env isBlank fuel st
  end.

(** The shortcode a row asks for, [row.preferredShortcode || '']. *)
Definition codeOf (row : UrlShortenerForm.UrlRow) : string :=
  orEmpty (UrlShortenerForm.preferredShortcode row).

(** A row that passes every check of the form and asks for a shortcode
    of its own that is no key of the registry. *)
Definition explicitRow (env : Env) (isBlank : string -> bool) (w : World)
    (row : UrlShortenerForm.UrlRow) : Prop :=
  isBlank (UrlShortenerForm.originalUrl row) = false /\
  UrlValidationResult.isValid
    (urlService.validateUrl env (UrlShortenerForm.originalUrl row)) = true /\
  UrlValidationResult.isValid
    (urlService.validateValidityMinutes (UrlShortenerForm.validityMinutes row)) = true /\
  wellFormedShortcode (codeOf row) = true /\
  Map_has (codeOf row) (urls w) = false.

(** ** The application as a whole *)

(** One step of the application: a call into the service or the logger,
    a page load on whatever the browser holds under the key, a handler
    of one of the three components or a render of the statistics page,
    each on whatever component state it is run. *)
Inductive AppOp : Type :=
| AppService (op : RegistryOp)
| AppLogger (op : LoggerOp)
| AppPageLoad (found : StoredItem)
| AppRedirect (shortcode : option string) (referrer : string) (view : RedirectPage.View)
| AppLoadUrls (st : StatisticsPage.State)
| AppDelete (confirmed : bool) (shortCode : string) (st : StatisticsPage.State)
| AppClearAll (confirmed : bool) (st : StatisticsPage.State)
| AppRenderDetails (st : StatisticsPage.State)
| AppAddRow (st : UrlShortenerForm.State)
| AppSubmit (fuel : nat) (st : UrlShortenerForm.State).

Definition runAppOp (env : Env) (isBlank : string -> bool) (op : AppOp) : M unit :=
  match op with
  | AppService op => runRegistryOp env op
  | AppLogger op => runLoggerOp env op
  | AppPageLoad found => pageLoad env found
  | AppRedirect shortcode referrer view =>
      _ <- RedirectPage.onMount env shortcode referrer view ;; ret tt
  | AppLoadUrls st => _ <- StatisticsPage.loadUrls env st ;; ret tt
  | AppDelete confirmed shortCode st =>
      _ <- StatisticsPage.handleDelete env confirmed shortCode st ;; ret tt
  | AppClearAll confirmed st => _ <- StatisticsPage.handleClearAll env confirmed st ;; ret tt
  | AppRenderDetails st => StatisticsPage.renderDetails st
  | AppAddRow st => _ <- UrlShortenerForm.addUrlRow env st ;; ret tt
  | AppSubmit fuel st => _ <- UrlShortenerForm.handleSubmit env isBlank fuel st ;; ret tt
  end.

(** A run of the application: any number of steps, each going on from
    whatever outcome the one before had. *)
Inductive appRun (env : Env) (isBlank : string -> bool) : World -> World -> Prop :=
| run_done (w : World) : appRun env isBlank w w
| run_step (op : AppOp) (w w' w'' : World) (res : Res unit) :
    appRun env isBlank w w' ->
    runAppOp env isBlank op w' = (res, w'') ->
    appRun env isBlank w w''.

(** ** Vocabulary of the further properties *)

(** Every run of [m] relates the world it starts in to the world it
    leaves, whatever its outcome. *)
Definition preserves (R : World -> World -> Prop) {A} (m : M A) : Prop :=
  forall w res w', m w = (res, w') -> R w w'.

(** An invariant, as a relation between the worlds of a run. *)
Definition keeps (I : World -> Prop) (w w' : World) : Prop := I w -> I w'.

(** The clock is only ever read forward. *)
Definition readsGrow (w w' : World) : Prop := dateReads w <= dateReads w'.

(** Neither browser store is written and no fetch is started. *)
Definition browserUntouched (w w' : World) : Prop :=
  localStorage w' = localStorage w /\
  sessionStorage w' = sessionStorage w /\
  (forall x, In x (pending w') -> In x (pending w)).

(** The logger leaves the registry alone and reads the clock forward. *)
Definition registryUntouched (w w' : World) : Prop :=
  urls w' = urls w /\ dateReads w <= dateReads w'.

(** Outside a browser, [browserUntouched]. *)
Definition offlineFrame (env : Env) (w w' : World) : Prop :=
  window env = false -> browserUntouched w w'.

(** A record flagged expired was seen expired at some clock reading. *)
Definition flagsHonest (env : Env) (w : World) : Prop :=
  forall kv, In kv (urls w) ->
    ShortenedUrl.isExpired (snd kv) = true ->
    exists n, n < dateReads w /\ (clock env n > ShortenedUrl.expiryDate (snd kv))%Z.

Definition clockMonotone (env : Env) : Prop :=
  forall i j, i <= j -> (clock env i <= clock env j)%Z.

(** What no operation changes in a stored record. *)
Definition sameIdentity (u u' : ShortenedUrl.t) : Prop :=
  ShortenedUrl.id u' = ShortenedUrl.id u /\
  ShortenedUrl.originalUrl u' = ShortenedUrl.originalUrl u /\
  ShortenedUrl.shortCode u' = ShortenedUrl.shortCode u /\
  ShortenedUrl.createdAt u' = ShortenedUrl.createdAt u /\
  ShortenedUrl.expiryDate u' = ShortenedUrl.expiryDate u.

Definition clicksExtended (u u' : ShortenedUrl.t) : Prop :=
  exists more, ShortenedUrl.clicks u' = ShortenedUrl.clicks u ++ more.

(** What one operation of the registry does to the record set. *)
Inductive RegistryChange (env : Env) (op : RegistryOp) (w w' : World) : Prop :=
| change_none :
    urls w' = urls w -> localStorage w' = localStorage w -> RegistryChange env op w w'
| change_created (fuel : nat) (formData : UrlFormData.t) (code : string)
    (r : ShortenedUrl.t) :
    op = OpCreate fuel formData ->
    Map_has code (urls w) = false ->
    ShortenedUrl.shortCode r = code ->
    ShortenedUrl.originalUrl r = UrlFormData.originalUrl formData ->
    ShortenedUrl.clicks r = [] ->
    ShortenedUrl.isExpired r = false ->
    urls w' = urls w ++ [(code, r)] ->
    RegistryChange env op w w'
| change_marked (code : string) (u : ShortenedUrl.t) :
    (op = OpResolve code \/ exists source, op = OpClick code source) ->
    Map_get code (urls w) = Some u ->
    (clock env (dateReads w) > ShortenedUrl.expiryDate u)%Z ->
    dateReads w < dateReads w' ->
    urls w' = Map_set code (ShortenedUrl.set_isExpired true u) (urls w) ->
    RegistryChange env op w w'
| change_clicked (code source : string) (u : ShortenedUrl.t) (c : ClickRecord.t) :
    op = OpClick code source ->
    Map_get code (urls w) = Some u ->
    (clock env (dateReads w) <= ShortenedUrl.expiryDate u)%Z ->
    ClickRecord.source c = source ->
    urls w' = Map_set code
                (ShortenedUrl.set_clicks (ShortenedUrl.clicks u ++ [c]) u) (urls w) ->
    RegistryChange env op w w'
| change_listed :
    op = OpList ->
    dateReads w < dateReads w' ->
    urls w' = map (refreshEntry (clock env (dateReads w))) (urls w) ->
    RegistryChange env op w w'
| change_deleted (code : string) :
    op = OpDelete code ->
    Map_has code (urls w) = true ->
    urls w' = Map_delete code (urls w) ->
    RegistryChange env op w w'
| change_cleared :
    op = OpClear -> urls w' = [] -> RegistryChange env op w w'.

(** The saved array is the record set, or the step changed neither. *)
Definition savedOrSame (w w' : World) : Prop :=
  (urls w' = urls w /\ localStorage w' = localStorage w) \/
  localStorage w' = Some (Map_values (urls w')).

(** A browser whose [localStorage] takes every write. *)
Definition storeAccepts (env : Env) : Prop :=
  window env = true /\ forall a, localQuota env a = true.

(** The elements [loadFromStorage] gets to: the records before the first
    element its callback throws on. *)
Fixpoint loadable (urlsArray : list StoredElement) : list ShortenedUrl.t :=
  match urlsArray with
  | Stored url :: rest => url :: loadable rest
  | _ => []
  end.

Definition allStored (urlsArray : list StoredElement) : bool :=
  forallb (fun element => match element with Stored _ => true | Malformed => false end)
    urlsArray.

(** Whether [loadFromStorage] ends in its [catch]. *)
Definition loadFails (item : StoredItem) : bool :=
  match item with
  | NoItem => false
  | Unparsable | NotAnArray => true
  | Parsed urlsArray => negb (allStored urlsArray)
  end.

(** The records [loadFromStorage] gets to in an item. *)
Definition itemLoadable (item : StoredItem) : list ShortenedUrl.t :=
  match item with
  | Parsed urlsArray => loadable urlsArray
  | _ => []
  end.

(** The array of records under the storage key, nothing being there read
    as the empty array; [None] for anything else. *)
Definition stored (found : StoredItem) (w : World) : option (list ShortenedUrl.t) :=
  if loadFails (itemUnderKey found w) then None
  else Some (itemLoadable (itemUnderKey found w)).

(** The array under the key holds the records of the registry, in order,
    up to their [isExpired] flags. *)
Definition inSync (found : StoredItem) (w : World) : Prop :=
  exists a,
    stored found w = Some a /\
    map (ShortenedUrl.set_isExpired false) a
    = map (ShortenedUrl.set_isExpired false) (Map_values (urls w)).

(** What [loadFromStorage] makes of a saved array, the clock having been
    read [d] times. *)
Fixpoint reloaded (env : Env) (d : nat) (a : list ShortenedUrl.t)
    : list (string * ShortenedUrl.t) :=
  match a with
  | [] => []
  | u :: rest =>
      (ShortenedUrl.shortCode u, refreshFlag (clock env d) u) :: reloaded env (S d) rest
  end.

(** Newest click first. *)
Definition newerClickOrSame (a b : ClickRecord.t) : Prop :=
  (ClickRecord.timestamp b <= ClickRecord.timestamp a)%Z.

(** * Properties *)

(** ** Running monadic code *)

Lemma bind_Ok {A B} (m : M A) (k : A -> M B) w a w' :
  m w = (Ok a, w') -> bind m k w = k a w'.
Proof. intros H. unfold bind. rewrite H. reflexivity. Qed.

Lemma bind_Diverge {A B} (m : M A) (k : A -> M B) w w' :
  m w = (Diverge, w') -> bind m k w = (Diverge, w').
Proof. intros H. unfold bind. rewrite H. reflexivity. Qed.

(** ** The last [n] elements of a list *)

Lemma sliceLast_length {A} n (l : list A) : length (sliceLast n l) = Nat.min n (length l).
Proof. unfold sliceLast. rewrite length_skipn. lia. Qed.

Lemma sliceLast_short {A} n (l : list A) : length l <= n -> sliceLast n l = l.
Proof.
  intros H. unfold sliceLast.
  replace (length l - n) with 0 by lia. reflexivity.
Qed.

Lemma sliceLast_suffix {A} n (l : list A) : exists dropped, l = dropped ++ sliceLast n l.
Proof.
  exists (firstn (length l - n) l). unfold sliceLast.
  symmetry. apply firstn_skipn.
Qed.

Lemma sliceLast_app {A} n (l l' : list A) :
  sliceLast n (sliceLast n l ++ l') = sliceLast n (l ++ l').
Proof.
  destruct (Nat.le_gt_cases (length l) n) as [Hle | Hgt].
  - rewrite (sliceLast_short n l) by assumption. reflexivity.
  - unfold sliceLast at 1 3.
    rewrite !length_app, sliceLast_length.
    replace (Nat.min n (length l)) with n by lia.
    unfold sliceLast.
    rewrite !skipn_app, length_skipn, skipn_skipn.
    replace (n + length l' - n + (length l - n)) with (length l + length l' - n) by lia.
    replace (n + length l' - n - (length l - (length l - n)))
      with (length l + length l' - n - length l) by lia.
    reflexivity.
Qed.

(** The cap as the code writes it is [sliceLast]. *)
Lemma cap_sliceLast {A} n (l : list A) :
  (if n <? length l then sliceLast n l else l) = sliceLast n l.
Proof.
  destruct (Nat.ltb_spec n (length l)); [reflexivity |].
  symmetry. apply sliceLast_short. assumption.
Qed.

Lemma splice_sliceLast {A} n (l : list A) :
  (if n <? length l then spliceFront (length l - n) l else l) = sliceLast n l.
Proof. unfold spliceFront. apply (cap_sliceLast n l). Qed.

Section LoggerFacts.
Variable env : Env.

Lemma loggerFrame_refl w : loggerFrame w w.
Proof. constructor; reflexivity. Qed.

Lemma loggerFrame_trans w1 w2 w3 :
  loggerFrame w1 w2 -> loggerFrame w2 w3 -> loggerFrame w1 w3.
Proof.
  intros [a b c d] [a' b' c' d']. constructor; congruence.
Qed.

(** [storeInSession] swallows every error; it writes the slot or leaves
    the world as it was. *)
Lemma storeInSession_spec e w :
  exists w',
    logger.storeInSession env e w = (Ok tt, w') /\
    (w' = w \/
     (window env = true /\
      sessionQuota env (sliceLast 100 (sessionEntries w ++ [e])) = true /\
      w' = set_sessionStorage (Some (sliceLast 100 (sessionEntries w ++ [e]))) w)) /\
    (window env = true ->
     sessionQuota env (sliceLast 100 (sessionEntries w ++ [e])) = true ->
     w' = set_sessionStorage (Some (sliceLast 100 (sessionEntries w ++ [e]))) w).
Proof.
  unfold logger.storeInSession.
  destruct (window env) eqn:Hw.
  - unfold tryCatch, bind, sessionStorage_getItem, sessionStorage_setItem.
    fold (sessionEntries w).
    rewrite (splice_sliceLast 100 (sessionEntries w ++ [e])).
    destruct (sessionQuota env (sliceLast 100 (sessionEntries w ++ [e]))) eqn:Hq.
    + eexists. split; [reflexivity |]. split; [right; auto | auto].
    + exists w. split; [reflexivity |]. split; [left; reflexivity | discriminate].
  - exists w. split; [reflexivity |]. split; [left; reflexivity | discriminate].
Qed.

Lemma storeInSession_frame e w w' :
  logger.storeInSession env e w = (Ok tt, w') ->
  loggerFrame w w' /\ logs w' = logs w /\ pending w' = pending w /\
  dateReads w' = dateReads w /\ testServerEndpoint w' = testServerEndpoint w /\
  (length (sessionEntries w) <= 100 -> length (sessionEntries w') <= 100).
Proof.
  intros H. destruct (storeInSession_spec e w) as (w1 & Hrun & [-> | (_ & _ & ->)] & _);
    rewrite Hrun in H; inversion H; subst w'.
  - repeat split; auto.
  - repeat split; auto. intros _. unfold sessionEntries at 1. simpl.
    rewrite sliceLast_length. lia.
Qed.

(** [Log] returns normally, whatever the platform does. *)
Lemma Log_spec stack level packageName message context w :
  let e := LogEntry.mk (clock env (dateReads w)) stack level packageName message context in
  exists w',
    logger.Log env stack level packageName message context w = (Ok tt, w') /\
    loggerFrame w w' /\
    logs w' = sliceLast 1000 (logs w ++ [e]) /\
    dateReads w' = S (dateReads w) /\
    testServerEndpoint w' = testServerEndpoint w /\
    pending w' = (if window env then pending w ++ [(testServerEndpoint w, e)] else pending w) /\
    (sessionStorage w' = sessionStorage w \/
     sessionStorage w' = Some (sliceLast 100 (sessionEntries w ++ [e]))) /\
    (window env = true ->
     sessionQuota env (sliceLast 100 (sessionEntries w ++ [e])) = true ->
     sessionStorage w' = Some (sliceLast 100 (sessionEntries w ++ [e]))).
Proof.
  intros e. unfold logger.Log, logger.addLog, logger.sendToTestServer.
  unfold bind at 1. unfold newDate at 1. fold e.
  unfold bind at 1. unfold bind at 1. unfold modify at 1.
  unfold logger.maxLogs. 
  match goal with |- context [logger.storeInSession env e ?w0] =>
    destruct (storeInSession_spec e w0) as (w1 & Hrun & Hcases & Hgood);
    destruct (storeInSession_frame e w0 w1 Hrun) as ([Fu Fl Fr Fi] & Hlogs & Hpend & Hdate & Hend & _)
  end.
  rewrite Hrun. simpl in *.
  rewrite (cap_sliceLast 1000 (logs w ++ [e])) in *.
  destruct (window env) eqn:Hw.
  - eexists. split; [reflexivity |]. simpl.
    split; [constructor; assumption |].
    repeat split; try assumption.
    + rewrite Hend, Hpend. reflexivity.
    + destruct Hcases as [-> | (_ & _ & ->)]; [left | right]; reflexivity.
    + intros _ Hq. rewrite (Hgood eq_refl Hq). reflexivity.
  - eexists. split; [reflexivity |].
    split; [constructor; assumption |].
    repeat split; try assumption.
    + destruct Hcases as [-> | (_ & _ & ->)]; [left | right]; reflexivity.
    + discriminate.
Qed.

End LoggerFacts.

Section LoggerSequences.
Variable env : Env.

Lemma removeNth_length {A} i (l : list A) : length (removeNth i l) <= length l.
Proof.
  unfold removeNth. rewrite length_app, length_firstn, length_skipn. lia.
Qed.

(** A delivery that ends touches the secondary buffer at most. *)
Lemma settle_spec i r w :
  exists w',
    logger.settle env i r w = (Ok tt, w') /\
    loggerFrame w w' /\
    logs w' = logs w /\
    testServerEndpoint w' = testServerEndpoint w /\
    (pending w' = removeNth i (pending w) \/ pending w' = pending w) /\
    (length (sessionEntries w) <= 100 -> length (sessionEntries w') <= 100) /\
    (deliveryFailed r = false -> sessionStorage w' = sessionStorage w) /\
    (deliveryFailed r = true -> i < length (pending w) -> window env = true ->
     (forall l, sessionQuota env l = true) ->
     exists f,
       sessionStorage w' = Some (sliceLast 100 (sessionEntries w ++ [f])) /\
       LogEntry.level f = Warn /\
       LogEntry.package f = "LoggingMiddleware"%string /\
       LogEntry.timestamp f = clock env (dateReads w)).
Proof.
  unfold logger.settle.
  destruct (nth_error (pending w) i) as [[endpoint e] |] eqn:Hnth.
  2:{ exists w. split; [reflexivity |]. split; [apply loggerFrame_refl |].
      repeat split; auto.
      intros _ Hi. apply nth_error_None in Hnth. lia. }
  set (w0 := set_pending (removeNth i (pending w)) w).
  assert (Hfail : forall f,
    exists w', (t <- newDate env ;; logger.storeInSession env (f t)) w0 = (Ok tt, w') /\
      loggerFrame w w' /\ logs w' = logs w /\
      testServerEndpoint w' = testServerEndpoint w /\
      pending w' = removeNth i (pending w) /\
      (length (sessionEntries w) <= 100 -> length (sessionEntries w') <= 100) /\
      (window env = true -> (forall l, sessionQuota env l = true) ->
       sessionStorage w' =
         Some (sliceLast 100 (sessionEntries w ++ [f (clock env (dateReads w))])))).
  { intros f. unfold bind, newDate.
    match goal with |- context [logger.storeInSession env ?x ?v] =>
      destruct (storeInSession_spec env x v) as (w1 & Hrun & _ & Hgood);
      destruct (storeInSession_frame env x v w1 Hrun)
        as ([Fu Fl Fr Fi] & Hlogs & Hpend & Hdate & Hend & Hlen)
    end.
    rewrite Hrun. exists w1. split; [reflexivity |].
    split; [constructor; assumption |].
    repeat split; try assumption.
    intros Hw Hq. rewrite (Hgood Hw (Hq _)). reflexivity. }
  destruct r as [status | error]; simpl.
  - destruct (logger.response_ok status) eqn:Hok; simpl.
    + exists w0. split; [reflexivity |]. split; [constructor; reflexivity |].
      repeat split; auto. discriminate.
    + destruct (Hfail (fun t => LogEntry.mk t (logger.getStackTrace env) Warn "LoggingMiddleware"
             ("Failed to send log to test server: " ++ intToString status)%string
             (Some (JObj [("originalLog", entryJson e)]%string))))
        as (w' & Hrun & Hfr & Hlogs & Hend & Hpend & Hlen & Hgood).
      exists w'. split; [exact Hrun |]. split; [exact Hfr |].
      repeat split; auto; try discriminate.
      intros _ _ Hw Hq. eexists. split; [apply Hgood; assumption |].
      repeat split.
  - destruct (Hfail (fun t => LogEntry.mk t (logger.getStackTrace env) Warn "LoggingMiddleware"
           "Test server unavailable"%string
           (Some (JObj [("error", JErr error); ("originalLog", entryJson e)]%string))))
      as (w' & Hrun & Hfr & Hlogs & Hend & Hpend & Hlen & Hgood).
    exists w'. split; [exact Hrun |]. split; [exact Hfr |].
    repeat split; auto; try discriminate.
    intros _ _ Hw Hq. eexists. split; [apply Hgood; assumption |].
    repeat split.
Qed.

Lemma removeNth_beyond {A} i (l : list A) : nth_error l i = None -> removeNth i l = l.
Proof.
  intros H. apply nth_error_None in H. unfold removeNth.
  rewrite firstn_all2 by lia. rewrite skipn_all2 by lia. apply app_nil_r.
Qed.

(** A delivery that ends leaves in flight exactly the other deliveries:
    the one that ended is taken out and none is started. *)
Lemma settle_pending i r w res w' :
  logger.settle env i r w = (res, w') -> pending w' = removeNth i (pending w).
Proof.
  unfold logger.settle.
  destruct (nth_error (pending w) i) as [[endpoint e] |] eqn:Hnth.
  2:{ intros [= _ <-]. symmetry. apply removeNth_beyond. exact Hnth. }
  assert (Hfail : forall f res0 w0,
    (t <- newDate env ;; logger.storeInSession env (f t))
      (set_pending (removeNth i (pending w)) w) = (res0, w0) ->
    pending w0 = removeNth i (pending w)).
  { intros f res0 w0. unfold bind, newDate.
    match goal with |- context [logger.storeInSession env ?x ?v] =>
      destruct (storeInSession_spec env x v) as (w1 & Hrun1 & _);
      destruct (storeInSession_frame env x v w1 Hrun1) as (_ & _ & Hpend & _)
    end.
    rewrite Hrun1. intros [= _ <-]. rewrite Hpend. reflexivity. }
  destruct r as [status | error]; simpl.
  - destruct (logger.response_ok status); simpl.
    + intros [= _ <-]. reflexivity.
    + apply Hfail.
  - apply Hfail.
Qed.

Lemma Log_bounded stack level packageName message context w w' :
  logger.Log env stack level packageName message context w = (Ok tt, w') ->
  length (sessionEntries w) <= 100 ->
  buffersBounded w'.
Proof.
  intros Hrun Hs.
  destruct (Log_spec env stack level packageName message context w)
    as (w1 & Hrun1 & _ & Hlogs & _ & _ & _ & Hsess & _).
  rewrite Hrun in Hrun1. inversion Hrun1; subst w1. clear Hrun1.
  split.
  - rewrite Hlogs, sliceLast_length. lia.
  - unfold sessionEntries at 1. destruct Hsess as [-> | ->].
    + exact Hs.
    + rewrite sliceLast_length. lia.
Qed.

Lemma runLoggerOp_bounded op w :
  buffersBounded w ->
  exists w', runLoggerOp env op w = (Ok tt, w') /\ buffersBounded w' /\ loggerFrame w w'.
Proof.
  intros [Hl Hs]. destruct op as [stack level packageName message context | i r | | | endpoint];
    simpl.
  - destruct (Log_spec env stack level packageName message context w)
      as (w1 & Hrun1 & Hfr & _).
    exists w1. split; [exact Hrun1 |]. split; [| exact Hfr].
    eapply Log_bounded; eassumption.
  - destruct (settle_spec i r w) as (w1 & Hrun & Hfr & Hlogs & _ & _ & Hlen & _).
    exists w1. split; [exact Hrun |]. split; [| exact Hfr].
    split; [rewrite Hlogs; exact Hl | auto].
  - exists w. split; [reflexivity |]. split; [split; assumption | apply loggerFrame_refl].
  - unfold logger.clearLogs, bind, modify. destruct (window env).
    + eexists. split; [reflexivity |].
      split; [split; simpl; lia | constructor; reflexivity].
    + eexists. split; [reflexivity |].
      split; [split; simpl; [lia | exact Hs] | constructor; reflexivity].
  - eexists. split; [reflexivity |]. split; [split; assumption | constructor; reflexivity].
Qed.

Lemma runLoggerOps_bounded ops : forall w,
  buffersBounded w ->
  exists w', runLoggerOps env ops w = (Ok tt, w') /\ buffersBounded w' /\ loggerFrame w w'.
Proof.
  induction ops as [| op rest IH]; intros w Hb; simpl.
  - exists w. split; [reflexivity |]. split; [exact Hb | apply loggerFrame_refl].
  - destruct (runLoggerOp_bounded op w Hb) as (w1 & Hrun1 & Hb1 & Hf1).
    destruct (IH w1 Hb1) as (w2 & Hrun2 & Hb2 & Hf2).
    exists w2. split; [| split; [exact Hb2 | eapply loggerFrame_trans; eassumption]].
    rewrite (bind_Ok _ _ _ _ _ Hrun1). exact Hrun2.
Qed.

Lemma logAll_fifo calls : forall w,
  exists w' es,
    logAll env calls w = (Ok tt, w') /\
    map callOf es = calls /\
    (length (logs w) <= 1000 -> logs w' = sliceLast 1000 (logs w ++ es)) /\
    (length (sessionEntries w) <= 100 ->
     window env = true -> (forall l, sessionQuota env l = true) ->
     sessionEntries w' = sliceLast 100 (sessionEntries w ++ es)).
Proof.
  induction calls as [| c rest IH]; intros w; simpl.
  - exists w, []. split; [reflexivity |]. split; [reflexivity |].
    rewrite !app_nil_r. split; intros; symmetry; apply sliceLast_short; assumption.
  - destruct (Log_spec env (call_stack c) (call_level c) (call_package c) (call_message c)
                (call_context c) w)
      as (w1 & Hrun1 & _ & Hlogs & _ & _ & _ & Hsess & Hgood).
    destruct (IH w1) as (w2 & es & Hrun2 & Hmap & Hl2 & Hs2).
    exists w2,
      (LogEntry.mk (clock env (dateReads w)) (call_stack c) (call_level c)
         (call_package c) (call_message c) (call_context c) :: es).
    split; [rewrite (bind_Ok _ _ _ _ _ Hrun1); exact Hrun2 |].
    split; [simpl; rewrite Hmap; destruct c; reflexivity |].
    split.
    + intros _. rewrite Hl2.
      * rewrite Hlogs, sliceLast_app, <- app_assoc. reflexivity.
      * rewrite Hlogs, sliceLast_length. lia.
    + intros Hlen Hw Hq.
      assert (Hse : sessionEntries w1 =
                    sliceLast 100 (sessionEntries w ++
                      [LogEntry.mk (clock env (dateReads w)) (call_stack c) (call_level c)
                         (call_package c) (call_message c) (call_context c)])).
      { unfold sessionEntries at 1. rewrite (Hgood Hw (Hq _)). reflexivity. }
      rewrite Hs2; try assumption.
      * rewrite Hse, sliceLast_app, <- app_assoc. reflexivity.
      * rewrite Hse, sliceLast_length. lia.
Qed.

End LoggerSequences.

Lemma sliceLast_snoc {A} n (l : list A) x :
  sliceLast (S n) (l ++ [x]) = sliceLast n l ++ [x].
Proof.
  unfold sliceLast. rewrite length_app, skipn_app. simpl length.
  replace (length l + 1 - S n) with (length l - n) by lia.
  replace (length l - n - length l) with 0 by lia. reflexivity.
Qed.

(** ** The log buffer *)

(** C7: the primary buffer never holds more than 1000 entries and the
    secondary buffer never more than 100, after any sequence of logger
    operations ([Log], a delivery ending, [getLogs], [clearLogs],
    [setTestServerEndpoint]) started within the bounds; [getLogs] returns
    at most 1000 entries. After a run of [Log] calls the primary buffer is
    exactly the last 1000 of the old buffer followed by the new entries in
    call order (the oldest are the ones evicted), and, in a browser whose
    session store accepts the writes, the secondary buffer is the last 100
    of its old content followed by the same entries. *)
Theorem log_buffers_bounded_fifo (env : Env) (w : World) :
  buffersBounded w ->
  (forall ops, exists w',
      runLoggerOps env ops w = (Ok tt, w') /\
      buffersBounded w' /\
      exists l, logger.getLogs w' = (Ok l, w') /\ length l <= 1000) /\
  (forall calls, exists w' es,
      logAll env calls w = (Ok tt, w') /\
      map callOf es = calls /\
      logs w' = sliceLast 1000 (logs w ++ es) /\
      logger.getLogs w' = (Ok (sliceLast 1000 (logs w ++ es)), w') /\
      (exists evicted, logs w ++ es = evicted ++ logs w') /\
      length (logs w') <= 1000 /\
      (window env = true -> (forall l, sessionQuota env l = true) ->
       sessionEntries w' = sliceLast 100 (sessionEntries w ++ es) /\
       length (sessionEntries w') <= 100)).
Proof.
  intros [Hl Hs]. split.
  - intros ops.
    destruct (runLoggerOps_bounded env ops w (conj Hl Hs)) as (w' & Hrun & Hb & _).
    exists w'. split; [exact Hrun |]. split; [exact Hb |].
    exists (logs w'). split; [reflexivity | apply Hb].
  - intros calls.
    destruct (logAll_fifo env calls w) as (w' & es & Hrun & Hmap & Hlogs & Hsess).
    specialize (Hlogs Hl).
    exists w', es. split; [exact Hrun |]. split; [exact Hmap |].
    split; [exact Hlogs |].
    split; [unfold logger.getLogs, bind, get, ret; rewrite Hlogs; reflexivity |].
    split; [rewrite Hlogs; apply sliceLast_suffix |].
    split; [rewrite Hlogs, sliceLast_length; lia |].
    intros Hw Hq. rewrite (Hsess Hs Hw Hq).
    split; [reflexivity | rewrite sliceLast_length; lia].
Qed.

Lemma log_buffers_bounded_fifo_witness :
  buffersBounded emptyWorld /\
  exists w' es,
    logAll browser [mkLogCall "at main" Info "frontend" "started" None;
                    mkLogCall "at main" Err "frontend" "failed" None] emptyWorld
      = (Ok tt, w') /\
    logs w' = sliceLast 1000 (logs emptyWorld ++ es) /\
    length (logs w') <= 1000.
Proof.
  assert (Hb : buffersBounded emptyWorld) by (split; simpl; lia).
  split; [exact Hb |].
  destruct (proj2 (log_buffers_bounded_fifo browser emptyWorld Hb)
              [mkLogCall "at main" Info "frontend" "started" None;
               mkLogCall "at main" Err "frontend" "failed" None])
    as (w' & es & Hrun & _ & Hlogs & _ & _ & Hlen & _).
  exists w', es. split; [exact Hrun |]. split; [exact Hlogs | exact Hlen].
Defined.

(** The 1001st entry evicts the first one; the 101st mirrored entry
    evicts the first mirrored one. *)
Example overflow_evicts_oldest :
  let calls := map (fun n => mkLogCall "at test" Debug "frontend" (natToString n) None)
                   (seq 0 1001) in
  let w' := snd (logAll browser calls emptyWorld) in
  length (logs w') = 1000 /\
  map LogEntry.message (firstn 2 (logs w')) = ["1"; "2"]%string /\
  map LogEntry.message (sliceLast 1 (logs w')) = ["1000"]%string /\
  length (sessionEntries w') = 100 /\
  map LogEntry.message (firstn 1 (sessionEntries w')) = ["901"]%string.
Proof. vm_compute. repeat split. Qed.

(** C9: [Log] (and with it [info], [warn], [error], [debug], [fatal])
    returns normally on every platform and in every world, with the new
    entry last in the primary buffer, and in a browser with one more
    delivery in flight. When a delivery ends, with whatever result, the
    resumed code returns normally too and leaves the primary buffer as it
    was; the deliveries in flight afterwards are exactly the ones that
    were, without the one that ended, so none is started; when the
    delivery failed (a status outside 200..299 or no response) and the
    session store accepts the write, the secondary buffer receives one
    entry of level [warn], which ranks below [error]. *)
Theorem log_returns_and_delivery_failure_is_secondary
    (env : Env) (stack : string) (level : Level) (packageName message : string)
    (context : option Json) (w : World) :
  let e := LogEntry.mk (clock env (dateReads w)) stack level packageName message context in
  (exists w1,
     logger.Log env stack level packageName message context w = (Ok tt, w1) /\
     (exists older, logs w1 = older ++ [e]) /\
     (window env = true -> pending w1 = pending w ++ [(testServerEndpoint w, e)])) /\
  (forall i r v, exists v',
     logger.settle env i r v = (Ok tt, v') /\
     logs v' = logs v /\
     pending v' = removeNth i (pending v) /\
     length (pending v') <= length (pending v) /\
     (deliveryFailed r = false -> sessionStorage v' = sessionStorage v) /\
     (deliveryFailed r = true -> i < length (pending v) -> window env = true ->
      (forall l, sessionQuota env l = true) ->
      exists f,
        sessionStorage v' = Some (sliceLast 100 (sessionEntries v ++ [f])) /\
        LogEntry.level f = Warn /\
        severity (LogEntry.level f) < severity Err)) /\
  logger.info env stack packageName message context
    = logger.Log env stack Info packageName message context /\
  logger.warn env stack packageName message context
    = logger.Log env stack Warn packageName message context /\
  logger.error env stack packageName message context
    = logger.Log env stack Err packageName message context /\
  logger.debug env stack packageName message context
    = logger.Log env stack Debug packageName message context /\
  logger.fatal env stack packageName message context
    = logger.Log env stack Fatal packageName message context.
Proof.
  intros e. split; [| split; [| repeat split]].
  - destruct (Log_spec env stack level packageName message context w)
      as (w1 & Hrun & _ & Hlogs & _ & _ & Hpend & _).
    exists w1. split; [exact Hrun |]. split.
    + exists (sliceLast 999 (logs w)). rewrite Hlogs. apply sliceLast_snoc.
    + intros Hw. rewrite Hpend, Hw. reflexivity.
  - intros i r v.
    destruct (settle_spec env i r v)
      as (v' & Hrun & _ & Hlogs & _ & _ & _ & Hok & Hfail).
    assert (Hpend := settle_pending env i r v _ _ Hrun).
    exists v'. split; [exact Hrun |]. split; [exact Hlogs |]. split; [exact Hpend |].
    split; [rewrite Hpend; apply removeNth_length |].
    split; [exact Hok |].
    intros Hf Hi Hw Hq. destruct (Hfail Hf Hi Hw Hq) as (f & Hs & Hlvl & _).
    exists f. split; [exact Hs |]. split; [exact Hlvl |].
    rewrite Hlvl. simpl. lia.
Qed.

Lemma log_returns_and_delivery_failure_is_secondary_witness :
  exists v' f,
    logger.settle browser 0 (logger.Response 503)
      (snd (logger.Log browser "at main" Err "frontend" "failed" None emptyWorld))
      = (Ok tt, v') /\
    sessionStorage v' =
      Some (sliceLast 100
              (sessionEntries
                 (snd (logger.Log browser "at main" Err "frontend" "failed" None emptyWorld))
               ++ [f])) /\
    LogEntry.level f = Warn /\
    length (pending (snd (logger.Log browser "at main" Err "frontend" "failed" None
                            emptyWorld))) = 1 /\
    pending v' = [].
Proof.
  destruct (proj1 (proj2 (log_returns_and_delivery_failure_is_secondary
                            browser "at main" Err "frontend" "failed" None emptyWorld))
              0 (logger.Response 503)
              (snd (logger.Log browser "at main" Err "frontend" "failed" None emptyWorld)))
    as (v' & Hrun & _ & Hpend & _ & _ & Hfail).
  destruct (Hfail eq_refl) as (f & Hs & Hlvl & _);
    [simpl; lia | reflexivity | reflexivity |].
  exists v', f. split; [exact Hrun |]. split; [exact Hs |]. split; [exact Hlvl |].
  split; [reflexivity | rewrite Hpend; reflexivity].
Defined.

(** An unreachable collector: the call returns, the entry is in the
    primary buffer, and the failure shows in the secondary buffer only. *)
Example unreachable_collector :
  let w1 := snd (logger.error browser "at main" "frontend" "failed" None emptyWorld) in
  let w2 := snd (logger.settle browser 0 (logger.Rejected (Error "Failed to fetch")) w1) in
  fst (logger.error browser "at main" "frontend" "failed" None emptyWorld) = Ok tt /\
  map LogEntry.message (logs w2) = ["failed"]%string /\
  map LogEntry.message (sessionEntries w2) = ["failed"; "Test server unavailable"]%string /\
  pending w2 = [].
Proof. vm_compute. repeat split. Qed.

(** ** The map *)

Section MapFacts.
Context {V : Type}.
Implicit Types (m : list (string * V)) (k : string) (v : V).

Lemma Map_get_set_same k v m : Map_get k (Map_set k v m) = Some v.
Proof.
  induction m as [| [k' v'] rest IH]; simpl.
  - rewrite String.eqb_refl. reflexivity.
  - destruct (String.eqb_spec k k') as [-> | Hne]; simpl.
    + rewrite String.eqb_refl. reflexivity.
    + destruct (String.eqb_spec k k'); [contradiction | exact IH].
Qed.

Lemma Map_set_keys k v m : Map_has k m = true -> Map_keys (Map_set k v m) = Map_keys m.
Proof.
  unfold Map_has. induction m as [| [k' v'] rest IH]; simpl; [discriminate |].
  destruct (String.eqb_spec k k') as [-> | Hne]; simpl; intros H.
  - reflexivity.
  - f_equal. apply IH. exact H.
Qed.

Lemma Map_delete_absent k m : Map_has k m = false -> Map_delete k m = m.
Proof.
  unfold Map_has. induction m as [| [k' v'] rest IH]; simpl; [reflexivity |].
  destruct (String.eqb_spec k k') as [-> | Hne]; [discriminate |].
  intros H. f_equal. apply IH. exact H.
Qed.

Lemma Map_get_In k v m : Map_get k m = Some v -> In (k, v) m.
Proof.
  induction m as [| [k' v'] rest IH]; simpl; [discriminate |].
  destruct (String.eqb_spec k k') as [-> | Hne].
  - intros [= ->]. left. reflexivity.
  - intros H. right. apply IH. exact H.
Qed.

Lemma Map_has_In k m : Map_has k m = false -> forall kv, In kv m -> fst kv <> k.
Proof.
  unfold Map_has. induction m as [| [k' v'] rest IH]; simpl; [intros _ kv [] |].
  destruct (String.eqb_spec k k') as [-> | Hne]; [discriminate |].
  intros H kv [<- | Hin]; simpl.
  - congruence.
  - apply IH; assumption.
Qed.

Lemma In_Map_has kv m : In kv m -> Map_has (fst kv) m = true.
Proof.
  intros Hin. destruct (Map_has (fst kv) m) eqn:H; [reflexivity |].
  exfalso. exact (Map_has_In _ _ H kv Hin eq_refl).
Qed.


End MapFacts.

Lemma set_urls_same w : set_urls (urls w) w = w.
Proof. destruct w. reflexivity. Qed.

(** ** The registry's private helpers *)

Section RegistryFacts.
Variable env : Env.

Lemma serviceFrame_of_logger w w' : loggerFrame w w' -> serviceFrame w w'.
Proof. intros [a b c d]. constructor; assumption. Qed.

Lemma serviceFrame_trans w1 w2 w3 :
  serviceFrame w1 w2 -> serviceFrame w2 w3 -> serviceFrame w1 w3.
Proof. intros [a b c] [a' b' c']. constructor; congruence. Qed.

(** [saveToStorage] absorbs a failing store; in a browser whose store
    accepts the array, the slot holds the current records afterwards. *)
Lemma saveToStorage_spec w :
  exists w',
    urlService.saveToStorage env w = (Ok tt, w') /\
    serviceFrame w w' /\
    (localStorage w' = localStorage w \/ localStorage w' = Some (Map_values (urls w))) /\
    (window env = true -> localQuota env (Map_values (urls w)) = true ->
     localStorage w' = Some (Map_values (urls w))) /\
    (window env = false -> w' = w) /\
    dateReads w' = (if window env then S (dateReads w) else dateReads w).
Proof.
  unfold urlService.saveToStorage. destruct (window env) eqn:Hw.
  2:{ exists w. split; [reflexivity |]. split; [constructor; reflexivity |].
      split; [left; reflexivity |]. split; [discriminate |]. split; reflexivity. }
  unfold tryCatch, bind at 1, get, bind at 1, localStorage_setItem.
  destruct (localQuota env (Map_values (urls w))) eqn:Hq.
  - unfold logger.debug.
    match goal with |- context [logger.Log env ?a ?b ?c ?d ?e ?v] =>
      destruct (Log_spec env a b c d e v) as (w1 & Hrun & [Fu Fl Fr Fi] & _ & Hd & _)
    end.
    rewrite Hrun. exists w1. split; [reflexivity |].
    split; [constructor; assumption |].
    split; [right; exact Fl |]. split; [intros _ _; exact Fl |].
    split; [discriminate | exact Hd].
  - unfold logger.error.
    match goal with |- context [logger.Log env ?a ?b ?c ?d ?e ?v] =>
      destruct (Log_spec env a b c d e v) as (w1 & Hrun & [Fu Fl Fr Fi] & _ & Hd & _)
    end.
    rewrite Hrun. exists w1.
    split; [reflexivity |].
    split; [constructor; assumption |].
    split; [left; exact Fl |]. split; [discriminate |]. split; [discriminate | exact Hd].
Qed.

Lemma drawChars_spec n : forall acc w,
  urlService.drawChars env n acc w
  = (Ok (spell env n (randomReads w) acc), set_randomReads (n + randomReads w) w).
Proof.
  induction n as [| n IH]; intros acc w; simpl.
  - destruct w; reflexivity.
  - unfold bind, randomIndex. rewrite IH. simpl.
    rewrite Nat.add_succ_r. destruct w; reflexivity.
Qed.

(** The loop returns the first candidate that is not a key. *)
Lemma generateShortcode_first_unused k : forall fuel w,
  k < fuel ->
  Map_has (candidate env (randomReads w + 6 * k)) (urls w) = false ->
  (forall j, j < k -> Map_has (candidate env (randomReads w + 6 * j)) (urls w) = true) ->
  urlService.generateShortcode env fuel w
  = (Ok (candidate env (randomReads w + 6 * k)),
     set_randomReads (randomReads w + 6 * (k + 1)) w).
Proof.
  induction k as [| k IH]; intros fuel w Hfuel Hfree Hused;
    (destruct fuel as [| fuel]; [lia |]); cbn [urlService.generateShortcode].
  - unfold bind at 1. rewrite drawChars_spec. unfold bind, get. cbn [urls set_randomReads].
    replace (randomReads w + 6 * 0) with (randomReads w) in Hfree by lia.
    fold (candidate env (randomReads w)). rewrite Hfree.
    replace (randomReads w + 6 * 0) with (randomReads w) by lia.
    replace (randomReads w + 6 * (0 + 1)) with (6 + randomReads w) by lia.
    reflexivity.
  - unfold bind at 1. rewrite drawChars_spec. unfold bind, get. cbn [urls set_randomReads].
    fold (candidate env (randomReads w)).
    assert (H0 := Hused 0 ltac:(lia)).
    replace (randomReads w + 6 * 0) with (randomReads w) in H0 by lia.
    rewrite H0.
    rewrite (IH fuel (set_randomReads (6 + randomReads w) w)); cbn [urls randomReads set_randomReads].
    + replace (6 + randomReads w + 6 * k) with (randomReads w + 6 * S k) by lia.
      replace (6 + randomReads w + 6 * (k + 1)) with (randomReads w + 6 * (S k + 1)) by lia.
      reflexivity.
    + lia.
    + replace (6 + randomReads w + 6 * k) with (randomReads w + 6 * S k) by lia.
      exact Hfree.
    + intros j Hj.
      replace (6 + randomReads w + 6 * j) with (randomReads w + 6 * S j) by lia.
      apply Hused. lia.
Qed.

(** While every candidate is a key, the loop goes on. *)
Lemma generateShortcode_all_used fuel : forall w,
  (forall j, Map_has (candidate env (randomReads w + 6 * j)) (urls w) = true) ->
  fst (urlService.generateShortcode env fuel w) = Diverge.
Proof.
  induction fuel as [| fuel IH]; intros w Hused; cbn [urlService.generateShortcode];
    [reflexivity |].
  unfold bind at 1. rewrite drawChars_spec. unfold bind, get. cbn [urls set_randomReads].
  fold (candidate env (randomReads w)).
  assert (H0 := Hused 0).
  replace (randomReads w + 6 * 0) with (randomReads w) in H0 by lia.
  rewrite H0. apply IH. cbn [urls randomReads set_randomReads]. intros j.
  replace (6 + randomReads w + 6 * j) with (randomReads w + 6 * S j) by lia.
  apply Hused.
Qed.

(** Whatever the loop returns is not a key, and only the random source
    has moved. *)
Lemma generateShortcode_result fuel : forall w code w',
  urlService.generateShortcode env fuel w = (Ok code, w') ->
  Map_has code (urls w) = false /\
  (exists k, k < fuel /\ code = candidate env (randomReads w + 6 * k)) /\
  w' = set_randomReads (randomReads w') w.
Proof.
  induction fuel as [| fuel IH]; intros w code w'; cbn [urlService.generateShortcode];
    [discriminate |].
  unfold bind at 1. rewrite drawChars_spec. unfold bind, get. cbn [urls set_randomReads].
  fold (candidate env (randomReads w)).
  destruct (Map_has (candidate env (randomReads w)) (urls w)) eqn:Hhas.
  - intros H. destruct (IH _ _ _ H) as (Hfree & (k & Hk & Hcode) & Hw).
    cbn [urls randomReads set_randomReads] in *. split; [exact Hfree |]. split.
    + exists (S k). split; [lia |]. rewrite Hcode.
      replace (6 + randomReads w + 6 * k) with (randomReads w + 6 * S k) by lia.
      reflexivity.
    + rewrite Hw at 1. destruct w; reflexivity.
  - unfold ret. intros [= <- <-]. split; [exact Hhas |]. split.
    + exists 0. split; [lia |].
      replace (randomReads w + 6 * 0) with (randomReads w) by lia. reflexivity.
    + destruct w; reflexivity.
Qed.

End RegistryFacts.

(** ** Strings spelled by the random source *)

Lemma length_append (a b : string) :
  String.length (a ++ b) = String.length a + String.length b.
Proof. induction a as [| c a IH]; simpl; [reflexivity | rewrite IH; reflexivity]. Qed.

Lemma list_ascii_append (a b : string) :
  list_ascii_of_string (a ++ b) = list_ascii_of_string a ++ list_ascii_of_string b.
Proof. induction a as [| c a IH]; simpl; [reflexivity | rewrite IH; reflexivity]. Qed.

Lemma get_In (s : string) : forall i c,
  String.get i s = Some c -> In c (list_ascii_of_string s).
Proof.
  induction s as [| c0 s IH]; intros i c; simpl; [discriminate |].
  destruct i as [| i].
  - intros [= ->]. left. reflexivity.
  - intros H. right. exact (IH i c H).
Qed.

Lemma get_Some (s : string) : forall i,
  i < String.length s -> exists c, String.get i s = Some c.
Proof.
  induction s as [| c0 s IH]; intros i; simpl; [lia |].
  destruct i as [| i]; [eauto |]. intros H. apply IH. lia.
Qed.

Lemma charAt_chars i :
  i < 62 ->
  exists c, charAt urlService.chars i = String c EmptyString /\
            In c (list_ascii_of_string urlService.chars).
Proof.
  intros Hi. destruct (get_Some urlService.chars i Hi) as (c & Hc).
  exists c. unfold charAt. rewrite Hc. split; [reflexivity |].
  exact (get_In _ _ _ Hc).
Qed.

Lemma spell_spec (env : Env) (Hr : randomInRange env) n : forall pos acc,
  String.length (spell env n pos acc) = String.length acc + n /\
  (overAlphabet acc -> overAlphabet (spell env n pos acc)).
Proof.
  induction n as [| n IH]; intros pos acc; simpl.
  - split; [lia | auto].
  - destruct (charAt_chars (random env pos) (Hr pos)) as (c & Hc & Hin).
    rewrite Hc.
    destruct (IH (S pos) (acc ++ String c EmptyString)%string) as [Hlen Halpha].
    rewrite Hlen, length_append. simpl. split; [lia |].
    intros Hacc. apply Halpha. unfold overAlphabet.
    rewrite list_ascii_append. apply Forall_app. split; [exact Hacc |].
    constructor; [exact Hin | constructor].
Qed.

Lemma candidate_shape (env : Env) pos :
  randomInRange env ->
  String.length (candidate env pos) = 6 /\ overAlphabet (candidate env pos).
Proof.
  intros Hr. destruct (spell_spec env Hr 6 pos EmptyString) as [Hlen Halpha].
  split; [exact Hlen | apply Halpha; constructor].
Qed.

(** Among the attempts up to [k], a first one that is not a key. *)
Lemma first_unused (used : nat -> bool) k :
  used k = false ->
  exists j, j <= k /\ used j = false /\ forall i, i < j -> used i = true.
Proof.
  induction k as [k IH] using lt_wf_ind. intros Hk.
  destruct (existsb (fun i => negb (used i)) (seq 0 k)) eqn:Hex.
  - apply existsb_exists in Hex. destruct Hex as (i & Hin & Hi).
    apply in_seq in Hin. apply negb_true_iff in Hi.
    destruct (IH i ltac:(lia) Hi) as (j & Hj & Hfree & Hbefore).
    exists j. split; [lia | auto].
  - exists k. split; [lia |]. split; [exact Hk |]. intros i Hi.
    destruct (used i) eqn:Hu; [reflexivity |]. exfalso.
    assert (Htrue : existsb (fun i => negb (used i)) (seq 0 k) = true).
    { apply existsb_exists. exists i. split; [apply in_seq; lia | rewrite Hu; reflexivity]. }
    congruence.
Qed.

(** ** generateShortcode *)

(** C8, as the code has it: when some attempt within the fuel spells a
    code that is not a key of the registry, [generateShortcode] returns:
    the code of the first such attempt, six characters of the 62-character
    alphabet, equal to no key and so to no stored record's [shortCode];
    only the random source has advanced. (Draws are indices below 62, as
    [Math.random() < 1] guarantees.) *)
Theorem generateShortcode_returns_first_unused
    (env : Env) (w : World) (k fuel : nat) :
  randomInRange env ->
  k < fuel ->
  Map_has (candidate env (randomReads w + 6 * k)) (urls w) = false ->
  exists code j,
    j <= k /\
    code = candidate env (randomReads w + 6 * j) /\
    urlService.generateShortcode env fuel w
      = (Ok code, set_randomReads (randomReads w + 6 * (j + 1)) w) /\
    String.length code = 6 /\
    overAlphabet code /\
    Map_has code (urls w) = false /\
    (forall kv, In kv (urls w) -> fst kv <> code) /\
    (keyedByShortCode w ->
     forall u, In u (Map_values (urls w)) -> ShortenedUrl.shortCode u <> code).
Proof.
  intros Hr Hfuel Hfree.
  destruct (first_unused
              (fun j => Map_has (candidate env (randomReads w + 6 * j)) (urls w)) k Hfree)
    as (j & Hj & Hfreej & Hbefore).
  destruct (candidate_shape env (randomReads w + 6 * j) Hr) as [Hlen Halpha].
  exists (candidate env (randomReads w + 6 * j)), j.
  split; [exact Hj |]. split; [reflexivity |].
  split; [apply generateShortcode_first_unused; [lia | exact Hfreej | exact Hbefore] |].
  split; [exact Hlen |]. split; [exact Halpha |]. split; [exact Hfreej |].
  split; [apply Map_has_In; exact Hfreej |].
  intros Hkeyed u Hin Heq.
  apply in_map_iff in Hin. destruct Hin as (kv & <- & Hin).
  unfold keyedByShortCode in Hkeyed. rewrite Forall_forall in Hkeyed.
  apply (Map_has_In _ _ Hfreej kv Hin). rewrite (Hkeyed kv Hin). exact Heq.
Qed.

Lemma stuckBrowser_inRange : randomInRange stuckBrowser.
Proof. intros i. simpl. lia. Qed.

Lemma generateShortcode_returns_first_unused_witness :
  exists code,
    urlService.generateShortcode stuckBrowser 1 emptyWorld
      = (Ok code, set_randomReads 6 emptyWorld) /\
    String.length code = 6.
Proof.
  destruct (generateShortcode_returns_first_unused stuckBrowser emptyWorld 0 1
              stuckBrowser_inRange ltac:(lia) eq_refl)
    as (code & j & Hj & _ & Hrun & Hlen & _).
  exists code. split; [| exact Hlen].
  assert (j = 0) as -> by lia. exact Hrun.
Defined.

(** C8 as stated fails: with a code still unused ("aaaaab") but a random
    source that keeps spelling the stored "aaaaaa", no amount of fuel
    makes [generateShortcode] return. *)
Lemma generateShortcode_may_run_forever :
  ~ (forall (env : Env) (w : World),
       randomInRange env ->
       (exists unused, String.length unused = 6 /\ overAlphabet unused /\
                       Map_has unused (urls w) = false) ->
       exists fuel code w', urlService.generateShortcode env fuel w = (Ok code, w')).
Proof.
  intros Hclaim.
  destruct (Hclaim stuckBrowser (worldWith [sampleUrl "aaaaaa" 0 60000 false])
              stuckBrowser_inRange) as (fuel & code & w' & Hrun).
  - exists "aaaaab"%string. split; [reflexivity |]. split; [| reflexivity].
    unfold overAlphabet. repeat constructor; simpl; tauto.
  - assert (Hdiv := generateShortcode_all_used stuckBrowser fuel
                      (worldWith [sampleUrl "aaaaaa" 0 60000 false])
                      (fun j => eq_refl)).
    rewrite Hrun in Hdiv. discriminate.
Qed.

(** ** create *)

Section CreateFacts.
Variable env : Env.

(** The tail of every mutating method: save, log, then go on. *)
Lemma save_log_then {A} (k : M A) stack level packageName message context w :
  exists w',
    (urlService.saveToStorage env ;;
     logger.Log env stack level packageName message context ;;
     k) w = k w' /\
    serviceFrame w w' /\
    (localStorage w' = localStorage w \/ localStorage w' = Some (Map_values (urls w))) /\
    (window env = true -> localQuota env (Map_values (urls w)) = true ->
     localStorage w' = Some (Map_values (urls w))) /\
    dateReads w < dateReads w' <= dateReads w + 2.
Proof.
  destruct (saveToStorage_spec env w) as (w1 & Hrun1 & Hf1 & Hcases & Hgood & _ & Hd1).
  destruct (Log_spec env stack level packageName message context w1)
    as (w2 & Hrun2 & Hf2 & _ & Hd2 & _).
  exists w2. split.
  - rewrite (bind_Ok _ _ _ _ _ Hrun1), (bind_Ok _ _ _ _ _ Hrun2). reflexivity.
  - split; [eapply serviceFrame_trans;
              [exact Hf1 | apply serviceFrame_of_logger; exact Hf2] |].
    destruct Hf2 as [_ Fl _ _]. rewrite Fl. split; [assumption |]. split; [assumption |].
    rewrite Hd2, Hd1. destruct (window env); lia.
Qed.

Lemma firstViolation_None w formData :
  firstViolation env w formData = None ->
  UrlValidationResult.isValid
    (urlService.validateUrl env (UrlFormData.originalUrl formData)) = true /\
  UrlValidationResult.isValid
    (urlService.validateShortcode w (orEmpty (UrlFormData.preferredShortcode formData)))
    = true /\
  UrlValidationResult.isValid
    (urlService.validateValidityMinutes (UrlFormData.validityMinutes formData)) = true.
Proof.
  unfold firstViolation.
  destruct (UrlValidationResult.isValid (urlService.validateUrl env _)); [| discriminate].
  destruct (UrlValidationResult.isValid (urlService.validateShortcode w _)); [| discriminate].
  destruct (UrlValidationResult.isValid (urlService.validateValidityMinutes _));
    [auto | discriminate].
Qed.

Lemma assignCode_result fuel formData w code wg :
  assignCode env fuel formData w = (Ok code, wg) ->
  wg = set_randomReads (randomReads wg) w /\
  (truthy (UrlFormData.preferredShortcode formData) = true ->
   code = orEmpty (UrlFormData.preferredShortcode formData) /\ wg = w) /\
  (truthy (UrlFormData.preferredShortcode formData) = false ->
   Map_has code (urls w) = false).
Proof.
  unfold assignCode. destruct (truthy (UrlFormData.preferredShortcode formData)).
  - unfold ret. intros [= <- <-]. split; [destruct w; reflexivity |].
    split; [auto | discriminate].
  - intros H. destruct (generateShortcode_result env fuel w code wg H) as (Hfree & _ & Hw).
    split; [exact Hw |]. split; [discriminate | auto].
Qed.

Lemma generateShortcode_no_throw fuel : forall w e w',
  urlService.generateShortcode env fuel w <> (Throw e, w').
Proof.
  induction fuel as [| fuel IH]; intros w e w'; cbn [urlService.generateShortcode];
    [discriminate |].
  unfold bind at 1. rewrite drawChars_spec. unfold bind, get.
  destruct (Map_has _ _); [apply IH | discriminate].
Qed.

Lemma assignCode_no_throw fuel formData w e w' :
  assignCode env fuel formData w <> (Throw e, w').
Proof.
  unfold assignCode. destruct (truthy _); [discriminate | apply generateShortcode_no_throw].
Qed.

(** [create] on inputs that pass the three validations. *)
Lemma shortenUrl_valid fuel formData w :
  firstViolation env w formData = None ->
  (forall code wg,
     assignCode env fuel formData w = (Ok code, wg) ->
     let r := ShortenedUrl.mk (randomUUID env (uuidReads w))
                (UrlFormData.originalUrl formData) code
                (clock env (dateReads w) + minutesToMs (UrlFormData.validityMinutes formData))
                (clock env (dateReads w)) [] false in
     exists w',
       urlService.shortenUrl env fuel formData w = (Ok r, w') /\
       urls w' = Map_set code r (urls w) /\
       (localStorage w' = localStorage w \/ localStorage w' = Some (Map_values (urls w'))) /\
       (window env = true -> localQuota env (Map_values (urls w')) = true ->
        localStorage w' = Some (Map_values (urls w')))) /\
  (forall wg,
     assignCode env fuel formData w = (Diverge, wg) ->
     urlService.shortenUrl env fuel formData w = (Diverge, wg)).
Proof.
  intros Hvalid. destruct (firstViolation_None w formData Hvalid) as (Hv1 & Hv2 & Hv3).
  assert (Hshape : urlService.shortenUrl env fuel formData w =
    (shortCode <- assignCode env fuel formData ;;
     now <- newDate env ;;
     id <- crypto_randomUUID env ;;
     modify (fun w0 => set_urls (Map_set shortCode
       (ShortenedUrl.mk id (UrlFormData.originalUrl formData) shortCode
          (now + minutesToMs (UrlFormData.validityMinutes formData)) now [] false)
       (urls w0)) w0) ;;
     urlService.saveToStorage env ;;
     logger.Log env "UrlService.shortenUrl" Info "frontend" "URL shortened successfully"
       (Some (JObj [("shortCode", JStr shortCode);
                    ("originalUrl", JStr (UrlFormData.originalUrl formData));
                    ("expiryDate",
                      JDate (now + minutesToMs (UrlFormData.validityMinutes formData)))]))%string ;;
     ret (ShortenedUrl.mk id (UrlFormData.originalUrl formData) shortCode
            (now + minutesToMs (UrlFormData.validityMinutes formData)) now [] false)) w).
  { unfold urlService.shortenUrl. rewrite Hv1. cbn [negb].
    unfold bind at 1, get. cbv zeta. rewrite Hv2, Hv3. cbn [negb]. reflexivity. }
  split.
  - intros code wg Hpick r.
    destruct (assignCode_result fuel formData w code wg Hpick) as (Hwg & _ & _).
    rewrite Hshape, (bind_Ok _ _ _ _ _ Hpick).
    unfold bind at 1, newDate. unfold bind at 1, crypto_randomUUID.
    unfold bind at 1, modify.
    rewrite Hwg. cbn [urls dateReads uuidReads set_randomReads set_dateReads set_uuidReads
                      set_urls].
    fold r.
    match goal with
    | |- exists w', bind (urlService.saveToStorage env)
                      (fun _ => bind (logger.Log env ?a ?b ?c ?d ?e) (fun _ => ?k)) ?w0
                    = _ /\ _ =>
        destruct (save_log_then k a b c d e w0) as (w' & Hrun & [Fu _ _] & Hcases & Hgood & _)
    end.
    exists w'. rewrite Hrun. cbn [urls] in *. rewrite Fu.
    split; [reflexivity |]. split; [reflexivity |]. split; assumption.
  - intros wg Hpick. rewrite Hshape. apply bind_Diverge. exact Hpick.
Qed.

End CreateFacts.

Section ResolveFacts.
Variable env : Env.

Lemma firstViolation_valid w formData :
  UrlValidationResult.isValid
    (urlService.validateUrl env (UrlFormData.originalUrl formData)) = true ->
  UrlValidationResult.isValid
    (urlService.validateShortcode w (orEmpty (UrlFormData.preferredShortcode formData)))
    = true ->
  UrlValidationResult.isValid
    (urlService.validateValidityMinutes (UrlFormData.validityMinutes formData)) = true ->
  firstViolation env w formData = None.
Proof. intros H1 H2 H3. unfold firstViolation. rewrite H1, H2, H3. reflexivity. Qed.

(** A failed validation throws its message and leaves the world alone. *)
Lemma shortenUrl_violation fuel formData w msg :
  firstViolation env w formData = Some msg ->
  urlService.shortenUrl env fuel formData w = (Throw (Error msg), w).
Proof.
  unfold firstViolation, urlService.shortenUrl.
  destruct (UrlValidationResult.isValid (urlService.validateUrl env _)); cbn [negb].
  2:{ intros [= <-]. reflexivity. }
  unfold bind at 1, get. cbv zeta.
  destruct (UrlValidationResult.isValid (urlService.validateShortcode w _)); cbn [negb].
  2:{ intros [= <-]. reflexivity. }
  destruct (UrlValidationResult.isValid (urlService.validateValidityMinutes _)); cbn [negb].
  2:{ intros [= <-]. reflexivity. }
  discriminate.
Qed.

Lemma wellFormed_nonempty c : wellFormedShortcode c = true -> c <> EmptyString.
Proof. intros H ->. discriminate. Qed.

(** The four outcomes of [validateShortcode]. *)
Lemma validateShortcode_cases w c :
  c <> EmptyString ->
  (wellFormedShortcode c = false ->
   urlService.validateShortcode w c
     = UrlValidationResult.mk false
         (Some "Shortcode must contain only alphanumeric characters"%string) \/
   urlService.validateShortcode w c
     = UrlValidationResult.mk false
         (Some "Shortcode must be between 3 and 20 characters"%string)) /\
  (wellFormedShortcode c = true -> Map_has c (urls w) = true ->
   urlService.validateShortcode w c
     = UrlValidationResult.mk false (Some "This shortcode is already taken"%string)) /\
  (wellFormedShortcode c = true -> Map_has c (urls w) = false ->
   urlService.validateShortcode w c = UrlValidationResult.mk true None).
Proof.
  intros Hne. unfold urlService.validateShortcode, wellFormedShortcode.
  destruct (String.eqb_spec c ""); [contradiction |].
  destruct (isAlphanumeric c); cbn [negb andb].
  2:{ split; [intros _; left; reflexivity | split; discriminate]. }
  destruct (Nat.ltb_spec (String.length c) 3) as [Hlt | Hge]; cbn [orb].
  { split; [intros _; right; reflexivity |].
    destruct (Nat.leb_spec 3 (String.length c)); [lia |]. split; discriminate. }
  destruct (Nat.leb_spec 3 (String.length c)); [| lia]. cbn [andb].
  destruct (Nat.ltb_spec 20 (String.length c)) as [Hlt | Hle].
  { split; [intros _; right; reflexivity |].
    destruct (Nat.leb_spec (String.length c) 20); [lia |]. split; discriminate. }
  destruct (Nat.leb_spec (String.length c) 20); [| lia].
  split; [discriminate |].
  split; intros _ ->; reflexivity.
Qed.

Lemma validateShortcode_valid w c :
  UrlValidationResult.isValid (urlService.validateShortcode w c) = true ->
  c <> EmptyString ->
  wellFormedShortcode c = true /\ Map_has c (urls w) = false.
Proof.
  intros Hv Hne. destruct (validateShortcode_cases w c Hne) as (Hbad & Htaken & _).
  destruct (wellFormedShortcode c) eqn:Hwf.
  - split; [reflexivity |]. destruct (Map_has c (urls w)) eqn:Hhas; [| reflexivity].
    rewrite (Htaken eq_refl eq_refl) in Hv. discriminate.
  - destruct (Hbad eq_refl) as [H | H]; rewrite H in Hv; discriminate.
Qed.

Lemma truthy_orEmpty p : truthy p = true -> p = Some (orEmpty p) /\ orEmpty p <> EmptyString.
Proof.
  destruct p as [[| c s] |]; simpl; try discriminate.
  intros _. split; [reflexivity | discriminate].
Qed.

(** [resolve] of a stored code that has not expired. *)
Lemma getUrlByShortcode_live code u w :
  Map_get code (urls w) = Some u ->
  (clock env (dateReads w) <= ShortenedUrl.expiryDate u)%Z ->
  urlService.getUrlByShortcode env code w
  = (Ok (Some u), set_dateReads (S (dateReads w)) w).
Proof.
  intros Hget Hlive. unfold urlService.getUrlByShortcode.
  unfold bind at 1, get. rewrite Hget. unfold bind at 1, newDate.
  destruct (Z.gtb_spec (clock env (dateReads w)) (ShortenedUrl.expiryDate u)); [lia |].
  reflexivity.
Qed.

(** [resolve] of a stored code past its expiry date. *)
Lemma getUrlByShortcode_expired code u w :
  Map_get code (urls w) = Some u ->
  (clock env (dateReads w) > ShortenedUrl.expiryDate u)%Z ->
  exists w',
    urlService.getUrlByShortcode env code w = (Ok None, w') /\
    urls w' = Map_set code (ShortenedUrl.set_isExpired true u) (urls w) /\
    uuidReads w' = uuidReads w /\
    (localStorage w' = localStorage w \/ localStorage w' = Some (Map_values (urls w'))) /\
    (window env = true -> localQuota env (Map_values (urls w')) = true ->
     localStorage w' = Some (Map_values (urls w'))).
Proof.
  intros Hget Hexp. unfold urlService.getUrlByShortcode.
  unfold bind at 1, get. rewrite Hget. unfold bind at 1, newDate.
  destruct (Z.gtb_spec (clock env (dateReads w)) (ShortenedUrl.expiryDate u)); [| lia].
  unfold bind at 1, modify. unfold logger.warn.
  match goal with
  | |- exists w', bind (urlService.saveToStorage env)
                    (fun _ => bind (logger.Log env ?a ?b ?c ?d ?e) (fun _ => ?k)) ?w0
                  = _ /\ _ =>
      destruct (save_log_then env k a b c d e w0) as (w' & Hrun & [Fu _ Fi] & Hcases & Hgood & _)
  end.
  exists w'. rewrite Hrun. cbn [urls uuidReads set_urls set_dateReads] in *. rewrite Fu.
  split; [reflexivity |]. split; [reflexivity |]. split; [exact Fi |]. split; assumption.
Qed.


Lemma getUrlByShortcode_absent code w :
  Map_get code (urls w) = None ->
  urlService.getUrlByShortcode env code w = (Ok None, w).
Proof.
  intros Hget. unfold urlService.getUrlByShortcode.
  unfold bind at 1, get. rewrite Hget. reflexivity.
Qed.

End ResolveFacts.

(** ** create: validation *)

(** C2: [shortenUrl] checks the URL first, the shortcode second and the
    validity third, and throws the message of the first check that
    fails; in each case the world it leaves is the world it found, so no
    record is added and nothing is written to the store. When all three
    checks pass, no exception reaches the caller. *)
Theorem create_fails_fast_without_state_change
    (env : Env) (fuel : nat) (formData : UrlFormData.t) (w : World) :
  let v1 := urlService.validateUrl env (UrlFormData.originalUrl formData) in
  let v2 := urlService.validateShortcode w
              (orEmpty (UrlFormData.preferredShortcode formData)) in
  let v3 := urlService.validateValidityMinutes (UrlFormData.validityMinutes formData) in
  (UrlValidationResult.isValid v1 = false ->
   urlService.shortenUrl env fuel formData w
   = (Throw (Error (orEmpty (UrlValidationResult.error v1))), w)) /\
  (UrlValidationResult.isValid v1 = true ->
   UrlValidationResult.isValid v2 = false ->
   urlService.shortenUrl env fuel formData w
   = (Throw (Error (orEmpty (UrlValidationResult.error v2))), w)) /\
  (UrlValidationResult.isValid v1 = true ->
   UrlValidationResult.isValid v2 = true ->
   UrlValidationResult.isValid v3 = false ->
   urlService.shortenUrl env fuel formData w
   = (Throw (Error (orEmpty (UrlValidationResult.error v3))), w)) /\
  (UrlValidationResult.isValid v1 = true ->
   UrlValidationResult.isValid v2 = true ->
   UrlValidationResult.isValid v3 = true ->
   forall e w', urlService.shortenUrl env fuel formData w <> (Throw e, w')).
Proof.
  intros v1 v2 v3. repeat split.
  - intros H1. apply shortenUrl_violation. unfold firstViolation.
    fold v1. rewrite H1. reflexivity.
  - intros H1 H2. apply shortenUrl_violation. unfold firstViolation.
    fold v1 v2. rewrite H1, H2. reflexivity.
  - intros H1 H2 H3. apply shortenUrl_violation. unfold firstViolation.
    fold v1 v2 v3. rewrite H1, H2, H3. reflexivity.
  - intros H1 H2 H3 e w' Hthrow.
    destruct (shortenUrl_valid env fuel formData w
                (firstViolation_valid env w formData H1 H2 H3)) as [Hok Hdiv].
    destruct (assignCode env fuel formData w) as [[code | e0 |] wg] eqn:Hpick.
    + destruct (Hok code wg eq_refl) as (w1 & Hrun & _). congruence.
    + exact (assignCode_no_throw env fuel formData w e0 wg Hpick).
    + rewrite (Hdiv wg eq_refl) in Hthrow. discriminate.
Qed.

Lemma create_fails_fast_without_state_change_witness :
  urlService.shortenUrl browser 3
    (UrlFormData.mk "https://example.com/a" (Integer 0) (Some "ab"%string)) emptyWorld
  = (Throw (Error "Shortcode must be between 3 and 20 characters"), emptyWorld).
Proof.
  exact (proj1 (proj2 (create_fails_fast_without_state_change browser 3
                         (UrlFormData.mk "https://example.com/a" (Integer 0)
                            (Some "ab"%string)) emptyWorld))
           eq_refl eq_refl).
Defined.

(** The rejections listed with the validations. *)
Example validation_rejections :
  UrlValidationResult.isValid (urlService.validateUrl browser "ftp://x.com") = false /\
  UrlValidationResult.isValid (urlService.validateShortcode emptyWorld "ab") = false /\
  UrlValidationResult.isValid (urlService.validateShortcode emptyWorld "has space") = false /\
  UrlValidationResult.isValid (urlService.validateValidityMinutes (Integer 0)) = false /\
  UrlValidationResult.isValid (urlService.validateValidityMinutes (Integer 525601)) = false /\
  UrlValidationResult.isValid (urlService.validateValidityMinutes (Integer 525600)) = true /\
  UrlValidationResult.isValid (urlService.validateValidityMinutes NonInteger) = false.
Proof. repeat split. Qed.

(** ** validateShortcode *)

(** C3: [validateShortcode] accepts the empty candidate. A non-empty
    candidate that is not 3 to 20 letters and digits is rejected for its
    format. A well-formed candidate is rejected as already taken exactly
    when it is a key of the registry, so in particular when it is the
    [shortCode] of a stored record, whatever that record's [isExpired]
    flag says, and accepted otherwise. Hence after a successful create
    with an explicit shortcode, a second create with the same shortcode
    fails and changes nothing, with the conflict message whenever its URL
    passes the first check. *)
Theorem validateShortcode_format_and_conflict (env : Env) (w : World) :
  urlService.validateShortcode w EmptyString = UrlValidationResult.mk true None /\
  (forall c, c <> EmptyString -> wellFormedShortcode c = false ->
     urlService.validateShortcode w c
       = UrlValidationResult.mk false
           (Some "Shortcode must contain only alphanumeric characters"%string) \/
     urlService.validateShortcode w c
       = UrlValidationResult.mk false
           (Some "Shortcode must be between 3 and 20 characters"%string)) /\
  (forall c, wellFormedShortcode c = true ->
     urlService.validateShortcode w c
     = if Map_has c (urls w)
       then UrlValidationResult.mk false (Some "This shortcode is already taken"%string)
       else UrlValidationResult.mk true None) /\
  (forall c u, keyedByShortCode w -> In u (Map_values (urls w)) ->
     ShortenedUrl.shortCode u = c -> c <> EmptyString ->
     UrlValidationResult.isValid (urlService.validateShortcode w c) = false /\
     (wellFormedShortcode c = true ->
      UrlValidationResult.error (urlService.validateShortcode w c)
      = Some "This shortcode is already taken"%string)) /\
  (forall fuel1 fuel2 first second r w1,
     truthy (UrlFormData.preferredShortcode first) = true ->
     urlService.shortenUrl env fuel1 first w = (Ok r, w1) ->
     UrlFormData.preferredShortcode second = UrlFormData.preferredShortcode first ->
     (exists msg, urlService.shortenUrl env fuel2 second w1 = (Throw (Error msg), w1)) /\
     (UrlValidationResult.isValid
        (urlService.validateUrl env (UrlFormData.originalUrl second)) = true ->
      urlService.shortenUrl env fuel2 second w1
      = (Throw (Error "This shortcode is already taken"), w1))).
Proof.
  split; [reflexivity |].
  split; [intros c Hne Hbad; exact (proj1 (validateShortcode_cases w c Hne) Hbad) |].
  split.
  { intros c Hwf.
    destruct (validateShortcode_cases w c (wellFormed_nonempty c Hwf)) as (_ & Ht & Hf).
    destruct (Map_has c (urls w)) eqn:Hhas; [apply Ht | apply Hf]; auto. }
  split.
  { intros c u Hkeyed Hin Hcode Hne.
    assert (Hhas : Map_has c (urls w) = true).
    { apply in_map_iff in Hin. destruct Hin as (kv & <- & Hin).
      unfold keyedByShortCode in Hkeyed. rewrite Forall_forall in Hkeyed.
      rewrite <- Hcode, <- (Hkeyed kv Hin). apply In_Map_has. exact Hin. }
    destruct (validateShortcode_cases w c Hne) as (Hbad & Ht & _).
    destruct (wellFormedShortcode c) eqn:Hwf.
    - rewrite (Ht eq_refl Hhas). split; [reflexivity | reflexivity].
    - split; [| discriminate]. destruct (Hbad eq_refl) as [-> | ->]; reflexivity. }
  intros fuel1 fuel2 first second r w1 Hpref Hrun Hsame.
  destruct (truthy_orEmpty _ Hpref) as [Hsome Hne].
  set (c := orEmpty (UrlFormData.preferredShortcode first)) in *.
  destruct (firstViolation env w first) as [msg |] eqn:Hviol.
  { rewrite (shortenUrl_violation env fuel1 first w msg Hviol) in Hrun. discriminate. }
  destruct (firstViolation_None env w first Hviol) as (_ & Hv2 & _).
  destruct (validateShortcode_valid w c Hv2 Hne) as [Hwf _].
  destruct (proj1 (shortenUrl_valid env fuel1 first w Hviol) c w) as (w1' & Hrun' & Hurls & _).
  { unfold assignCode. rewrite Hpref. reflexivity. }
  rewrite Hrun in Hrun'. injection Hrun' as Hr Hw1. subst w1'.
  assert (Hhas : Map_has c (urls w1) = true).
  { rewrite Hurls. unfold Map_has. rewrite Map_get_set_same. reflexivity. }
  assert (Hconflict : urlService.validateShortcode w1
                        (orEmpty (UrlFormData.preferredShortcode second))
                      = UrlValidationResult.mk false
                          (Some "This shortcode is already taken"%string)).
  { rewrite Hsame. fold c.
    exact (proj1 (proj2 (validateShortcode_cases w1 c Hne)) Hwf Hhas). }
  destruct (UrlValidationResult.isValid
              (urlService.validateUrl env (UrlFormData.originalUrl second))) eqn:Hv1.
  - assert (Hviol2 : firstViolation env w1 second = Some "This shortcode is already taken"%string).
    { unfold firstViolation. rewrite Hv1, Hconflict. reflexivity. }
    split; [eexists |]; intros; apply shortenUrl_violation; exact Hviol2.
  - split; [| discriminate]. eexists. apply shortenUrl_violation.
    unfold firstViolation. rewrite Hv1. reflexivity.
Qed.

Lemma validateShortcode_format_and_conflict_witness :
  urlService.shortenUrl browser 0
    (UrlFormData.mk "http://example.org/other" (Integer 5) (Some "promo2024"%string))
    (snd (urlService.shortenUrl browser 0
            (UrlFormData.mk "https://example.com/a" (Integer 30) (Some "promo2024"%string))
            emptyWorld))
  = (Throw (Error "This shortcode is already taken"),
     snd (urlService.shortenUrl browser 0
            (UrlFormData.mk "https://example.com/a" (Integer 30) (Some "promo2024"%string))
            emptyWorld)).
Proof.
  refine (proj2 (proj2 (proj2 (proj2 (proj2
            (validateShortcode_format_and_conflict browser emptyWorld))))
            0 0
            (UrlFormData.mk "https://example.com/a" (Integer 30) (Some "promo2024"%string))
            (UrlFormData.mk "http://example.org/other" (Integer 5) (Some "promo2024"%string))
            (ShortenedUrl.mk "uuid-0" "https://example.com/a" "promo2024"
               1700001800000 1700000000000 [] false)
            _ eq_refl _ eq_refl) eq_refl).
  vm_compute. reflexivity.
Defined.

(** An expired record still blocks its shortcode. *)
Example expired_code_is_not_recycled :
  urlService.validateShortcode (worldWith [sampleUrl "old123" 0 60000 true]) "old123"
  = UrlValidationResult.mk false (Some "This shortcode is already taken"%string).
Proof. reflexivity. Qed.

(** ** create, then resolve *)

(** C1: on a URL, a shortcode and a validity that pass their validations,
    [shortenUrl] returns a record (with an explicit shortcode always; with
    a generated one as soon as an attempt within the fuel spells an unused
    code) that carries the given URL, the assigned shortcode, the clock
    reading as [createdAt] and [createdAt] plus the validity in minutes as
    [expiryDate]; and [getUrlByShortcode] on the assigned code, at any
    clock reading not after that expiry date, so in particular within the
    first minute, returns that same record. *)
Theorem create_then_resolve
    (env : Env) (fuel : nat) (formData : UrlFormData.t) (w : World) :
  UrlValidationResult.isValid
    (urlService.validateUrl env (UrlFormData.originalUrl formData)) = true ->
  UrlValidationResult.isValid
    (urlService.validateShortcode w (orEmpty (UrlFormData.preferredShortcode formData)))
    = true ->
  UrlValidationResult.isValid
    (urlService.validateValidityMinutes (UrlFormData.validityMinutes formData)) = true ->
  (truthy (UrlFormData.preferredShortcode formData) = true \/
   exists k, k < fuel /\ Map_has (candidate env (randomReads w + 6 * k)) (urls w) = false) ->
  exists r w1 minutes,
    urlService.shortenUrl env fuel formData w = (Ok r, w1) /\
    UrlFormData.validityMinutes formData = Integer minutes /\
    (1 <= minutes <= 525600)%Z /\
    ShortenedUrl.originalUrl r = UrlFormData.originalUrl formData /\
    (truthy (UrlFormData.preferredShortcode formData) = true ->
     UrlFormData.preferredShortcode formData = Some (ShortenedUrl.shortCode r)) /\
    ShortenedUrl.createdAt r = clock env (dateReads w) /\
    ShortenedUrl.expiryDate r = (ShortenedUrl.createdAt r + minutes * 60 * 1000)%Z /\
    Map_get (ShortenedUrl.shortCode r) (urls w1) = Some r /\
    ((clock env (dateReads w1) <= ShortenedUrl.expiryDate r)%Z ->
     urlService.getUrlByShortcode env (ShortenedUrl.shortCode r) w1
     = (Ok (Some r), set_dateReads (S (dateReads w1)) w1)) /\
    ((clock env (dateReads w1) <= ShortenedUrl.createdAt r + 60000)%Z ->
     urlService.getUrlByShortcode env (ShortenedUrl.shortCode r) w1
     = (Ok (Some r), set_dateReads (S (dateReads w1)) w1)).
Proof.
  intros H1 H2 H3 Hcode.
  assert (Hvalid := firstViolation_valid env w formData H1 H2 H3).
  destruct (UrlFormData.validityMinutes formData) as [minutes |] eqn:Hmin;
    [| discriminate].
  assert (Hrange : (1 <= minutes <= 525600)%Z).
  { simpl in H3. destruct (Z.leb_spec minutes 0); [discriminate |].
    destruct (Z.ltb_spec 525600 minutes); [discriminate | lia]. }
  assert (Hpick : exists code wg, assignCode env fuel formData w = (Ok code, wg) /\
            (truthy (UrlFormData.preferredShortcode formData) = true ->
             UrlFormData.preferredShortcode formData = Some code)).
  { unfold assignCode.
    destruct (truthy (UrlFormData.preferredShortcode formData)) eqn:Hpref.
    - exists (orEmpty (UrlFormData.preferredShortcode formData)), w.
      split; [reflexivity |]. intros _. apply truthy_orEmpty. exact Hpref.
    - destruct Hcode as [Hc | (k & Hk & Hfree)]; [discriminate |].
      destruct (first_unused
                  (fun j => Map_has (candidate env (randomReads w + 6 * j)) (urls w)) k Hfree)
        as (j & Hj & Hfreej & Hbefore).
      eexists _, _. split; [| discriminate].
      apply (generateShortcode_first_unused env j); [lia | exact Hfreej | exact Hbefore]. }
  destruct Hpick as (code & wg & Hpick & Hexplicit).
  destruct (proj1 (shortenUrl_valid env fuel formData w Hvalid) code wg Hpick)
    as (w1 & Hrun & Hurls & _).
  rewrite Hmin in Hrun. cbn [minutesToMs] in Hrun.
  eexists _, w1, minutes. split; [exact Hrun |].
  cbn [ShortenedUrl.originalUrl ShortenedUrl.shortCode ShortenedUrl.createdAt
       ShortenedUrl.expiryDate].
  assert (Hget : Map_get code (urls w1)
                 = Some (ShortenedUrl.mk (randomUUID env (uuidReads w))
                           (UrlFormData.originalUrl formData) code
                           (clock env (dateReads w) + minutes * 60 * 1000)
                           (clock env (dateReads w)) [] false)).
  { rewrite Hurls, Hmin. cbn [minutesToMs]. apply Map_get_set_same. }
  repeat split; try assumption; try lia.
  - intros Hlive. apply getUrlByShortcode_live; [exact Hget | exact Hlive].
  - intros Hsoon. apply getUrlByShortcode_live; [exact Hget |].
    cbn [ShortenedUrl.expiryDate]. lia.
Qed.

Lemma create_then_resolve_witness :
  exists r w1,
    urlService.shortenUrl browser 1
      (UrlFormData.mk "https://example.com/a" (Integer 1) None) emptyWorld = (Ok r, w1) /\
    ShortenedUrl.shortCode r = "abcdef"%string /\
    ShortenedUrl.expiryDate r = (ShortenedUrl.createdAt r + 60000)%Z /\
    urlService.getUrlByShortcode browser (ShortenedUrl.shortCode r) w1
    = (Ok (Some r), set_dateReads (S (dateReads w1)) w1).
Proof.
  destruct (create_then_resolve browser 1
              (UrlFormData.mk "https://example.com/a" (Integer 1) None) emptyWorld
              eq_refl eq_refl eq_refl
              (or_intror (ex_intro _ 0 (conj (Nat.lt_0_succ 0) eq_refl))))
    as (r & w1 & minutes & Hrun & Hmin & _ & _ & _ & Hcreated & Hexpiry & _ & _ & Hsoon).
  assert (E := Hrun). vm_compute in E. injection E as Er Ew.
  exists r, w1. split; [exact Hrun |].
  injection Hmin as <-.
  split; [rewrite <- Er; reflexivity |].
  split; [rewrite Hexpiry; reflexivity |].
  apply Hsoon. rewrite Hcreated, <- Ew. vm_compute. discriminate.
Defined.

(** C1 as stated fails: a URL, a shortcode (none preferred) and a validity
    that pass their validations do not make [shortenUrl] return. With
    "aaaaaa" stored and a random source that keeps spelling "aaaaaa", the
    three validations pass and no amount of fuel yields a record, so
    there is nothing to resolve. *)
Lemma create_may_not_return :
  ~ (forall (env : Env) (w : World) (formData : UrlFormData.t),
       UrlValidationResult.isValid
         (urlService.validateUrl env (UrlFormData.originalUrl formData)) = true ->
       UrlValidationResult.isValid
         (urlService.validateShortcode w (orEmpty (UrlFormData.preferredShortcode formData)))
         = true ->
       UrlValidationResult.isValid
         (urlService.validateValidityMinutes (UrlFormData.validityMinutes formData)) = true ->
       exists fuel r w1 w2,
         urlService.shortenUrl env fuel formData w = (Ok r, w1) /\
         urlService.getUrlByShortcode env (ShortenedUrl.shortCode r) w1 = (Ok (Some r), w2)).
Proof.
  intros Hclaim.
  set (w := worldWith [sampleUrl "aaaaaa" 0 60000 false]).
  set (formData := UrlFormData.mk "https://example.com/a" (Integer 30) None).
  destruct (Hclaim stuckBrowser w formData eq_refl eq_refl eq_refl)
    as (fuel & r & w1 & w2 & Hrun & _).
  assert (Hvalid : firstViolation stuckBrowser w formData = None) by reflexivity.
  assert (Hdiv := generateShortcode_all_used stuckBrowser fuel w (fun j => eq_refl)).
  destruct (assignCode stuckBrowser fuel formData w) as [res wg] eqn:Hcode.
  change (assignCode stuckBrowser fuel formData w)
    with (urlService.generateShortcode stuckBrowser fuel w) in Hcode.
  rewrite Hcode in Hdiv. simpl in Hdiv. subst res.
  rewrite (proj2 (shortenUrl_valid stuckBrowser fuel formData w Hvalid) wg Hcode) in Hrun.
  discriminate.
Qed.

(** ** Sorting *)

Section SortFacts.
Context {A : Type}.
Variable compare : A -> A -> Z.

Lemma sortInsert_perm x l : Permutation (sortInsert compare x l) (x :: l).
Proof.
  induction l as [| y rest IH]; simpl; [apply Permutation_refl |].
  destruct (compare x y <=? 0)%Z; [apply Permutation_refl |].
  eapply Permutation_trans; [apply perm_skip; exact IH | apply perm_swap].
Qed.

Lemma Array_sort_perm l : Permutation (Array_sort compare l) l.
Proof.
  induction l as [| x rest IH]; simpl; [apply Permutation_refl |].
  eapply Permutation_trans; [apply sortInsert_perm | apply perm_skip; exact IH].
Qed.

Lemma Array_sort_map {B} (compareB : B -> B -> Z) (f : A -> B) l :
  (forall a b, compareB (f a) (f b) = compare a b) ->
  Array_sort compareB (map f l) = map f (Array_sort compare l).
Proof.
  intros Hcmp. induction l as [| x rest IH]; simpl; [reflexivity |].
  rewrite IH. generalize (Array_sort compare rest) as sorted.
  induction sorted as [| y ys IHs]; simpl; [reflexivity |].
  rewrite Hcmp. destruct (compare x y <=? 0)%Z; simpl; [reflexivity |].
  rewrite IHs. reflexivity.
Qed.

End SortFacts.

Lemma sortInsert_newest_first x l :
  StronglySorted newerOrSame l ->
  StronglySorted newerOrSame (sortInsert newestFirst x l).
Proof.
  induction 1 as [| y rest Hsorted IH Hall]; simpl.
  - constructor; constructor.
  - unfold newestFirst at 1.
    destruct (Z.leb_spec (ShortenedUrl.createdAt y - ShortenedUrl.createdAt x) 0) as [Hle | Hgt].
    + constructor; [constructor; assumption |].
      constructor; [unfold newerOrSame; lia |].
      eapply Forall_impl; [| exact Hall]. unfold newerOrSame. intros z Hz. lia.
    + constructor; [exact IH |].
      eapply Permutation_Forall; [apply Permutation_sym, sortInsert_perm |].
      constructor; [unfold newerOrSame; lia | exact Hall].
Qed.

Lemma Array_sort_newest_first l :
  StronglySorted newerOrSame (Array_sort newestFirst l).
Proof.
  induction l as [| x rest IH]; simpl; [constructor |].
  apply sortInsert_newest_first. exact IH.
Qed.

(** ** list *)

Section ListFacts.
Variable env : Env.

Lemma forEachUrl_refresh now entries : forall w,
  exists w',
    urlService.forEachUrl (urlService.refreshExpired env now) entries w
    = (Ok (map (refreshEntry now) entries), w') /\
    loggerFrame w w' /\
    dateReads w <= dateReads w'.
Proof.
  induction entries as [| [k u] rest IH]; intros w; simpl.
  - exists w. split; [reflexivity |]. split; [apply loggerFrame_refl | lia].
  - assert (Hcb : exists w1,
              urlService.refreshExpired env now u w = (Ok (refreshFlag now u), w1) /\
              loggerFrame w w1 /\ dateReads w <= dateReads w1).
    { unfold urlService.refreshExpired. cbv zeta.
      destruct (negb (ShortenedUrl.isExpired u) && _).
      - unfold logger.info.
        match goal with |- context [logger.Log env ?a ?b ?c ?d ?e] =>
          destruct (Log_spec env a b c d e w) as (w1 & Hrun & Hf & _ & Hd & _)
        end.
        exists w1. rewrite (bind_Ok _ _ _ _ _ Hrun).
        split; [reflexivity |]. split; [exact Hf | lia].
      - exists w. split; [reflexivity |]. split; [apply loggerFrame_refl | lia]. }
    destruct Hcb as (w1 & Hrun1 & Hf1 & Hd1).
    destruct (IH w1) as (w2 & Hrun2 & Hf2 & Hd2).
    exists w2. rewrite (bind_Ok _ _ _ _ _ Hrun1), (bind_Ok _ _ _ _ _ Hrun2).
    split; [reflexivity |]. split; [eapply loggerFrame_trans; eassumption | lia].
Qed.

Lemma Map_values_refresh now (m : list (string * ShortenedUrl.t)) :
  Map_values (map (refreshEntry now) m) = map (refreshFlag now) (Map_values m).
Proof. unfold Map_values. rewrite !map_map. reflexivity. Qed.

Lemma Map_keys_refresh now (m : list (string * ShortenedUrl.t)) :
  Map_keys (map (refreshEntry now) m) = Map_keys m.
Proof. unfold Map_keys. rewrite map_map. reflexivity. Qed.

(** [list]: the flags are recomputed at the clock reading, the set is
    saved, and the values come back sorted. *)
Lemma getAllUrls_spec w :
  exists w',
    urlService.getAllUrls env w
    = (Ok (Array_sort newestFirst
             (map (refreshFlag (clock env (dateReads w))) (Map_values (urls w)))), w') /\
    urls w' = map (refreshEntry (clock env (dateReads w))) (urls w) /\
    (window env = true -> localQuota env (Map_values (urls w')) = true ->
     localStorage w' = Some (Map_values (urls w'))).
Proof.
  unfold urlService.getAllUrls. unfold bind at 1, newDate. unfold bind at 1, get.
  cbn [urls set_dateReads].
  destruct (forEachUrl_refresh (clock env (dateReads w)) (urls w)
              (set_dateReads (S (dateReads w)) w)) as (w1 & Hrun1 & [Fu _ _ _] & Hd1).
  rewrite (bind_Ok _ _ _ _ _ Hrun1). unfold bind at 1, modify.
  destruct (saveToStorage_spec env
              (set_urls (map (refreshEntry (clock env (dateReads w))) (urls w)) w1))
    as (w2 & Hrun2 & [Fu2 _ _] & _ & Hgood & Hd2).
  rewrite (bind_Ok _ _ _ _ _ Hrun2). unfold bind, get, ret.
  exists w2. cbn [urls set_urls] in *. rewrite Fu2, Map_values_refresh.
  split; [reflexivity |]. split; [reflexivity |].
  rewrite <- Map_values_refresh. exact Hgood.
Qed.

End ListFacts.

Lemma refreshFlag_set_isExpired now b u :
  refreshFlag now (ShortenedUrl.set_isExpired b u) = refreshFlag now u.
Proof. destruct u; reflexivity. Qed.

Lemma refreshFlag_fixed now u :
  (now >? ShortenedUrl.expiryDate u)%Z = ShortenedUrl.isExpired u -> refreshFlag now u = u.
Proof. destruct u; unfold refreshFlag; simpl. intros ->. reflexivity. Qed.

(** C6: [getAllUrls] returns every stored record, each with its flag
    recomputed at the clock reading, newest [createdAt] first. A second
    call right after it returns the same records in the same order: the
    second list is the first one with the flags recomputed at the second
    clock reading, so it has the same shortcodes in the same positions,
    and it is equal to the first list when no flag changes in between. *)
Theorem list_newest_first_and_repeatable (env : Env) (w : World) :
  exists l1 w1 l2 w2,
    urlService.getAllUrls env w = (Ok l1, w1) /\
    Permutation l1 (map (refreshFlag (clock env (dateReads w))) (Map_values (urls w))) /\
    Permutation l1 (Map_values (urls w1)) /\
    Map_keys (urls w1) = Map_keys (urls w) /\
    StronglySorted newerOrSame l1 /\
    urlService.getAllUrls env w1 = (Ok l2, w2) /\
    l2 = map (refreshFlag (clock env (dateReads w1))) l1 /\
    map ShortenedUrl.shortCode l2 = map ShortenedUrl.shortCode l1 /\
    map ShortenedUrl.createdAt l2 = map ShortenedUrl.createdAt l1 /\
    ((forall u, In u l1 ->
        (clock env (dateReads w1) >? ShortenedUrl.expiryDate u)%Z
        = (clock env (dateReads w) >? ShortenedUrl.expiryDate u)%Z) ->
     l2 = l1).
Proof.
  destruct (getAllUrls_spec env w) as (w1 & Hrun1 & Hurls1 & _).
  destruct (getAllUrls_spec env w1) as (w2 & Hrun2 & _ & _).
  set (t1 := clock env (dateReads w)) in *.
  set (t2 := clock env (dateReads w1)) in *.
  set (l1 := Array_sort newestFirst (map (refreshFlag t1) (Map_values (urls w)))) in *.
  assert (Hl2 : Array_sort newestFirst (map (refreshFlag t2) (Map_values (urls w1)))
                = map (refreshFlag t2) l1).
  { rewrite Hurls1, Map_values_refresh.
    apply (Array_sort_map newestFirst newestFirst (refreshFlag t2)).
    intros a b. destruct a, b. reflexivity. }
  exists l1, w1, (map (refreshFlag t2) l1), w2.
  split; [exact Hrun1 |].
  split; [apply Array_sort_perm |].
  split; [rewrite Hurls1, Map_values_refresh; apply Array_sort_perm |].
  split; [rewrite Hurls1; apply Map_keys_refresh |].
  split; [apply Array_sort_newest_first |].
  split; [rewrite <- Hl2; exact Hrun2 |].
  split; [reflexivity |].
  split; [rewrite map_map; apply map_ext; intros u; destruct u; reflexivity |].
  split; [rewrite map_map; apply map_ext; intros u; destruct u; reflexivity |].
  intros Hsame. rewrite <- (map_id l1) at 2. apply map_ext_in. intros u Hin.
  apply refreshFlag_fixed. subst t2. rewrite (Hsame u Hin).
  apply (Permutation_in _ (Array_sort_perm newestFirst _)) in Hin.
  apply in_map_iff in Hin. destruct Hin as (u0 & <- & _).
  destruct u0; reflexivity.
Qed.

Lemma list_newest_first_and_repeatable_witness :
  let w := worldWith [sampleUrl "first1" 1000 1700000000500 false;
                      sampleUrl "second" 3000 90000 false;
                      sampleUrl "third3" 2000 1700000000500 false] in
  exists l1 w1 l2 w2,
    urlService.getAllUrls browser w = (Ok l1, w1) /\
    urlService.getAllUrls browser w1 = (Ok l2, w2) /\
    map ShortenedUrl.shortCode l1 = ["second"; "third3"; "first1"]%string /\
    map ShortenedUrl.shortCode l2 = map ShortenedUrl.shortCode l1 /\
    l2 = l1.
Proof.
  intros w.
  destruct (list_newest_first_and_repeatable browser w)
    as (l1 & w1 & l2 & w2 & Hrun1 & _ & _ & _ & _ & Hrun2 & _ & Hcodes & _ & Hsame).
  exists l1, w1, l2, w2. split; [exact Hrun1 |]. split; [exact Hrun2 |].
  assert (Hl1 : l1 = [sampleUrl "second" 3000 90000 true;
                      sampleUrl "third3" 2000 1700000000500 false;
                      sampleUrl "first1" 1000 1700000000500 false]).
  { assert (H : Ok l1 = fst (urlService.getAllUrls browser w)) by (rewrite Hrun1; reflexivity).
    vm_compute in H. injection H as ->. reflexivity. }
  assert (Hw1 : dateReads w1 = 3).
  { assert (H : w1 = snd (urlService.getAllUrls browser w)) by (rewrite Hrun1; reflexivity).
    rewrite H. vm_compute. reflexivity. }
  split; [rewrite Hl1; reflexivity |]. split; [exact Hcodes |].
  apply Hsame. rewrite Hl1, Hw1. intros u [<- | [<- | [<- | []]]]; vm_compute; reflexivity.
Defined.

(** ** resolve *)

(** C4: for a stored shortcode, [getUrlByShortcode] returns the record
    when the clock reading is not after its [expiryDate]. When the
    reading is after it, the result is [null]; the record stored under
    the key afterwards has [isExpired = true] and every other field as
    before, and the keys of the registry are as they were; in a browser
    whose store accepts the write the saved array is the updated record
    set, so it holds that flagged record; and [getAllUrls] still returns
    a record with these fields, flagged expired at any reading that is
    not earlier. *)
Theorem resolve_hides_expired_but_keeps_record
    (env : Env) (shortCode : string) (u : ShortenedUrl.t) (w : World) :
  Map_get shortCode (urls w) = Some u ->
  ((clock env (dateReads w) <= ShortenedUrl.expiryDate u)%Z ->
   urlService.getUrlByShortcode env shortCode w
   = (Ok (Some u), set_dateReads (S (dateReads w)) w)) /\
  ((clock env (dateReads w) > ShortenedUrl.expiryDate u)%Z ->
   exists w' u',
     urlService.getUrlByShortcode env shortCode w = (Ok None, w') /\
     ShortenedUrl.isExpired u' = true /\
     ShortenedUrl.id u' = ShortenedUrl.id u /\
     ShortenedUrl.originalUrl u' = ShortenedUrl.originalUrl u /\
     ShortenedUrl.shortCode u' = ShortenedUrl.shortCode u /\
     ShortenedUrl.expiryDate u' = ShortenedUrl.expiryDate u /\
     ShortenedUrl.createdAt u' = ShortenedUrl.createdAt u /\
     ShortenedUrl.clicks u' = ShortenedUrl.clicks u /\
     u' = ShortenedUrl.set_isExpired true u /\
     urls w' = Map_set shortCode u' (urls w) /\
     Map_get shortCode (urls w') = Some u' /\
     Map_keys (urls w') = Map_keys (urls w) /\
     (window env = true -> localQuota env (Map_values (urls w')) = true ->
      localStorage w' = Some (Map_values (urls w')) /\
      In u' (Map_values (urls w'))) /\
     exists l w'',
       urlService.getAllUrls env w' = (Ok l, w'') /\
       In (refreshFlag (clock env (dateReads w')) u) l /\
       ((clock env (dateReads w) <= clock env (dateReads w'))%Z ->
        In u' l)).
Proof.
  intros Hget. split.
  - intros Hlive. apply getUrlByShortcode_live; assumption.
  - intros Hexp.
    destruct (getUrlByShortcode_expired env shortCode u w Hget Hexp)
      as (w' & Hrun & Hurls & _ & _ & Hgood).
    assert (Hget' : Map_get shortCode (urls w') = Some (ShortenedUrl.set_isExpired true u))
      by (rewrite Hurls; apply Map_get_set_same).
    assert (Hin : In (ShortenedUrl.set_isExpired true u) (Map_values (urls w'))).
    { apply in_map_iff. exists (shortCode, ShortenedUrl.set_isExpired true u).
      split; [reflexivity | apply Map_get_In; exact Hget']. }
    exists w', (ShortenedUrl.set_isExpired true u). split; [exact Hrun |].
    split; [destruct u; reflexivity |]. split; [destruct u; reflexivity |].
    split; [destruct u; reflexivity |]. split; [destruct u; reflexivity |].
    split; [destruct u; reflexivity |]. split; [destruct u; reflexivity |].
    split; [destruct u; reflexivity |]. split; [reflexivity |].
    split; [exact Hurls |]. split; [exact Hget' |].
    split; [rewrite Hurls; apply Map_set_keys; unfold Map_has; rewrite Hget; reflexivity |].
    split; [intros Hw Hq; split; [apply Hgood; assumption | exact Hin] |].
    destruct (getAllUrls_spec env w') as (w'' & Hlist & _).
    eexists _, w''. split; [exact Hlist |].
    assert (Hlisted : In (refreshFlag (clock env (dateReads w')) u)
                         (Array_sort newestFirst
                            (map (refreshFlag (clock env (dateReads w')))
                               (Map_values (urls w'))))).
    { apply (Permutation_in _ (Permutation_sym (Array_sort_perm newestFirst _))).
      rewrite <- (refreshFlag_set_isExpired _ true u). apply in_map. exact Hin. }
    split; [exact Hlisted |].
    intros Hmono. unfold refreshFlag in Hlisted at 1.
    destruct (Z.gtb_spec (clock env (dateReads w')) (ShortenedUrl.expiryDate u)); [| lia].
    exact Hlisted.
Qed.

Lemma resolve_hides_expired_but_keeps_record_witness :
  let u := sampleUrl "abc123" 1699999940000 1700000000000 false in
  urlService.getUrlByShortcode browser "abc123" (worldWith [u])
  = (Ok (Some u), set_dateReads 1 (worldWith [u])) /\
  exists w' u',
    urlService.getUrlByShortcode browser "abc123" (set_dateReads 1 (worldWith [u]))
    = (Ok None, w') /\
    Map_get "abc123" (urls w') = Some u' /\
    ShortenedUrl.isExpired u = false /\
    ShortenedUrl.isExpired u' = true /\
    localStorage w' = Some [u'].
Proof.
  intros u. split.
  - apply (proj1 (resolve_hides_expired_but_keeps_record browser "abc123" u
                    (worldWith [u]) eq_refl)).
    vm_compute. discriminate.
  - destruct (proj2 (resolve_hides_expired_but_keeps_record browser "abc123" u
                       (set_dateReads 1 (worldWith [u])) eq_refl))
      as (w' & u' & Hrun & Hflag & _ & _ & _ & _ & _ & _ & _ & Hurls & Hget & _ & Hsaved & _).
    + vm_compute. reflexivity.
    + exists w', u'. split; [exact Hrun |]. split; [exact Hget |].
      split; [reflexivity |]. split; [exact Hflag |].
      destruct (Hsaved eq_refl eq_refl) as [-> _]. rewrite Hurls. reflexivity.
Defined.

(** One minute of validity: found after 59 s, gone after 61 s and
    flagged in the listing. *)
Example expiry_boundary :
  let env := mkEnv true (fun n => nth n [1000; 1003; 1004; 60000] 62000)%Z
                   (fun n => n mod 62) (fun _ => "uuid"%string) sampleProtocol
                   (fun _ => true) (fun _ => true) "en-US" "UTC" None in
  let created := urlService.shortenUrl env 1
                   (UrlFormData.mk "https://example.com/a" (Integer 1) (Some "abc"%string))
                   emptyWorld in
  let at59 := urlService.getUrlByShortcode env "abc" (snd created) in
  let at61 := urlService.getUrlByShortcode env "abc" (snd at59) in
  let listed := urlService.getAllUrls env (snd at61) in
  option_map ShortenedUrl.expiryDate
    (match fst at59 with Ok found => found | _ => None end) = Some 61000%Z /\
  fst at61 = Ok None /\
  match fst listed with
  | Ok l => map (fun u => (ShortenedUrl.shortCode u, ShortenedUrl.isExpired u)) l
  | _ => []
  end = [("abc"%string, true)].
Proof. vm_compute. repeat split. Qed.

(** ** recordClick *)

Section ClickFacts.
Variable env : Env.

Lemma recordClick_live shortCode source u w :
  Map_get shortCode (urls w) = Some u ->
  (clock env (dateReads w) <= ShortenedUrl.expiryDate u)%Z ->
  exists w',
    urlService.recordClick env shortCode source w = (Ok true, w') /\
    urls w' = Map_set shortCode
                (ShortenedUrl.set_clicks
                   (ShortenedUrl.clicks u ++
                    [ClickRecord.mk (randomUUID env (uuidReads w))
                       (clock env (S (dateReads w))) source
                       (urlService.getUserLocation env)]) u)
                (urls w) /\
    (window env = true -> localQuota env (Map_values (urls w')) = true ->
     localStorage w' = Some (Map_values (urls w'))) /\
    dateReads w < dateReads w' <= dateReads w + 4.
Proof.
  intros Hget Hlive. unfold urlService.recordClick.
  rewrite (bind_Ok _ _ _ _ _ (getUrlByShortcode_live env shortCode u w Hget Hlive)).
  unfold bind at 1, crypto_randomUUID. unfold bind at 1, newDate.
  unfold bind at 1, modify. unfold logger.info.
  match goal with
  | |- exists w', bind (urlService.saveToStorage env)
                    (fun _ => bind (logger.Log env ?a ?b ?c ?d ?e) (fun _ => ?k)) ?w0
                  = _ /\ _ =>
      destruct (save_log_then env k a b c d e w0) as (w' & Hrun & [Fu _ _] & _ & Hgood & Hd)
  end.
  exists w'. rewrite Hrun.
  cbn [urls uuidReads dateReads set_urls set_dateReads set_uuidReads] in *. rewrite Fu.
  split; [reflexivity |]. split; [reflexivity |]. split; [exact Hgood | lia].
Qed.




End ClickFacts.




(** ** delete *)

(** C10: [deleteUrl] on a shortcode that is not a key returns [false]
    and leaves the whole world, so the record set and the saved array,
    as it was. On a key it returns [true], the record is gone from the
    registry, and in a browser whose store accepts the write the saved
    array is the new record set. Whenever the saved array differs after
    the call, a record was removed. *)
Theorem delete_writes_only_when_removed (env : Env) (shortCode : string) (w : World) :
  (Map_has shortCode (urls w) = false ->
   urlService.deleteUrl env shortCode w = (Ok false, w)) /\
  (Map_has shortCode (urls w) = true ->
   exists w',
     urlService.deleteUrl env shortCode w = (Ok true, w') /\
     urls w' = Map_delete shortCode (urls w) /\
     (window env = true -> localQuota env (Map_values (urls w')) = true ->
      localStorage w' = Some (Map_values (urls w')))) /\
  (forall b w',
     urlService.deleteUrl env shortCode w = (Ok b, w') ->
     localStorage w' <> localStorage w ->
     b = true /\ Map_has shortCode (urls w) = true).
Proof.
  assert (Habsent : Map_has shortCode (urls w) = false ->
                    urlService.deleteUrl env shortCode w = (Ok false, w)).
  { intros Hhas. unfold urlService.deleteUrl. unfold bind at 1, get.
    unfold bind at 1, modify. rewrite Hhas, (Map_delete_absent _ _ Hhas), set_urls_same.
    reflexivity. }
  assert (Hpresent : Map_has shortCode (urls w) = true ->
            exists w',
              urlService.deleteUrl env shortCode w = (Ok true, w') /\
              urls w' = Map_delete shortCode (urls w) /\
              (window env = true -> localQuota env (Map_values (urls w')) = true ->
               localStorage w' = Some (Map_values (urls w')))).
  { intros Hhas. unfold urlService.deleteUrl. unfold bind at 1, get.
    unfold bind at 1, modify. rewrite Hhas. unfold logger.info.
    match goal with
    | |- exists w', bind (urlService.saveToStorage env)
                      (fun _ => bind (logger.Log env ?a ?b ?c ?d ?e) (fun _ => ?k)) ?w0
                    = _ /\ _ =>
        destruct (save_log_then env k a b c d e w0) as (w' & Hrun & [Fu _ _] & _ & Hgood & _)
    end.
    exists w'. rewrite Hrun. cbn [urls set_urls] in *. rewrite Fu.
    split; [reflexivity |]. split; [reflexivity | exact Hgood]. }
  split; [exact Habsent |]. split; [exact Hpresent |].
  intros b w' Hrun Hchanged.
  destruct (Map_has shortCode (urls w)) eqn:Hhas.
  - destruct (Hpresent eq_refl) as (w1 & Hrun1 & _). split; [congruence | reflexivity].
  - rewrite (Habsent eq_refl) in Hrun. injection Hrun as _ <-. contradiction.
Qed.

Lemma delete_writes_only_when_removed_witness :
  let w := worldWith [sampleUrl "abc123" 0 60000 false] in
  urlService.deleteUrl browser "zzz999" w = (Ok false, w) /\
  exists w',
    urlService.deleteUrl browser "abc123" w = (Ok true, w') /\
    urls w' = [] /\ localStorage w' = Some [].
Proof.
  intros w. split.
  - exact (proj1 (delete_writes_only_when_removed browser "zzz999" w) eq_refl).
  - destruct (proj1 (proj2 (delete_writes_only_when_removed browser "abc123" w)) eq_refl)
      as (w' & Hrun & Hurls & Hsaved).
    exists w'. split; [exact Hrun |]. split; [exact Hurls |].
    rewrite (Hsaved eq_refl eq_refl), Hurls. reflexivity.
Defined.

(** ** The registry stays a map *)

Section MapInvariants.
Context {V : Type}.
Implicit Types (m : list (string * V)) (k : string) (v : V).

Lemma Map_set_keys_incl k v m x :
  In x (Map_keys (Map_set k v m)) -> x = k \/ In x (Map_keys m).
Proof.
  induction m as [| [k' v'] rest IH]; simpl.
  - intros [<- | []]. left. reflexivity.
  - destruct (String.eqb_spec k k') as [-> | Hne]; simpl.
    + intros H. right. exact H.
    + intros [<- | H]; [right; left; reflexivity |].
      destruct (IH H) as [-> | Hin]; [left; reflexivity | right; right; exact Hin].
Qed.

Lemma Map_set_NoDup k v m : NoDup (Map_keys m) -> NoDup (Map_keys (Map_set k v m)).
Proof.
  induction m as [| [k' v'] rest IH]; simpl; intros Hnd.
  - constructor; [intros [] | constructor].
  - inversion Hnd as [| ? ? Hnotin Hrest]; subst.
    destruct (String.eqb_spec k k') as [-> | Hne]; simpl.
    + constructor; assumption.
    + constructor; [| apply IH; exact Hrest].
      intros Hin. destruct (Map_set_keys_incl k v rest k' Hin) as [-> | Hin'];
        [apply Hne; reflexivity | apply Hnotin; exact Hin'].
Qed.

Lemma Map_delete_incl k m kv : In kv (Map_delete k m) -> In kv m.
Proof.
  induction m as [| [k' v'] rest IH]; simpl; [intros [] |].
  destruct (String.eqb_spec k k') as [-> | Hne]; simpl.
  - intros H. right. exact H.
  - intros [<- | H]; [left; reflexivity | right; apply IH; exact H].
Qed.

Lemma Map_delete_NoDup k m : NoDup (Map_keys m) -> NoDup (Map_keys (Map_delete k m)).
Proof.
  induction m as [| [k' v'] rest IH]; simpl; intros Hnd; [constructor |].
  inversion Hnd as [| ? ? Hnotin Hrest]; subst.
  destruct (String.eqb_spec k k') as [-> | Hne]; simpl; [exact Hrest |].
  constructor; [| apply IH; exact Hrest].
  intros Hin. apply Hnotin. apply in_map_iff in Hin. destruct Hin as (kv & Hk & Hin).
  apply in_map_iff. exists kv. split; [exact Hk | eapply Map_delete_incl; exact Hin].
Qed.

Lemma Map_set_Forall (P : string * V -> Prop) k v m :
  P (k, v) -> (forall k' v', String.eqb k k' = true -> P (k, v) -> P (k', v)) ->
  Forall P m -> Forall P (Map_set k v m).
Proof.
  intros Hkv Heq. induction 1 as [| [k' v'] rest Hhead Hrest IH]; simpl.
  - constructor; [exact Hkv | constructor].
  - destruct (String.eqb k k') eqn:E.
    + constructor; [exact (Heq k' v' E Hkv) | exact Hrest].
    + constructor; [exact Hhead | exact IH].
Qed.

Lemma Map_delete_Forall (P : string * V -> Prop) k m :
  Forall P m -> Forall P (Map_delete k m).
Proof.
  intros H. rewrite Forall_forall in *. intros kv Hin.
  apply H. eapply Map_delete_incl. exact Hin.
Qed.

End MapInvariants.

Section RegistryInvariant.
Variable env : Env.

Lemma registryOk_set k v w w' :
  registryOk w -> k = ShortenedUrl.shortCode v -> urls w' = Map_set k v (urls w) ->
  registryOk w'.
Proof.
  intros [Hnd Hkeyed] Hk Hurls. unfold registryOk, keyedByShortCode. rewrite Hurls. split.
  - apply Map_set_NoDup. exact Hnd.
  - apply Map_set_Forall; [exact Hk | | exact Hkeyed].
    intros k' v' E _. apply String.eqb_eq in E. subst k'. exact Hk.
Qed.

Lemma registryOk_same w w' : registryOk w -> urls w' = urls w -> registryOk w'.
Proof. unfold registryOk, keyedByShortCode. intros H ->. exact H. Qed.

Lemma registryOk_get k u w :
  registryOk w -> Map_get k (urls w) = Some u -> k = ShortenedUrl.shortCode u.
Proof.
  intros [_ Hkeyed] Hget. unfold keyedByShortCode in Hkeyed. rewrite Forall_forall in Hkeyed.
  exact (Hkeyed (k, u) (Map_get_In _ _ _ Hget)).
Qed.

Lemma generateShortcode_urls fuel : forall w res w',
  urlService.generateShortcode env fuel w = (res, w') -> urls w' = urls w.
Proof.
  induction fuel as [| fuel IH]; intros w res w'; cbn [urlService.generateShortcode].
  - intros [= _ <-]. reflexivity.
  - unfold bind at 1. rewrite drawChars_spec. unfold bind, get.
    destruct (Map_has _ _).
    + intros H. rewrite (IH _ _ _ H). reflexivity.
    + unfold ret. intros [= _ <-]. reflexivity.
Qed.

Lemma shortenUrl_registryOk fuel formData w res w' :
  registryOk w ->
  urlService.shortenUrl env fuel formData w = (res, w') -> registryOk w'.
Proof.
  intros Hok Hrun.
  destruct (firstViolation env w formData) as [msg |] eqn:Hviol.
  { rewrite (shortenUrl_violation env fuel formData w msg Hviol) in Hrun.
    injection Hrun as _ <-. exact Hok. }
  destruct (shortenUrl_valid env fuel formData w Hviol) as [Hfine Hdiv].
  destruct (assignCode env fuel formData w) as [[code | e |] wg] eqn:Hpick.
  - destruct (Hfine code wg eq_refl) as (w1 & Hrun1 & Hurls & _).
    rewrite Hrun in Hrun1. injection Hrun1 as _ ->.
    eapply registryOk_set; [exact Hok | | exact Hurls]. reflexivity.
  - exfalso. exact (assignCode_no_throw env fuel formData w e wg Hpick).
  - rewrite (Hdiv wg eq_refl) in Hrun. injection Hrun as _ <-.
    apply (registryOk_same w); [exact Hok |].
    unfold assignCode in Hpick. destruct (truthy _); [discriminate |].
    exact (generateShortcode_urls fuel w _ wg Hpick).
Qed.

Lemma getUrlByShortcode_registryOk shortCode w res w' :
  registryOk w ->
  urlService.getUrlByShortcode env shortCode w = (res, w') ->
  registryOk w' /\
  (forall u, res = Ok (Some u) -> Map_get shortCode (urls w') = Some u).
Proof.
  intros Hok Hrun.
  destruct (Map_get shortCode (urls w)) as [u |] eqn:Hget.
  - destruct (Z.le_gt_cases (clock env (dateReads w)) (ShortenedUrl.expiryDate u))
      as [Hlive | Hexp].
    + rewrite (getUrlByShortcode_live env shortCode u w Hget Hlive) in Hrun.
      injection Hrun as <- <-. split; [apply (registryOk_same w); [exact Hok | reflexivity] |].
      intros u0 [= <-]. exact Hget.
    + destruct (getUrlByShortcode_expired env shortCode u w Hget ltac:(lia))
        as (w1 & Hrun1 & Hurls & _).
      rewrite Hrun in Hrun1. injection Hrun1 as -> ->. split; [| discriminate].
      eapply registryOk_set; [exact Hok | | exact Hurls].
      rewrite (registryOk_get shortCode u w Hok Hget). destruct u; reflexivity.
  - rewrite (getUrlByShortcode_absent env shortCode w Hget) in Hrun.
    injection Hrun as <- <-. split; [exact Hok | discriminate].
Qed.

Lemma recordClick_registryOk shortCode source w res w' :
  registryOk w ->
  urlService.recordClick env shortCode source w = (res, w') -> registryOk w'.
Proof.
  intros Hok Hrun.
  destruct (Map_get shortCode (urls w)) as [u |] eqn:Hget.
  - destruct (Z.le_gt_cases (clock env (dateReads w)) (ShortenedUrl.expiryDate u))
      as [Hlive | Hexp].
    + destruct (recordClick_live env shortCode source u w Hget Hlive)
        as (w1 & Hrun1 & Hurls & _).
      rewrite Hrun in Hrun1. injection Hrun1 as _ ->.
      eapply registryOk_set; [exact Hok | | exact Hurls].
      rewrite (registryOk_get shortCode u w Hok Hget). destruct u; reflexivity.
    + destruct (getUrlByShortcode_expired env shortCode u w Hget ltac:(lia))
        as (w1 & Hrun1 & Hurls & _).
      unfold urlService.recordClick in Hrun. rewrite (bind_Ok _ _ _ _ _ Hrun1) in Hrun.
      injection Hrun as _ <-.
      eapply registryOk_set; [exact Hok | | exact Hurls].
      rewrite (registryOk_get shortCode u w Hok Hget). destruct u; reflexivity.
  - unfold urlService.recordClick in Hrun.
    rewrite (bind_Ok _ _ _ _ _ (getUrlByShortcode_absent env shortCode w Hget)) in Hrun.
    injection Hrun as _ <-. exact Hok.
Qed.

Lemma getAllUrls_registryOk w res w' :
  registryOk w -> urlService.getAllUrls env w = (res, w') -> registryOk w'.
Proof.
  intros [Hnd Hkeyed] Hrun. destruct (getAllUrls_spec env w) as (w1 & Hrun1 & Hurls & _).
  rewrite Hrun in Hrun1. injection Hrun1 as _ ->.
  unfold registryOk, keyedByShortCode. rewrite Hurls, Map_keys_refresh.
  split; [exact Hnd |].
  unfold keyedByShortCode in Hkeyed. rewrite Forall_forall in *.
  intros kv Hin. apply in_map_iff in Hin. destruct Hin as ([k u] & <- & Hin).
  assert (Hk := Hkeyed (k, u) Hin). simpl in *. subst k. destruct u; reflexivity.
Qed.

Lemma deleteUrl_urls shortCode w :
  exists b w',
    urlService.deleteUrl env shortCode w = (Ok b, w') /\
    urls w' = Map_delete shortCode (urls w).
Proof.
  unfold urlService.deleteUrl. unfold bind at 1, get. unfold bind at 1, modify.
  destruct (Map_has shortCode (urls w)).
  - unfold logger.info.
    match goal with
    | |- exists b w', bind (urlService.saveToStorage env)
                        (fun _ => bind (logger.Log env ?a ?b0 ?c ?d ?e) (fun _ => ?k)) ?w0
                      = _ /\ _ =>
        destruct (save_log_then env k a b0 c d e w0) as (w' & Hrun & [Fu _ _] & _)
    end.
    exists true, w'. rewrite Hrun. split; [reflexivity | exact Fu].
  - eexists _, _. split; reflexivity.
Qed.

Lemma clearAllUrls_urls w :
  exists w', urlService.clearAllUrls env w = (Ok tt, w') /\ urls w' = [].
Proof.
  unfold urlService.clearAllUrls. unfold bind at 1, modify.
  destruct (saveToStorage_spec env (set_urls [] w)) as (w1 & Hrun1 & [Fu1 _ _] & _).
  rewrite (bind_Ok _ _ _ _ _ Hrun1). unfold logger.info.
  match goal with |- context [logger.Log env ?a ?b ?c ?d ?e ?v] =>
    destruct (Log_spec env a b c d e v) as (w2 & Hrun2 & [Fu2 _ _ _] & _)
  end.
  exists w2. split; [exact Hrun2 |]. rewrite Fu2, Fu1. reflexivity.
Qed.

Lemma runRegistryOp_registryOk op w res w' :
  registryOk w -> runRegistryOp env op w = (res, w') -> registryOk w'.
Proof.
  intros Hok. destruct op as [fuel formData | code | code source | | code |]; simpl.
  - unfold bind. destruct (urlService.shortenUrl env fuel formData w) as [r w1] eqn:Hrun.
    intros Hres. assert (w1 = w') as -> by (destruct r; inversion Hres; reflexivity).
    eapply shortenUrl_registryOk; eassumption.
  - unfold bind. destruct (urlService.getUrlByShortcode env code w) as [r w1] eqn:Hrun.
    intros Hres. assert (w1 = w') as -> by (destruct r; inversion Hres; reflexivity).
    eapply getUrlByShortcode_registryOk; eassumption.
  - unfold bind. destruct (urlService.recordClick env code source w) as [r w1] eqn:Hrun.
    intros Hres. assert (w1 = w') as -> by (destruct r; inversion Hres; reflexivity).
    eapply recordClick_registryOk; eassumption.
  - unfold bind. destruct (urlService.getAllUrls env w) as [r w1] eqn:Hrun.
    intros Hres. assert (w1 = w') as -> by (destruct r; inversion Hres; reflexivity).
    eapply getAllUrls_registryOk; eassumption.
  - destruct (deleteUrl_urls code w) as (b & w1 & Hrun & Hurls).
    unfold bind. rewrite Hrun. unfold ret. intros [= _ <-].
    destruct Hok as [Hnd Hkeyed]. unfold registryOk, keyedByShortCode. rewrite Hurls.
    split; [apply Map_delete_NoDup; exact Hnd | apply Map_delete_Forall; exact Hkeyed].
  - destruct (clearAllUrls_urls w) as (w1 & Hrun & Hurls). rewrite Hrun. intros [= _ <-].
    unfold registryOk, keyedByShortCode. rewrite Hurls. split; constructor.
Qed.

(** At most one record per shortcode, each under its own shortcode: an
    invariant of every run of the registry. *)
Lemma reachable_registryOk w0 w :
  registryOk w0 -> reachableFrom env w0 w -> registryOk w.
Proof.
  intros H0. induction 1 as [| op w w' res Hreach IH Hstep]; [exact H0 |].
  eapply runRegistryOp_registryOk; eassumption.
Qed.

End RegistryInvariant.

Lemma emptyWorld_registryOk : registryOk emptyWorld.
Proof. split; constructor. Qed.

(** * More of the registry *)

Section MoreMapFacts.
Context {V : Type}.
Implicit Types (m : list (string * V)) (k : string) (v : V).

Lemma Map_get_set_other k k' v m : k' <> k -> Map_get k' (Map_set k v m) = Map_get k' m.
Proof.
  intros Hne. induction m as [| [k0 v0] rest IH]; simpl.
  - destruct (String.eqb_spec k' k); [contradiction | reflexivity].
  - destruct (String.eqb_spec k k0) as [-> | Hk]; simpl.
    + destruct (String.eqb_spec k' k0); [contradiction | reflexivity].
    + destruct (String.eqb_spec k' k0); [reflexivity | exact IH].
Qed.

Lemma Map_set_new k v m : Map_has k m = false -> Map_set k v m = m ++ [(k, v)].
Proof.
  unfold Map_has. induction m as [| [k' v'] rest IH]; simpl; [reflexivity |].
  destruct (String.eqb_spec k k') as [-> | Hne]; [discriminate |].
  intros H. f_equal. apply IH. exact H.
Qed.

Lemma Map_get_delete_other k k' m : k' <> k -> Map_get k' (Map_delete k m) = Map_get k' m.
Proof.
  intros Hne. induction m as [| [k0 v0] rest IH]; simpl; [reflexivity |].
  destruct (String.eqb_spec k k0) as [-> | Hk]; simpl.
  - destruct (String.eqb_spec k' k0); [contradiction | reflexivity].
  - destruct (String.eqb_spec k' k0); [reflexivity | exact IH].
Qed.

Lemma Map_get_notin k m : ~ In k (Map_keys m) -> Map_get k m = None.
Proof.
  induction m as [| [k0 v0] rest IH]; simpl; [reflexivity |].
  intros Hnotin. destruct (String.eqb_spec k k0) as [-> | Hk].
  - exfalso. apply Hnotin. left. reflexivity.
  - apply IH. intros Hin. apply Hnotin. right. exact Hin.
Qed.

Lemma Map_get_delete_same k m : NoDup (Map_keys m) -> Map_get k (Map_delete k m) = None.
Proof.
  induction m as [| [k0 v0] rest IH]; simpl; intros Hnd; [reflexivity |].
  inversion Hnd as [| ? ? Hnotin Hrest]; subst.
  destruct (String.eqb_spec k k0) as [-> | Hk]; simpl.
  - apply Map_get_notin. exact Hnotin.
  - destruct (String.eqb_spec k k0); [contradiction | apply IH; exact Hrest].
Qed.

Lemma Map_get_of_In k v m : NoDup (Map_keys m) -> In (k, v) m -> Map_get k m = Some v.
Proof.
  induction m as [| [k0 v0] rest IH]; simpl; intros Hnd Hin; [destruct Hin |].
  inversion Hnd as [| ? ? Hnotin Hrest]; subst.
  destruct Hin as [[= -> ->] | Hin].
  - rewrite String.eqb_refl. reflexivity.
  - destruct (String.eqb_spec k k0) as [-> | Hne]; [| apply IH; assumption].
    exfalso. apply Hnotin. apply in_map_iff. exists (k0, v). split; [reflexivity | exact Hin].
Qed.

Lemma Map_has_set_other k k' v m : k' <> k -> Map_has k' (Map_set k v m) = Map_has k' m.
Proof. intros Hne. unfold Map_has. rewrite Map_get_set_other by exact Hne. reflexivity. Qed.

End MoreMapFacts.

Lemma wellFormed_valid_when_free w c :
  wellFormedShortcode c = true -> Map_has c (urls w) = false ->
  urlService.validateShortcode w c = UrlValidationResult.mk true None.
Proof.
  intros Hwf Hfree.
  exact (proj2 (proj2 (validateShortcode_cases w c (wellFormed_nonempty c Hwf))) Hwf Hfree).
Qed.

(** [create] with an explicit shortcode, on inputs that pass. *)
Lemma shortenUrl_explicit env fuel formData code w :
  UrlFormData.preferredShortcode formData = Some code ->
  wellFormedShortcode code = true ->
  Map_has code (urls w) = false ->
  UrlValidationResult.isValid
    (urlService.validateUrl env (UrlFormData.originalUrl formData)) = true ->
  UrlValidationResult.isValid
    (urlService.validateValidityMinutes (UrlFormData.validityMinutes formData)) = true ->
  exists r w',
    urlService.shortenUrl env fuel formData w = (Ok r, w') /\
    ShortenedUrl.shortCode r = code /\
    ShortenedUrl.originalUrl r = UrlFormData.originalUrl formData /\
    ShortenedUrl.clicks r = [] /\
    ShortenedUrl.isExpired r = false /\
    urls w' = urls w ++ [(code, r)].
Proof.
  intros Hpref Hwf Hfree Hurl Hmin.
  assert (Hne := wellFormed_nonempty code Hwf).
  assert (Htruthy : truthy (UrlFormData.preferredShortcode formData) = true).
  { rewrite Hpref. destruct code; [contradiction | reflexivity]. }
  assert (Hviol : firstViolation env w formData = None).
  { apply firstViolation_valid; [exact Hurl | | exact Hmin].
    rewrite Hpref. simpl orEmpty. rewrite (wellFormed_valid_when_free w code Hwf Hfree).
    reflexivity. }
  destruct (proj1 (shortenUrl_valid env fuel formData w Hviol) code w)
    as (w' & Hrun & Hurls & _).
  { unfold assignCode. rewrite Htruthy, Hpref. reflexivity. }
  eexists _, w'. split; [exact Hrun |]. repeat split.
  rewrite Hurls. apply Map_set_new. exact Hfree.
Qed.

Lemma deleteUrl_present env shortCode w :
  Map_has shortCode (urls w) = true ->
  exists w',
    urlService.deleteUrl env shortCode w = (Ok true, w') /\
    urls w' = Map_delete shortCode (urls w) /\
    (window env = true -> localQuota env (Map_values (urls w')) = true ->
     localStorage w' = Some (Map_values (urls w'))).
Proof.
  intros Hhas. unfold urlService.deleteUrl. unfold bind at 1, get.
  unfold bind at 1, modify. rewrite Hhas. unfold logger.info.
  match goal with
  | |- exists w', bind (urlService.saveToStorage env)
                    (fun _ => bind (logger.Log env ?a ?b ?c ?d ?e) (fun _ => ?k)) ?w0
                  = _ /\ _ =>
      destruct (save_log_then env k a b c d e w0) as (w' & Hrun & [Fu _ _] & _ & Hgood & _)
  end.
  exists w'. rewrite Hrun. cbn [urls set_urls] in *. rewrite Fu.
  split; [reflexivity |]. split; [reflexivity | exact Hgood].
Qed.

(** X1: deleting a stored shortcode frees it. In a registry with one
    record per key, after [deleteUrl] the code is no key any more, every
    other key keeps its record, the code resolves to [null] and a click
    on it fails, both without touching the world; and a [shortenUrl] that
    prefers the code (well-formed, with a URL and a validity that pass)
    creates a fresh record under it. *)
Theorem delete_frees_shortcode
    (env : Env) (shortCode : string) (w : World) :
  registryOk w ->
  Map_has shortCode (urls w) = true ->
  exists w',
    urlService.deleteUrl env shortCode w = (Ok true, w') /\
    Map_has shortCode (urls w') = false /\
    (forall k, k <> shortCode -> Map_get k (urls w') = Map_get k (urls w)) /\
    urlService.getUrlByShortcode env shortCode w' = (Ok None, w') /\
    (forall source, urlService.recordClick env shortCode source w' = (Ok false, w')) /\
    (forall fuel formData,
       UrlFormData.preferredShortcode formData = Some shortCode ->
       wellFormedShortcode shortCode = true ->
       UrlValidationResult.isValid
         (urlService.validateUrl env (UrlFormData.originalUrl formData)) = true ->
       UrlValidationResult.isValid
         (urlService.validateValidityMinutes (UrlFormData.validityMinutes formData)) = true ->
       exists r w'',
         urlService.shortenUrl env fuel formData w' = (Ok r, w'') /\
         ShortenedUrl.shortCode r = shortCode /\
         ShortenedUrl.clicks r = [] /\
         Map_get shortCode (urls w'') = Some r).
Proof.
  intros [Hnd Hkeyed] Hhas.
  destruct (deleteUrl_present env shortCode w Hhas) as (w' & Hrun & Hurls & _).
  assert (Hnone : Map_get shortCode (urls w') = None)
    by (rewrite Hurls; apply Map_get_delete_same; exact Hnd).
  assert (Hfree : Map_has shortCode (urls w') = false)
    by (unfold Map_has; rewrite Hnone; reflexivity).
  exists w'. split; [exact Hrun |]. split; [exact Hfree |].
  split; [intros k Hk; rewrite Hurls; apply Map_get_delete_other; exact Hk |].
  split; [apply getUrlByShortcode_absent; exact Hnone |].
  split.
  - intros source. unfold urlService.recordClick.
    rewrite (bind_Ok _ _ _ _ _ (getUrlByShortcode_absent env shortCode w' Hnone)).
    reflexivity.
  - intros fuel formData Hpref Hwf Hurl Hmin.
    destruct (shortenUrl_explicit env fuel formData shortCode w' Hpref Hwf Hfree Hurl Hmin)
      as (r & w'' & Hcreate & Hcode & _ & Hclicks & _ & Hurls'').
    exists r, w''. split; [exact Hcreate |]. split; [exact Hcode |].
    split; [exact Hclicks |].
    rewrite Hurls'', <- (Map_set_new shortCode r (urls w') Hfree). apply Map_get_set_same.
Qed.

Lemma delete_frees_shortcode_witness :
  let w := worldWith [sampleUrl "abc123" 1699999940000 1800000000000 false] in
  exists w',
    urlService.deleteUrl browser "abc123" w = (Ok true, w') /\
    Map_has "abc123" (urls w') = false /\
    urlService.getUrlByShortcode browser "abc123" w' = (Ok None, w').
Proof.
  intros w.
  destruct (delete_frees_shortcode browser "abc123" w) as (w' & Hrun & Hfree & _ & Hget & _).
  - split; [repeat constructor; simpl; tauto | repeat constructor].
  - reflexivity.
  - exists w'. split; [exact Hrun |]. split; [exact Hfree | exact Hget].
Defined.


(** * Frames: what a run never changes *)

Section FrameRules.
Variable R : World -> World -> Prop.
Hypothesis R_refl : forall w, R w w.
Hypothesis R_trans : forall a b c, R a b -> R b c -> R a c.

Lemma preserves_pure {A} (r : Res A) : preserves R (fun w => (r, w)).
Proof. intros w res w' [= _ <-]. apply R_refl. Qed.

Lemma preserves_ret {A} (a : A) : preserves R (ret a).
Proof. apply preserves_pure. Qed.

Lemma preserves_throw {A} (e : Exn) : preserves R (@throw A e).
Proof. apply preserves_pure. Qed.

Lemma preserves_get : preserves R get.
Proof. intros w res w' [= _ <-]. apply R_refl. Qed.

Lemma preserves_modify (f : World -> World) :
  (forall w, R w (f w)) -> preserves R (modify f).
Proof. intros H w res w' [= _ <-]. apply H. Qed.

Lemma preserves_bind {A B} (m : M A) (k : A -> M B) :
  preserves R m -> (forall a, preserves R (k a)) -> preserves R (bind m k).
Proof.
  intros Hm Hk w res w'. unfold bind.
  destruct (m w) as [[a | e |] w1] eqn:Hrun.
  - intros Hrest. exact (R_trans _ _ _ (Hm _ _ _ Hrun) (Hk a _ _ _ Hrest)).
  - intros [= _ <-]. exact (Hm _ _ _ Hrun).
  - intros [= _ <-]. exact (Hm _ _ _ Hrun).
Qed.

(** The continuation may rely on the result having been returned. *)
Lemma preserves_bind_at {A B} (m : M A) (k : A -> M B) w res w' :
  bind m k w = (res, w') ->
  preserves R m ->
  (forall a w1, m w = (Ok a, w1) -> k a w1 = (res, w') -> R w1 w') ->
  R w w'.
Proof.
  unfold bind. intros Hrun Hm Hk.
  destruct (m w) as [[a | e |] w1] eqn:Hm1.
  - exact (R_trans _ _ _ (Hm _ _ _ Hm1) (Hk a w1 eq_refl Hrun)).
  - injection Hrun as _ <-. exact (Hm _ _ _ Hm1).
  - injection Hrun as _ <-. exact (Hm _ _ _ Hm1).
Qed.

Lemma preserves_tryCatch {A} (body : M A) (handler : Exn -> M A) :
  preserves R body -> (forall e, preserves R (handler e)) ->
  preserves R (tryCatch body handler).
Proof.
  intros Hb Hh w res w'. unfold tryCatch.
  destruct (body w) as [[a | e |] w1] eqn:Hrun.
  - intros [= _ <-]. exact (Hb _ _ _ Hrun).
  - intros Hrest. exact (R_trans _ _ _ (Hb _ _ _ Hrun) (Hh e _ _ _ Hrest)).
  - intros [= _ <-]. exact (Hb _ _ _ Hrun).
Qed.

End FrameRules.

(** ** The logger, from its primitives *)

Section LoggerFrames.
Variable env : Env.
Variable R : World -> World -> Prop.
Hypothesis R_refl : forall w, R w w.
Hypothesis R_trans : forall a b c, R a b -> R b c -> R a c.
Hypothesis R_newDate : preserves R (newDate env).
Hypothesis R_logs : forall l w, R w (set_logs l w).
Hypothesis R_endpoint : forall s w, R w (set_testServerEndpoint s w).
Hypothesis R_setItem :
  window env = true -> forall l, preserves R (sessionStorage_setItem env l).
Hypothesis R_removeItem : window env = true -> forall w, R w (set_sessionStorage None w).
Hypothesis R_fetch : window env = true -> forall x w, R w (set_pending (pending w ++ [x]) w).
Hypothesis R_settled : forall i w, R w (set_pending (removeNth i (pending w)) w).

Lemma storeInSession_preserves e : preserves R (logger.storeInSession env e).
Proof.
  unfold logger.storeInSession. destruct (window env) eqn:Hw.
  - apply preserves_tryCatch; [assumption | |].
    + apply preserves_bind; [assumption | intros w res w' [= _ <-]; apply R_refl |].
      intros existing. apply R_setItem. reflexivity.
    + intros e0. apply preserves_ret. assumption.
  - apply preserves_ret. assumption.
Qed.

Lemma Log_preserves stack level packageName message context :
  preserves R (logger.Log env stack level packageName message context).
Proof.
  unfold logger.Log. apply preserves_bind; [assumption | assumption |]. intros t.
  apply preserves_bind; [assumption | |].
  - unfold logger.addLog. apply preserves_bind; [assumption | |].
    + apply preserves_modify. intros w. apply R_logs.
    + intros _. apply storeInSession_preserves.
  - intros _. unfold logger.sendToTestServer. destruct (window env) eqn:Hw.
    + apply preserves_modify. intros w. apply R_fetch. reflexivity.
    + apply preserves_ret. assumption.
Qed.

Lemma settle_preserves i r : preserves R (logger.settle env i r).
Proof.
  intros w res w'. unfold logger.settle.
  destruct (nth_error (pending w) i) as [[endpoint e] |].
  2:{ intros [= _ <-]. apply R_refl. }
  intros Hrun. apply (R_trans _ _ _ (R_settled i w)). revert Hrun.
  generalize (set_pending (removeNth i (pending w)) w) as w0. intros w0.
  assert (Hwarn : forall f, preserves R (t <- newDate env ;; logger.storeInSession env (f t))).
  { intros f. apply preserves_bind; [assumption | assumption |].
    intros t. apply storeInSession_preserves. }
  destruct r as [status | error]; simpl.
  - destruct (logger.response_ok status); simpl.
    + intros [= _ <-]. apply R_refl.
    + apply (Hwarn (fun t => LogEntry.mk t _ _ _ _ _)).
  - apply (Hwarn (fun t => LogEntry.mk t _ _ _ _ _)).
Qed.

Lemma runLoggerOp_preserves op : preserves R (runLoggerOp env op).
Proof.
  destruct op as [stack level packageName message context | i r | | | endpoint]; simpl.
  - apply Log_preserves.
  - apply settle_preserves.
  - apply preserves_bind; [assumption | | intros; apply preserves_ret; assumption].
    unfold logger.getLogs.
    apply preserves_bind; [assumption | apply preserves_get; assumption |].
    intros; apply preserves_ret; assumption.
  - unfold logger.clearLogs. apply preserves_bind; [assumption | |].
    + apply preserves_modify. intros w. apply R_logs.
    + intros _. destruct (window env) eqn:Hw.
      * apply preserves_modify. intros w. apply R_removeItem. reflexivity.
      * apply preserves_ret. assumption.
  - unfold logger.setTestServerEndpoint. apply preserves_modify. intros w. apply R_endpoint.
Qed.

End LoggerFrames.

(** ** The service, from its primitives and [Log] *)

Section ServiceFrames.
Variable env : Env.
Variable R : World -> World -> Prop.
Hypothesis R_refl : forall w, R w w.
Hypothesis R_trans : forall a b c, R a b -> R b c -> R a c.
Hypothesis R_Log : forall stack level packageName message context,
  preserves R (logger.Log env stack level packageName message context).
Hypothesis R_newDate : preserves R (newDate env).
Hypothesis R_randomIndex : preserves R (randomIndex env).
Hypothesis R_randomUUID : preserves R (crypto_randomUUID env).
Hypothesis R_urls : forall x w, R w (set_urls x w).
Hypothesis R_setItem :
  window env = true -> forall a, preserves R (localStorage_setItem env a).

Ltac frame :=
  repeat first
    [ apply preserves_ret; [assumption]
    | apply preserves_throw; [assumption]
    | apply preserves_get; [assumption]
    | apply R_Log | apply R_newDate | apply R_randomIndex | apply R_randomUUID
    | apply preserves_modify; intros ?; apply R_urls
    | apply preserves_bind; [assumption | | intros ?]
    | apply preserves_tryCatch; [assumption | | intros ?] ].

Lemma saveToStorage_preserves : preserves R (urlService.saveToStorage env).
Proof.
  unfold urlService.saveToStorage, logger.debug, logger.error.
  destruct (window env) eqn:Hw; frame.
  apply R_setItem. reflexivity.
Qed.

Lemma drawChars_preserves n : forall acc, preserves R (urlService.drawChars env n acc).
Proof. induction n as [| n IH]; intros acc; simpl; frame. apply IH. Qed.

Lemma generateShortcode_preserves fuel : preserves R (urlService.generateShortcode env fuel).
Proof.
  induction fuel as [| fuel IH]; cbn [urlService.generateShortcode].
  - apply preserves_pure. assumption.
  - apply preserves_bind; [assumption | apply drawChars_preserves | intros result].
    apply preserves_bind; [assumption | apply preserves_get; assumption | intros w].
    destruct (Map_has result (urls w)); [exact IH | frame].
Qed.

Lemma shortenUrl_preserves fuel formData :
  preserves R (urlService.shortenUrl env fuel formData).
Proof.
  unfold urlService.shortenUrl, logger.info. cbv zeta.
  destruct (negb _); [frame |].
  apply preserves_bind; [assumption | apply preserves_get; assumption | intros w].
  destruct (negb _); [frame |]. destruct (negb _); [frame |].
  apply preserves_bind; [assumption | | intros shortCode].
  - destruct (truthy _); [frame | apply generateShortcode_preserves].
  - frame. apply saveToStorage_preserves.
Qed.

Lemma getUrlByShortcode_preserves shortCode :
  preserves R (urlService.getUrlByShortcode env shortCode).
Proof.
  unfold urlService.getUrlByShortcode, logger.warn.
  apply preserves_bind; [assumption | apply preserves_get; assumption | intros w].
  destruct (Map_get shortCode (urls w)) as [url |]; [| frame].
  apply preserves_bind; [assumption | assumption | intros now].
  destruct (now >? ShortenedUrl.expiryDate url)%Z; frame.
  apply saveToStorage_preserves.
Qed.

Lemma recordClick_preserves shortCode source :
  preserves R (urlService.recordClick env shortCode source).
Proof.
  unfold urlService.recordClick, logger.info.
  apply preserves_bind; [assumption | apply getUrlByShortcode_preserves | intros found].
  destruct found as [url |]; frame. apply saveToStorage_preserves.
Qed.

Lemma forEachUrl_preserves now entries :
  preserves R (urlService.forEachUrl (urlService.refreshExpired env now) entries).
Proof.
  induction entries as [| [k url] rest IH]; simpl; [frame |].
  apply preserves_bind; [assumption | | intros url'].
  - unfold urlService.refreshExpired, logger.info. cbv zeta.
    apply preserves_bind; [assumption | | intros; frame].
    destruct (negb _ && _); frame.
  - apply preserves_bind; [assumption | exact IH | intros; frame].
Qed.

Lemma getAllUrls_preserves : preserves R (urlService.getAllUrls env).
Proof.
  unfold urlService.getAllUrls.
  apply preserves_bind; [assumption | assumption | intros now].
  apply preserves_bind; [assumption | apply preserves_get; assumption | intros w].
  apply preserves_bind; [assumption | apply forEachUrl_preserves | intros entries].
  apply preserves_bind; [assumption | | intros _].
  - apply preserves_modify. intros w0. apply R_urls.
  - apply preserves_bind; [assumption | apply saveToStorage_preserves | intros _]. frame.
Qed.

Lemma deleteUrl_preserves shortCode : preserves R (urlService.deleteUrl env shortCode).
Proof.
  unfold urlService.deleteUrl, logger.info.
  apply preserves_bind; [assumption | apply preserves_get; assumption | intros w].
  apply preserves_bind; [assumption | | intros _].
  - apply preserves_modify. intros w0. apply R_urls.
  - destruct (Map_has shortCode (urls w)); frame. apply saveToStorage_preserves.
Qed.

Lemma clearAllUrls_preserves : preserves R (urlService.clearAllUrls env).
Proof.
  unfold urlService.clearAllUrls, logger.info.
  apply preserves_bind; [assumption | | intros _].
  - apply preserves_modify. intros w0. apply R_urls.
  - apply preserves_bind; [assumption | apply saveToStorage_preserves | intros _]. frame.
Qed.

Lemma loadEach_preserves urlsArray : preserves R (loadEach env urlsArray).
Proof.
  induction urlsArray as [| [url |] rest IH]; simpl; [frame | | frame].
  apply preserves_bind; [assumption | assumption | intros now].
  apply preserves_bind; [assumption | | intros _; exact IH].
  apply preserves_modify. intros w0. apply R_urls.
Qed.

Lemma loadFromStorage_preserves found : preserves R (loadFromStorage env found).
Proof.
  unfold loadFromStorage, logger.info, logger.error.
  destruct (window env) eqn:Hw; [| frame].
  apply preserves_tryCatch; [assumption | | intros; frame].
  apply preserves_bind; [assumption | | intros stored].
  - intros w res w' [= _ <-]. apply R_refl.
  - destruct stored as [| | | urlsArray]; [frame | frame | frame |].
    apply preserves_bind; [assumption | apply loadEach_preserves | intros; frame].
Qed.

(** The in-place sort of a render changes the registry's records only. *)
Lemma renderDetails_preserves st : preserves R (StatisticsPage.renderDetails st).
Proof.
  unfold StatisticsPage.renderDetails. destruct (StatisticsPage.selectedUrl st) as [ref |];
    [| frame].
  apply preserves_modify. intros w. unfold StatisticsPage.sortClicks.
  destruct (StatisticsPage.deref w ref) as [url |]; [| apply R_refl].
  destruct (0 <? _); [apply R_urls | apply R_refl].
Qed.

Lemma runRegistryOp_preserves op : preserves R (runRegistryOp env op).
Proof.
  destruct op as [fuel formData | code | code source | | code |]; simpl;
    try (apply preserves_bind; [assumption | | intros; apply preserves_ret; assumption]).
  - apply shortenUrl_preserves.
  - apply getUrlByShortcode_preserves.
  - apply recordClick_preserves.
  - apply getAllUrls_preserves.
  - apply deleteUrl_preserves.
  - apply clearAllUrls_preserves.
Qed.

End ServiceFrames.

(** ** The components, from the service and the logger *)

Section HandlerFrames.
Variable env : Env.
Variable isBlank : string -> bool.
Variable R : World -> World -> Prop.
Hypothesis R_refl : forall w, R w w.
Hypothesis R_trans : forall a b c, R a b -> R b c -> R a c.
Hypothesis R_Log : forall stack level packageName message context,
  preserves R (logger.Log env stack level packageName message context).
Hypothesis R_newDate : preserves R (newDate env).
Hypothesis R_service : forall op, preserves R (runRegistryOp env op).
Hypothesis R_logger : forall op, preserves R (runLoggerOp env op).
Hypothesis R_pageLoad : forall found, preserves R (pageLoad env found).
Hypothesis R_render : forall st, preserves R (StatisticsPage.renderDetails st).

(** A method preserves what the operation that wraps it preserves. *)
Lemma unwrap_preserves {A} (m : M A) :
  preserves R (_ <- m ;; ret tt) -> preserves R m.
Proof.
  intros H w res w' Hrun.
  destruct res as [a | e |];
    [apply (H w (Ok tt) w') | apply (H w (Throw e) w') | apply (H w Diverge w')];
    unfold bind; rewrite Hrun; reflexivity.
Qed.

Lemma shortenUrl_kept fuel formData : preserves R (urlService.shortenUrl env fuel formData).
Proof. apply unwrap_preserves. exact (R_service (OpCreate fuel formData)). Qed.

Lemma getUrlByShortcode_kept code : preserves R (urlService.getUrlByShortcode env code).
Proof. apply unwrap_preserves. exact (R_service (OpResolve code)). Qed.

Lemma recordClick_kept code source : preserves R (urlService.recordClick env code source).
Proof. apply unwrap_preserves. exact (R_service (OpClick code source)). Qed.

Lemma getAllUrls_kept : preserves R (urlService.getAllUrls env).
Proof. apply unwrap_preserves. exact (R_service OpList). Qed.

Lemma deleteUrl_kept code : preserves R (urlService.deleteUrl env code).
Proof. apply unwrap_preserves. exact (R_service (OpDelete code)). Qed.

Lemma clearAllUrls_kept : preserves R (urlService.clearAllUrls env).
Proof. exact (R_service OpClear). Qed.

Ltac handler :=
  repeat first
    [ apply preserves_ret; [assumption]
    | apply preserves_get; [assumption]
    | apply R_Log | apply R_newDate
    | apply shortenUrl_kept | apply getUrlByShortcode_kept | apply recordClick_kept
    | apply getAllUrls_kept | apply deleteUrl_kept | apply clearAllUrls_kept
    | apply preserves_bind; [assumption | | intros ?]
    | apply preserves_tryCatch; [assumption | | intros ?] ].

Lemma handleRedirect_preserves shortcode referrer view :
  preserves R (RedirectPage.handleRedirect env shortcode referrer view).
Proof.
  unfold RedirectPage.handleRedirect, logger.warn, logger.info, logger.error.
  apply preserves_bind; [assumption | apply getUrlByShortcode_kept | intros url].
  destruct url as [url |]; [| handler].
  destruct (ShortenedUrl.isExpired url); [handler |].
  apply preserves_bind; [assumption | apply recordClick_kept | intros recorded].
  destruct recorded; handler.
Qed.

Lemma onMount_preserves shortcode referrer view :
  preserves R (RedirectPage.onMount env shortcode referrer view).
Proof.
  unfold RedirectPage.onMount. destruct (negb _); [handler | apply handleRedirect_preserves].
Qed.

Lemma loadUrls_preserves st : preserves R (StatisticsPage.loadUrls env st).
Proof. unfold StatisticsPage.loadUrls, logger.info. handler. Qed.

Lemma handleDelete_preserves confirmed shortCode st :
  preserves R (StatisticsPage.handleDelete env confirmed shortCode st).
Proof.
  unfold StatisticsPage.handleDelete, logger.info. destruct confirmed; [| handler].
  apply preserves_bind; [assumption | apply deleteUrl_kept | intros _].
  apply preserves_bind; [assumption | apply loadUrls_preserves | intros st']. handler.
Qed.

Lemma handleClearAll_preserves confirmed st :
  preserves R (StatisticsPage.handleClearAll env confirmed st).
Proof.
  unfold StatisticsPage.handleClearAll, logger.info. destruct confirmed; [| handler].
  apply preserves_bind; [assumption | apply clearAllUrls_kept | intros _].
  apply preserves_bind; [assumption | apply loadUrls_preserves | intros st']. handler.
Qed.

Lemma freshId_preserves : preserves R (UrlShortenerForm.freshId env).
Proof. unfold UrlShortenerForm.freshId. handler. Qed.

Lemma addUrlRow_preserves st : preserves R (UrlShortenerForm.addUrlRow env st).
Proof.
  unfold UrlShortenerForm.addUrlRow. destruct (_ <? 5); [| handler].
  apply preserves_bind; [assumption | apply freshId_preserves | intros; handler].
Qed.

Lemma submitRows_preserves fuel rows : forall created errors,
  preserves R (UrlShortenerForm.submitRows env fuel rows created errors).
Proof.
  induction rows as [| row rest IH]; intros created errors; simpl; [handler |].
  apply preserves_bind; [assumption | | intros outcome].
  - handler.
  - destruct outcome; apply IH.
Qed.

Lemma handleSubmit_preserves fuel st :
  preserves R (UrlShortenerForm.handleSubmit env isBlank fuel st).
Proof.
  unfold UrlShortenerForm.handleSubmit, logger.error.
  apply preserves_bind; [assumption | apply preserves_get; assumption | intros w].
  destruct (UrlShortenerForm.validateForm env isBlank w st) as [validated ok].
  destruct (negb ok); [handler |].
  apply preserves_tryCatch; [assumption | | intros; handler].
  apply preserves_bind; [assumption | apply submitRows_preserves | intros [created errors']].
  destruct (Nat.eqb _ _); [| handler].
  apply preserves_bind; [assumption | apply freshId_preserves | intros; handler].
Qed.

Lemma runAppOp_preserves op : preserves R (runAppOp env isBlank op).
Proof.
  destruct op; simpl;
    try (apply preserves_bind; [assumption | | intros; apply preserves_ret; assumption]).
  - apply R_service.
  - apply R_logger.
  - apply R_pageLoad.
  - apply onMount_preserves.
  - apply loadUrls_preserves.
  - apply handleDelete_preserves.
  - apply handleClearAll_preserves.
  - apply R_render.
  - apply addUrlRow_preserves.
  - apply handleSubmit_preserves.
Qed.

End HandlerFrames.

(** ** Three frames *)

Lemma removeNth_In {A} i (l : list A) x : In x (removeNth i l) -> In x l.
Proof.
  unfold removeNth. intros H. apply in_app_or in H. destruct H as [H | H].
  - rewrite <- (firstn_skipn i l). apply in_or_app. left. exact H.
  - rewrite <- (firstn_skipn (S i) l). apply in_or_app. right. exact H.
Qed.

(** A primitive step, run: the world it leaves is in the goal. *)
Ltac run_primitive :=
  unfold preserves; intros;
  match goal with
  | H : _ = (_, _) |- _ =>
      unfold newDate, randomIndex, crypto_randomUUID, sessionStorage_setItem,
        localStorage_setItem in H;
      try match type of H with context [if ?b then _ else _] => destruct b end;
      injection H as _ <-
  end.

Section ReadsGrow.
Variable env : Env.

Ltac reads :=
  first [ solve [intros; unfold readsGrow in *; simpl in *; lia]
        | solve [run_primitive; unfold readsGrow; simpl; lia] ].

Lemma readsGrow_refl w : readsGrow w w.
Proof. reads. Qed.

Lemma readsGrow_trans a b c : readsGrow a b -> readsGrow b c -> readsGrow a c.
Proof. reads. Qed.

Lemma newDate_readsGrow : preserves readsGrow (newDate env).
Proof. reads. Qed.

Lemma runLoggerOp_readsGrow op : preserves readsGrow (runLoggerOp env op).
Proof. apply runLoggerOp_preserves; reads. Qed.

Lemma Log_readsGrow stack level packageName message context :
  preserves readsGrow (logger.Log env stack level packageName message context).
Proof. exact (runLoggerOp_readsGrow (OpLog stack level packageName message context)). Qed.

Lemma saveToStorage_readsGrow : preserves readsGrow (urlService.saveToStorage env).
Proof. apply saveToStorage_preserves; first [apply Log_readsGrow | reads]. Qed.

Lemma runRegistryOp_readsGrow op : preserves readsGrow (runRegistryOp env op).
Proof. apply runRegistryOp_preserves; first [apply Log_readsGrow | reads]. Qed.

Lemma loadFromStorage_readsGrow found : preserves readsGrow (loadFromStorage env found).
Proof. apply loadFromStorage_preserves; first [apply Log_readsGrow | reads]. Qed.

Lemma pageLoad_readsGrow found : preserves readsGrow (pageLoad env found).
Proof.
  unfold pageLoad. apply preserves_bind; [apply readsGrow_trans | |].
  - apply preserves_modify. reads.
  - intros _. apply loadFromStorage_readsGrow.
Qed.

Lemma renderDetails_readsGrow st : preserves readsGrow (StatisticsPage.renderDetails st).
Proof. apply renderDetails_preserves; reads. Qed.

Lemma runAppOp_readsGrow isBlank op : preserves readsGrow (runAppOp env isBlank op).
Proof.
  apply runAppOp_preserves;
    first [ apply Log_readsGrow | apply runRegistryOp_readsGrow | apply runLoggerOp_readsGrow
          | apply pageLoad_readsGrow | apply renderDetails_readsGrow | reads ].
Qed.

(** What follows a clock reading starts one reading later. *)
Lemma reads_after_newDate {A} (k : Z -> M A) w res w' :
  (now <- newDate env ;; k now) w = (res, w') ->
  (forall now, preserves readsGrow (k now)) ->
  dateReads w < dateReads w'.
Proof.
  unfold bind at 1, newDate. intros Hrun Hk.
  assert (H := Hk _ _ _ _ Hrun). unfold readsGrow in H. simpl in H. lia.
Qed.

End ReadsGrow.

Section RegistryUntouched.
Variable env : Env.

Ltac untouched :=
  first [ solve [intros; unfold registryUntouched in *; simpl in *; intuition (congruence || lia)]
        | solve [run_primitive; unfold registryUntouched; simpl; split; (reflexivity || lia)] ].

Lemma runLoggerOp_registryUntouched op : preserves registryUntouched (runLoggerOp env op).
Proof. apply runLoggerOp_preserves; untouched. Qed.

Lemma Log_registryUntouched stack level packageName message context :
  preserves registryUntouched (logger.Log env stack level packageName message context).
Proof. exact (runLoggerOp_registryUntouched (OpLog stack level packageName message context)). Qed.

End RegistryUntouched.

Section Offline.
Variable env : Env.

Lemma offlineFrame_refl w : offlineFrame env w w.
Proof. intros _. repeat split; auto. Qed.

Lemma offlineFrame_trans a b c :
  offlineFrame env a b -> offlineFrame env b c -> offlineFrame env a c.
Proof.
  intros H1 H2 Hw. destruct (H1 Hw) as (L1 & S1 & P1). destruct (H2 Hw) as (L2 & S2 & P2).
  repeat split; [congruence | congruence | auto].
Qed.

Ltac offline :=
  first [ apply offlineFrame_refl | apply offlineFrame_trans
        | solve [intros Hw; intros; intros Hoff; congruence]
        | solve [intros; intros _; repeat split; simpl; auto; intros ?; apply removeNth_In]
        | solve [run_primitive; intros _; repeat split; simpl; auto] ].

Lemma runLoggerOp_offline op : preserves (offlineFrame env) (runLoggerOp env op).
Proof. apply runLoggerOp_preserves; offline. Qed.

Lemma Log_offline stack level packageName message context :
  preserves (offlineFrame env) (logger.Log env stack level packageName message context).
Proof. exact (runLoggerOp_offline (OpLog stack level packageName message context)). Qed.

Lemma newDate_offline : preserves (offlineFrame env) (newDate env).
Proof. offline. Qed.

Lemma runRegistryOp_offline op : preserves (offlineFrame env) (runRegistryOp env op).
Proof. apply runRegistryOp_preserves; first [apply Log_offline | offline]. Qed.

Lemma pageLoad_offline found : preserves (offlineFrame env) (pageLoad env found).
Proof.
  unfold pageLoad. apply preserves_bind; [apply offlineFrame_trans | |].
  - apply preserves_modify. intros w _. repeat split; simpl; auto. intros x [].
  - intros _. apply loadFromStorage_preserves; first [apply Log_offline | offline].
Qed.

Lemma renderDetails_offline st :
  preserves (offlineFrame env) (StatisticsPage.renderDetails st).
Proof. apply renderDetails_preserves; offline. Qed.

Lemma runAppOp_offline isBlank op : preserves (offlineFrame env) (runAppOp env isBlank op).
Proof.
  apply runAppOp_preserves;
    first [ apply Log_offline | apply runRegistryOp_offline | apply runLoggerOp_offline
          | apply pageLoad_offline | apply renderDetails_offline | offline ].
Qed.

End Offline.

(** X2: outside a browser ([typeof window === 'undefined']) no step of
    the application, whatever its outcome, writes [localStorage] or
    [sessionStorage] or starts a fetch; and a page load, whatever is
    under the key, leaves the registry empty. *)
Theorem nothing_leaves_the_process_outside_a_browser
    (env : Env) (isBlank : string -> bool) (op : AppOp) (w w' : World) (res : Res unit) :
  window env = false ->
  runAppOp env isBlank op w = (res, w') ->
  localStorage w' = localStorage w /\
  sessionStorage w' = sessionStorage w /\
  (forall x, In x (pending w') -> In x (pending w)) /\
  (forall found, op = AppPageLoad found -> res = Ok tt /\ urls w' = [] /\ pending w' = []).
Proof.
  intros Hw Hrun.
  assert (Hframe := runAppOp_offline env isBlank op).
  destruct (Hframe w res w' Hrun Hw) as (Hl & Hs & Hp).
  split; [exact Hl |]. split; [exact Hs |]. split; [exact Hp |].
  intros found ->. simpl in Hrun. unfold pageLoad, bind, modify, loadFromStorage in Hrun.
  rewrite Hw in Hrun. unfold ret in Hrun. injection Hrun as <- <-. repeat split.
Qed.

Lemma nothing_leaves_the_process_outside_a_browser_witness :
  let server := mkEnv false (fun n => Z.of_nat n) (fun n => n mod 62) (fun _ => "uuid"%string)
                      sampleProtocol (fun _ => true) (fun _ => true) "" "" None in
  let op := AppService (OpCreate 1 (UrlFormData.mk "https://example.com/a" (Integer 5) None)) in
  fst (runAppOp server (fun _ => false) op emptyWorld) = Ok tt /\
  length (urls (snd (runAppOp server (fun _ => false) op emptyWorld))) = 1 /\
  localStorage (snd (runAppOp server (fun _ => false) op emptyWorld)) = None /\
  sessionStorage (snd (runAppOp server (fun _ => false) op emptyWorld)) = None.
Proof.
  intros server op.
  destruct (nothing_leaves_the_process_outside_a_browser server (fun _ => false) op emptyWorld
              (snd (runAppOp server (fun _ => false) op emptyWorld))
              (fst (runAppOp server (fun _ => false) op emptyWorld))
              eq_refl (surjective_pairing _))
    as (Hl & Hs & _).
  split; [reflexivity |]. split; [reflexivity |]. split; [exact Hl | exact Hs].
Defined.

(** ** What one operation does to the registry *)

Section RegistrySteps.
Variable env : Env.

Lemma getUrlByShortcode_found_reads code u w res w' :
  Map_get code (urls w) = Some u ->
  urlService.getUrlByShortcode env code w = (res, w') ->
  dateReads w < dateReads w'.
Proof.
  intros Hget Hrun. unfold urlService.getUrlByShortcode in Hrun.
  unfold bind at 1, get in Hrun. rewrite Hget in Hrun.
  apply (reads_after_newDate env _ _ _ _ Hrun). intros now.
  destruct (now >? ShortenedUrl.expiryDate u)%Z.
  - apply preserves_bind; [apply readsGrow_trans | |].
    + apply preserves_modify. intros w0. unfold readsGrow. simpl. lia.
    + intros _. apply preserves_bind; [apply readsGrow_trans | apply saveToStorage_readsGrow |].
      intros _. apply preserves_bind; [apply readsGrow_trans | apply Log_readsGrow |].
      intros _. apply preserves_ret. apply readsGrow_refl.
  - apply preserves_ret. apply readsGrow_refl.
Qed.

Lemma getAllUrls_reads w res w' :
  urlService.getAllUrls env w = (res, w') -> dateReads w < dateReads w'.
Proof.
  intros Hrun. unfold urlService.getAllUrls in Hrun.
  apply (reads_after_newDate env _ _ _ _ Hrun). intros now.
  apply preserves_bind; [apply readsGrow_trans | apply preserves_get; apply readsGrow_refl |].
  intros w0.
  apply preserves_bind; [apply readsGrow_trans | |].
  - apply forEachUrl_preserves;
      [apply readsGrow_refl | apply readsGrow_trans | apply Log_readsGrow].
  - intros entries. apply preserves_bind; [apply readsGrow_trans | |].
    + apply preserves_modify. intros w1. unfold readsGrow. simpl. lia.
    + intros _. apply preserves_bind; [apply readsGrow_trans | apply saveToStorage_readsGrow |].
      intros _. apply preserves_bind;
        [apply readsGrow_trans | apply preserves_get; apply readsGrow_refl |].
      intros w1. apply preserves_ret. apply readsGrow_refl.
Qed.

Lemma shortenUrl_code_is_new fuel formData w code wg :
  firstViolation env w formData = None ->
  assignCode env fuel formData w = (Ok code, wg) ->
  Map_has code (urls w) = false.
Proof.
  intros Hviol Hpick.
  destruct (assignCode_result env fuel formData w code wg Hpick) as (_ & Hexpl & Hgen).
  destruct (truthy (UrlFormData.preferredShortcode formData)) eqn:Hpref; [| auto].
  destruct (Hexpl eq_refl) as [-> _].
  destruct (firstViolation_None env w formData Hviol) as (_ & Hv2 & _).
  destruct (truthy_orEmpty _ Hpref) as [_ Hne].
  exact (proj2 (validateShortcode_valid w _ Hv2 Hne)).
Qed.

Lemma shortenUrl_step fuel formData w res w' :
  urlService.shortenUrl env fuel formData w = (res, w') ->
  RegistryChange env (OpCreate fuel formData) w w' /\ (storeAccepts env -> savedOrSame w w').
Proof.
  intros Hrun.
  destruct (firstViolation env w formData) as [msg |] eqn:Hviol.
  { rewrite (shortenUrl_violation env fuel formData w msg Hviol) in Hrun.
    injection Hrun as _ <-. split; [apply change_none; reflexivity | left; auto]. }
  destruct (shortenUrl_valid env fuel formData w Hviol) as [Hfine Hdiv].
  destruct (assignCode env fuel formData w) as [[code | e |] wg] eqn:Hpick.
  - destruct (Hfine code wg eq_refl) as (w1 & Hrun1 & Hurls & _ & Hgood).
    rewrite Hrun in Hrun1. injection Hrun1 as _ ->.
    assert (Hnew := shortenUrl_code_is_new fuel formData w code wg Hviol Hpick).
    split.
    + eapply (change_created env _ w w1 fuel formData code); [reflexivity | exact Hnew | | | | |
        rewrite Hurls; apply Map_set_new; exact Hnew]; reflexivity.
    + intros [Hw Hq]. right. apply Hgood; [exact Hw | apply Hq].
  - exfalso. exact (assignCode_no_throw env fuel formData w e wg Hpick).
  - rewrite (Hdiv wg eq_refl) in Hrun. injection Hrun as _ <-.
    unfold assignCode in Hpick. destruct (truthy _); [discriminate |].
    assert (Hu := generateShortcode_urls env fuel w _ wg Hpick).
    assert (Hl : localStorage wg = localStorage w).
    { apply (generateShortcode_preserves env (fun a b => localStorage b = localStorage a))
        with (fuel := fuel) (res := @Diverge string);
        [reflexivity | intros; congruence | | exact Hpick].
      intros w0 res0 w0' [= _ <-]. reflexivity. }
    split; [apply change_none; assumption | left; auto].
Qed.

Lemma getUrlByShortcode_step op code w res w' :
  (op = OpResolve code \/ exists source, op = OpClick code source) ->
  urlService.getUrlByShortcode env code w = (res, w') ->
  RegistryChange env op w w' /\ (storeAccepts env -> savedOrSame w w') /\
  (forall u, res = Ok (Some u) ->
     Map_get code (urls w) = Some u /\
     (clock env (dateReads w) <= ShortenedUrl.expiryDate u)%Z /\
     w' = set_dateReads (S (dateReads w)) w) /\
  (res = Ok None \/ exists u, res = Ok (Some u)).
Proof.
  intros Hop Hrun.
  destruct (Map_get code (urls w)) as [u |] eqn:Hget.
  - destruct (Z.le_gt_cases (clock env (dateReads w)) (ShortenedUrl.expiryDate u))
      as [Hlive | Hexp].
    + rewrite (getUrlByShortcode_live env code u w Hget Hlive) in Hrun.
      injection Hrun as <- <-.
      split; [apply change_none; reflexivity |]. split; [left; auto |].
      split; [intros u0 [= <-]; auto | right; eauto].
    + assert (Hreads := getUrlByShortcode_found_reads code u w res w' Hget Hrun).
      destruct (getUrlByShortcode_expired env code u w Hget ltac:(lia))
        as (w1 & Hrun1 & Hurls & _ & _ & Hgood).
      rewrite Hrun in Hrun1. injection Hrun1 as -> ->.
      split; [eapply change_marked; eauto; lia |].
      split; [intros [Hw Hq]; right; apply Hgood; [exact Hw | apply Hq] |].
      split; [discriminate | left; reflexivity].
  - rewrite (getUrlByShortcode_absent env code w Hget) in Hrun.
    injection Hrun as <- <-.
    split; [apply change_none; reflexivity |]. split; [left; auto |].
    split; [discriminate | left; reflexivity].
Qed.

Lemma recordClick_step code source w res w' :
  urlService.recordClick env code source w = (res, w') ->
  RegistryChange env (OpClick code source) w w' /\ (storeAccepts env -> savedOrSame w w').
Proof.
  intros Hrun.
  destruct (Map_get code (urls w)) as [u |] eqn:Hget.
  - destruct (Z.le_gt_cases (clock env (dateReads w)) (ShortenedUrl.expiryDate u))
      as [Hlive | Hexp].
    + destruct (recordClick_live env code source u w Hget Hlive)
        as (w1 & Hrun1 & Hurls & Hgood & _).
      rewrite Hrun in Hrun1. injection Hrun1 as _ ->.
      split; [eapply (change_clicked env _ w w1 code source);
                [reflexivity | exact Hget | exact Hlive | | exact Hurls]; reflexivity |].
      intros [Hw Hq]. right. apply Hgood; [exact Hw | apply Hq].
    + destruct (urlService.getUrlByShortcode env code w) as [r1 w1] eqn:Hres.
      destruct (getUrlByShortcode_step (OpClick code source) code w r1 w1
                  (or_intror (ex_intro _ source eq_refl)) Hres) as (Hch & Hsave & _ & _).
      destruct (getUrlByShortcode_expired env code u w Hget ltac:(lia))
        as (w2 & Hrun2 & _).
      rewrite Hres in Hrun2. injection Hrun2 as -> ->.
      unfold urlService.recordClick in Hrun. rewrite (bind_Ok _ _ _ _ _ Hres) in Hrun.
      injection Hrun as _ <-. split; assumption.
  - unfold urlService.recordClick in Hrun.
    rewrite (bind_Ok _ _ _ _ _ (getUrlByShortcode_absent env code w Hget)) in Hrun.
    injection Hrun as _ <-. split; [apply change_none; reflexivity | left; auto].
Qed.

Lemma getAllUrls_step w res w' :
  urlService.getAllUrls env w = (res, w') ->
  RegistryChange env OpList w w' /\ (storeAccepts env -> savedOrSame w w').
Proof.
  intros Hrun. assert (Hreads := getAllUrls_reads w res w' Hrun).
  destruct (getAllUrls_spec env w) as (w1 & Hrun1 & Hurls & Hgood).
  rewrite Hrun in Hrun1. injection Hrun1 as _ ->.
  split; [apply change_listed; auto |].
  intros [Hw Hq]. right. apply Hgood; [exact Hw | apply Hq].
Qed.

Lemma deleteUrl_step code w res w' :
  urlService.deleteUrl env code w = (res, w') ->
  RegistryChange env (OpDelete code) w w' /\ (storeAccepts env -> savedOrSame w w').
Proof.
  intros Hrun. destruct (Map_has code (urls w)) eqn:Hhas.
  - destruct (deleteUrl_present env code w Hhas) as (w1 & Hrun1 & Hurls & Hgood).
    rewrite Hrun in Hrun1. injection Hrun1 as _ ->.
    split; [eapply change_deleted; eauto |].
    intros [Hw Hq]. right. apply Hgood; [exact Hw | apply Hq].
  - unfold urlService.deleteUrl in Hrun. unfold bind at 1, get in Hrun.
    unfold bind at 1, modify in Hrun.
    rewrite Hhas, (Map_delete_absent _ _ Hhas), set_urls_same in Hrun.
    injection Hrun as _ <-. split; [apply change_none; reflexivity | left; auto].
Qed.

Lemma clearAllUrls_spec w :
  exists w',
    urlService.clearAllUrls env w = (Ok tt, w') /\ urls w' = [] /\
    (window env = true -> localQuota env [] = true -> localStorage w' = Some []) /\
    (window env = false -> localStorage w' = localStorage w).
Proof.
  unfold urlService.clearAllUrls. unfold bind at 1, modify.
  destruct (saveToStorage_spec env (set_urls [] w))
    as (w1 & Hrun1 & [Fu1 _ _] & _ & Hgood & Hoff & _).
  rewrite (bind_Ok _ _ _ _ _ Hrun1). unfold logger.info.
  match goal with |- context [logger.Log env ?a ?b ?c ?d ?e ?v] =>
    destruct (Log_spec env a b c d e v) as (w2 & Hrun2 & [Fu2 Fl2 _ _] & _)
  end.
  exists w2. split; [exact Hrun2 |]. split; [rewrite Fu2, Fu1; reflexivity |].
  rewrite Fl2. split; [exact Hgood |]. intros Hw. rewrite (Hoff Hw). reflexivity.
Qed.

Lemma clearAllUrls_step w res w' :
  urlService.clearAllUrls env w = (res, w') ->
  RegistryChange env OpClear w w' /\ (storeAccepts env -> savedOrSame w w').
Proof.
  intros Hrun. destruct (clearAllUrls_spec w) as (w1 & Hrun1 & Hurls & Hgood & _).
  rewrite Hrun in Hrun1. injection Hrun1 as _ ->.
  split; [apply change_cleared; [reflexivity | exact Hurls] |].
  intros [Hw Hq]. right. rewrite Hurls. apply Hgood; [exact Hw | apply Hq].
Qed.

Lemma runRegistryOp_step op w res w' :
  runRegistryOp env op w = (res, w') ->
  RegistryChange env op w w' /\ (storeAccepts env -> savedOrSame w w').
Proof.
  destruct op as [fuel formData | code | code source | | code |]; simpl; unfold bind.
  - destruct (urlService.shortenUrl env fuel formData w) as [r w1] eqn:Hrun.
    intros Hres. assert (w1 = w') as -> by (destruct r; inversion Hres; reflexivity).
    eapply shortenUrl_step; eassumption.
  - destruct (urlService.getUrlByShortcode env code w) as [r w1] eqn:Hrun.
    intros Hres. assert (w1 = w') as -> by (destruct r; inversion Hres; reflexivity).
    destruct (getUrlByShortcode_step (OpResolve code) code w r w' (or_introl eq_refl) Hrun)
      as (H1 & H2 & _).
    split; assumption.
  - destruct (urlService.recordClick env code source w) as [r w1] eqn:Hrun.
    intros Hres. assert (w1 = w') as -> by (destruct r; inversion Hres; reflexivity).
    eapply recordClick_step; eassumption.
  - destruct (urlService.getAllUrls env w) as [r w1] eqn:Hrun.
    intros Hres. assert (w1 = w') as -> by (destruct r; inversion Hres; reflexivity).
    eapply getAllUrls_step; eassumption.
  - destruct (urlService.deleteUrl env code w) as [r w1] eqn:Hrun.
    intros Hres. assert (w1 = w') as -> by (destruct r; inversion Hres; reflexivity).
    eapply deleteUrl_step; eassumption.
  - apply clearAllUrls_step.
Qed.

End RegistrySteps.

(** ** Records keep their identity *)

Lemma Map_get_app_found {V} k (v : V) m m' :
  Map_get k m = Some v -> Map_get k (m ++ m') = Some v.
Proof.
  induction m as [| [k0 v0] rest IH]; simpl; [discriminate |].
  destruct (String.eqb k k0); [auto | exact IH].
Qed.

Lemma Map_get_refreshed now k (m : list (string * ShortenedUrl.t)) :
  Map_get k (map (refreshEntry now) m) = option_map (refreshFlag now) (Map_get k m).
Proof.
  induction m as [| [k0 v0] rest IH]; simpl; [reflexivity |].
  destruct (String.eqb k k0); [reflexivity | exact IH].
Qed.

Lemma Map_set_In {V} k (v : V) m kv :
  In kv (Map_set k v m) -> kv = (k, v) \/ In kv m.
Proof.
  induction m as [| [k0 v0] rest IH]; simpl.
  - intros [<- | []]. left. reflexivity.
  - destruct (String.eqb_spec k k0) as [-> | Hne]; simpl.
    + intros [<- | H]; [left; reflexivity | right; right; exact H].
    + intros [<- | H]; [right; left; reflexivity |].
      destruct (IH H) as [-> | Hin]; [left; reflexivity | right; right; exact Hin].
Qed.

Lemma sameIdentity_refl u : sameIdentity u u.
Proof. repeat split. Qed.

Lemma clicksExtended_refl u : clicksExtended u u.
Proof. exists []. symmetry. apply app_nil_r. Qed.

Lemma sameIdentity_flag b u : sameIdentity u (ShortenedUrl.set_isExpired b u).
Proof. destruct u; repeat split. Qed.

Lemma clicksExtended_flag b u : clicksExtended u (ShortenedUrl.set_isExpired b u).
Proof. exists []. destruct u; simpl. symmetry. apply app_nil_r. Qed.

Lemma sameIdentity_clicks c u : sameIdentity u (ShortenedUrl.set_clicks c u).
Proof. destruct u; repeat split. Qed.

(** X3: no operation of the registry rewrites a stored record. After any
    one of them, whatever its outcome, a record that was stored under a
    key is still stored under it with the same id, URL, shortcode,
    creation and expiry dates, and with its old clicks as a prefix of its
    clicks; or it is gone, and the operation was the [deleteUrl] of that
    key or [clearAllUrls]. *)
Theorem stored_records_keep_identity
    (env : Env) (op : RegistryOp) (w w' : World) (res : Res unit)
    (key : string) (u : ShortenedUrl.t) :
  registryOk w ->
  runRegistryOp env op w = (res, w') ->
  Map_get key (urls w) = Some u ->
  (exists u',
     Map_get key (urls w') = Some u' /\ sameIdentity u u' /\ clicksExtended u u') \/
  (Map_get key (urls w') = None /\ (op = OpDelete key \/ op = OpClear)).
Proof.
  intros [Hnd _] Hrun Hget.
  destruct (runRegistryOp_step env op w res w' Hrun) as [Hchange _].
  destruct Hchange as
    [Hurls _ | fuel formData code r _ _ _ _ _ _ Hurls | code u0 _ Hget0 _ _ Hurls
    | code source u0 c _ Hget0 _ _ Hurls | _ _ Hurls | code Hop _ Hurls | Hop Hurls].
  - left. exists u. rewrite Hurls.
    split; [exact Hget |]. split; [apply sameIdentity_refl | apply clicksExtended_refl].
  - left. exists u. rewrite Hurls.
    split; [apply Map_get_app_found; exact Hget |].
    split; [apply sameIdentity_refl | apply clicksExtended_refl].
  - left. rewrite Hurls. destruct (String.eqb_spec key code) as [-> | Hne].
    + rewrite Hget in Hget0. injection Hget0 as <-.
      eexists. split; [apply Map_get_set_same |].
      split; [apply sameIdentity_flag | apply clicksExtended_flag].
    + exists u. rewrite Map_get_set_other by exact Hne.
      split; [exact Hget |]. split; [apply sameIdentity_refl | apply clicksExtended_refl].
  - left. rewrite Hurls. destruct (String.eqb_spec key code) as [-> | Hne].
    + rewrite Hget in Hget0. injection Hget0 as <-.
      eexists. split; [apply Map_get_set_same |].
      split; [apply sameIdentity_clicks | exists [c]; destruct u; reflexivity].
    + exists u. rewrite Map_get_set_other by exact Hne.
      split; [exact Hget |]. split; [apply sameIdentity_refl | apply clicksExtended_refl].
  - left. rewrite Hurls, Map_get_refreshed, Hget. simpl. eexists. split; [reflexivity |].
    split; [apply sameIdentity_flag | apply clicksExtended_flag].
  - rewrite Hurls. destruct (String.eqb_spec key code) as [-> | Hne].
    + right. split; [apply Map_get_delete_same; exact Hnd | left; exact Hop].
    + left. exists u. rewrite Map_get_delete_other by exact Hne.
      split; [exact Hget |]. split; [apply sameIdentity_refl | apply clicksExtended_refl].
  - right. rewrite Hurls. split; [reflexivity | right; exact Hop].
Qed.

Lemma worldWith_one_registryOk u : registryOk (worldWith [u]).
Proof.
  split.
  - simpl. constructor; [intros [] | constructor].
  - unfold keyedByShortCode. simpl. constructor; [reflexivity | constructor].
Qed.

Lemma stored_records_keep_identity_witness :
  let u := sampleUrl "abc123" 1699999940000 1800000000000 false in
  exists u',
    Map_get "abc123"
      (urls (snd (runRegistryOp browser (OpClick "abc123" "direct") (worldWith [u]))))
    = Some u' /\
    sameIdentity u u' /\ clicksExtended u u'.
Proof.
  intros u.
  destruct (stored_records_keep_identity browser (OpClick "abc123" "direct") (worldWith [u])
              (snd (runRegistryOp browser (OpClick "abc123" "direct") (worldWith [u])))
              (fst (runRegistryOp browser (OpClick "abc123" "direct") (worldWith [u])))
              "abc123" u (worldWith_one_registryOk u) (surjective_pairing _) eq_refl)
    as [H | [_ [H | H]]]; [exact H | discriminate H | discriminate H].
Defined.

(** ** Invariants of a whole session *)

Section SessionInvariants.
Variable env : Env.
Variable isBlank : string -> bool.

(** Entries are honest when each is an old one or honest by itself. *)
Lemma flagsHonest_step w w' :
  flagsHonest env w ->
  dateReads w <= dateReads w' ->
  (forall kv, In kv (urls w') ->
     In kv (urls w) \/
     (ShortenedUrl.isExpired (snd kv) = true ->
      exists n, n < dateReads w' /\ (clock env n > ShortenedUrl.expiryDate (snd kv))%Z)) ->
  flagsHonest env w'.
Proof.
  intros Hh Hd Hin kv Hkv Hflag. destruct (Hin kv Hkv) as [Hold | Hnew].
  - destruct (Hh kv Hold Hflag) as (n & Hn & Hc). exists n. split; [lia | exact Hc].
  - exact (Hnew Hflag).
Qed.

Lemma runRegistryOp_flagsHonest op w res w' :
  flagsHonest env w -> runRegistryOp env op w = (res, w') -> flagsHonest env w'.
Proof.
  intros Hh Hrun.
  assert (Hd := runRegistryOp_readsGrow env op w res w' Hrun). unfold readsGrow in Hd.
  destruct (runRegistryOp_step env op w res w' Hrun) as [Hchange _].
  apply (flagsHonest_step w w' Hh Hd). intros kv Hkv.
  destruct Hchange as
    [Hurls _ | fuel formData code r _ _ _ _ _ Hflag Hurls | code u0 _ Hget0 Hexp Hlt Hurls
    | code source u0 c _ Hget0 _ _ Hurls | _ Hlt Hurls | code _ _ Hurls | _ Hurls];
    rewrite Hurls in Hkv.
  - left. exact Hkv.
  - apply in_app_or in Hkv. destruct Hkv as [Hold | [<- | []]]; [left; exact Hold |].
    right. simpl. rewrite Hflag. discriminate.
  - destruct (Map_set_In _ _ _ _ Hkv) as [-> | Hold]; [| left; exact Hold].
    right. intros _. exists (dateReads w). split; [lia |]. destruct u0; exact Hexp.
  - destruct (Map_set_In _ _ _ _ Hkv) as [-> | Hold]; [| left; exact Hold].
    right. intros Hflag.
    destruct (Hh (code, u0) (Map_get_In _ _ _ Hget0)) as (n & Hn & Hc);
      [destruct u0; exact Hflag |].
    exists n. split; [lia | destruct u0; exact Hc].
  - apply in_map_iff in Hkv. destruct Hkv as ([k u] & <- & _).
    right. simpl. intros Hflag. exists (dateReads w). split; [lia |].
    destruct u; simpl in *. lia.
  - left. eapply Map_delete_incl. exact Hkv.
  - destruct Hkv.
Qed.

Lemma Map_set_key_In {V} k (v : V) m x :
  In x (Map_keys (Map_set k v m)) <-> x = k \/ In x (Map_keys m).
Proof.
  split; [apply Map_set_keys_incl |].
  induction m as [| [k' v'] rest IH]; simpl.
  - intros [-> | []]. left. reflexivity.
  - destruct (String.eqb_spec k k') as [-> | Hne]; simpl.
    + intros [-> | H]; [left; reflexivity | exact H].
    + intros [-> | [-> | H]]; [right; apply IH; left; reflexivity | left; reflexivity |].
      right. apply IH. right. exact H.
Qed.

Lemma stored_elements l :
  loadable (map Stored l) = l /\ allStored (map Stored l) = true.
Proof.
  induction l as [| u rest [IH1 IH2]]; simpl; [split; reflexivity |].
  rewrite IH1. split; [reflexivity | exact IH2].
Qed.

(** The loop of [loadFromStorage] on an array of records. *)
Lemma loadEach_records a : forall w,
  exists w',
    loadEach env (map Stored a) w = (Ok tt, w') /\
    w' = set_dateReads (dateReads w + length a) (set_urls (urls w') w) /\
    (registryOk w -> registryOk w') /\
    (flagsHonest env w -> flagsHonest env w') /\
    (forall k, In k (Map_keys (urls w')) <->
               In k (Map_keys (urls w)) \/ In k (map ShortenedUrl.shortCode a)) /\
    (NoDup (map ShortenedUrl.shortCode a) ->
     (forall u, In u a -> Map_has (ShortenedUrl.shortCode u) (urls w) = false) ->
     urls w' = urls w ++ reloaded env (dateReads w) a).
Proof.
  induction a as [| u rest IH]; intros w; simpl.
  - exists w. split; [reflexivity |].
    split; [rewrite Nat.add_0_r; destruct w; reflexivity |].
    split; [auto |]. split; [auto |].
    split; [intros k; split; [intros H; left; exact H | intros [H | []]; exact H] |].
    intros _ _. symmetry. apply app_nil_r.
  - unfold bind at 1, newDate. unfold bind at 1, modify.
    set (u' := ShortenedUrl.set_isExpired
                 (clock env (dateReads w) >? ShortenedUrl.expiryDate u)%Z u).
    set (w1 := set_urls (Map_set (ShortenedUrl.shortCode u') u' (urls w))
                 (set_dateReads (S (dateReads w)) w)).
    assert (Hcode : ShortenedUrl.shortCode u' = ShortenedUrl.shortCode u)
      by (destruct u; reflexivity).
    destruct (IH w1) as (w' & Hrun & Hw' & Hok & Hh & Hkeys & Hurls).
    exists w'. split; [exact Hrun |].
    split; [rewrite Hw' at 1; simpl; rewrite Nat.add_succ_r; destruct w; reflexivity |].
    split; [| split; [| split]].
    + intros H. apply Hok. eapply (registryOk_set _ u' w); [exact H | reflexivity | reflexivity].
    + intros H. apply Hh. apply (flagsHonest_step w w1 H); [simpl; lia |].
      intros kv Hkv. simpl in Hkv.
      destruct (Map_set_In _ _ _ _ Hkv) as [-> | Hold]; [| left; exact Hold].
      right. simpl. intros Hflag. exists (dateReads w). split; [lia |].
      unfold u' in Hflag. destruct u; simpl in *. lia.
    + intros k. rewrite Hkeys. unfold w1. cbn [urls set_urls].
      rewrite Map_set_key_In, Hcode.
      split; [intros [[-> | H] | H] | intros [H | [<- | H]]]; auto.
    + intros Hnd Hfree. inversion Hnd as [| ? ? Hnotin Hrest]; subst.
      rewrite Hurls; [| exact Hrest |].
      * unfold w1. cbn [urls dateReads set_urls set_dateReads reloaded].
        rewrite Hcode, (Map_set_new _ _ _ (Hfree u (or_introl eq_refl))).
        rewrite <- app_assoc. reflexivity.
      * intros v Hv. unfold w1. cbn [urls set_urls]. rewrite Hcode. rewrite Map_has_set_other.
        -- apply Hfree. right. exact Hv.
        -- intros Heq. apply Hnotin. rewrite <- Heq. apply in_map. exact Hv.
Qed.

(** On any array the loop loads the records before the first element it
    cannot handle, and throws if there is one. *)
Lemma loadEach_prefix a : forall w,
  exists w',
    loadEach env (map Stored (loadable a)) w = (Ok tt, w') /\
    loadEach env a w
    = ((if allStored a then Ok tt else Throw (Error "TypeError")), w').
Proof.
  induction a as [| [u |] rest IH]; intros w; simpl.
  - exists w. split; reflexivity.
  - unfold bind, newDate, modify.
    match goal with |- context [loadEach env (map Stored (loadable rest)) ?w1] =>
      destruct (IH w1) as (w' & Hrun1 & Hrun2)
    end.
    exists w'. split; [exact Hrun1 | exact Hrun2].
  - exists w. split; reflexivity.
Qed.

(** The constructor: what a page load makes of what is under the key. *)
Lemma pageLoad_spec found w0 :
  let item := itemUnderKey found w0 in
  exists w,
    pageLoad env found w0 = (Ok tt, w) /\
    registryOk w /\ flagsHonest env w /\
    localStorage w = localStorage w0 /\
    randomReads w = randomReads w0 /\ uuidReads w = uuidReads w0 /\
    (window env = false -> urls w = [] /\ dateReads w = dateReads w0 /\ logs w = []) /\
    (window env = true ->
     (forall k, In k (Map_keys (urls w)) <->
                In k (map ShortenedUrl.shortCode (itemLoadable item))) /\
     (NoDup (map ShortenedUrl.shortCode (itemLoadable item)) ->
      urls w = reloaded env (dateReads w0) (itemLoadable item)) /\
     (item = NoItem -> logs w = [] /\ dateReads w = dateReads w0) /\
     (item <> NoItem ->
      exists e,
        logs w = [e] /\
        LogEntry.level e = (if loadFails item then Err else Info) /\
        (loadFails item = true ->
         LogEntry.message e = "Failed to load URLs from storage"%string))).
Proof.
  intros item. unfold pageLoad. unfold bind at 1, modify.
  set (w1 := mkWorld [] (localStorage w0) [] "http://localhost:3001/api/logs"
               (sessionStorage w0) [] (dateReads w0) (randomReads w0) (uuidReads w0)).
  assert (Hok1 : registryOk w1) by (split; constructor).
  assert (Hh1 : flagsHonest env w1) by (intros kv []).
  unfold loadFromStorage. destruct (window env) eqn:Hw.
  2:{ exists w1. split; [reflexivity |]. split; [exact Hok1 |]. split; [exact Hh1 |].
      split; [reflexivity |]. split; [reflexivity |]. split; [reflexivity |].
      split; [intros _; repeat split | discriminate]. }
  assert (Hlog : forall stack level packageName message context v,
    registryOk v -> flagsHonest env v -> logs v = [] ->
    exists w3 e,
      logger.Log env stack level packageName message context v = (Ok tt, w3) /\
      registryOk w3 /\ flagsHonest env w3 /\
      urls w3 = urls v /\ localStorage w3 = localStorage v /\
      randomReads w3 = randomReads v /\ uuidReads w3 = uuidReads v /\
      logs w3 = [e] /\ LogEntry.level e = level /\ LogEntry.message e = message).
  { intros stack level packageName message context v Hokv Hhv Hlogs.
    destruct (Log_spec env stack level packageName message context v)
      as (w3 & Hrun3 & [Fu Fl Fr Fi] & Hl3 & Hd3 & _).
    eexists w3, _. split; [exact Hrun3 |].
    split; [apply (registryOk_same v); auto |].
    split.
    { apply (flagsHonest_step v w3 Hhv); [lia |]. intros kv Hkv. left.
      rewrite <- Fu. exact Hkv. }
    split; [exact Fu |]. split; [exact Fl |]. split; [exact Fr |]. split; [exact Fi |].
    split; [rewrite Hl3, Hlogs; reflexivity |]. split; reflexivity. }
  unfold tryCatch, bind at 1, localStorage_getItem.
  change (itemUnderKey found w1) with item.
  destruct item as [| | | a] eqn:Hitem.
  - exists w1. split; [reflexivity |]. split; [exact Hok1 |]. split; [exact Hh1 |].
    split; [reflexivity |]. split; [reflexivity |]. split; [reflexivity |].
    split; [discriminate |]. intros _. simpl.
    split; [intros k; split; intros [] |]. split; [reflexivity |].
    split; [intros _; split; reflexivity | intros H; contradiction H; reflexivity].
  - unfold throw, logger.error.
    match goal with |- context [logger.Log env ?x1 ?x2 ?x3 ?x4 ?x5 ?v] =>
      destruct (Hlog x1 x2 x3 x4 x5 v Hok1 Hh1 eq_refl)
        as (w3 & e & Hrun3 & Hok3 & Hh3 & Fu & Fl & Fr & Fi & Hl3 & Hlevel & Hmessage)
    end.
    rewrite Hrun3. exists w3. split; [reflexivity |]. split; [exact Hok3 |].
    split; [exact Hh3 |]. split; [exact Fl |]. split; [exact Fr |]. split; [exact Fi |].
    split; [discriminate |]. intros _. simpl. rewrite Fu.
    split; [intros k; split; intros [] |]. split; [reflexivity |].
    split; [discriminate |]. intros _. exists e. split; [exact Hl3 |].
    split; [exact Hlevel | intros _; exact Hmessage].
  - unfold throw, logger.error.
    match goal with |- context [logger.Log env ?x1 ?x2 ?x3 ?x4 ?x5 ?v] =>
      destruct (Hlog x1 x2 x3 x4 x5 v Hok1 Hh1 eq_refl)
        as (w3 & e & Hrun3 & Hok3 & Hh3 & Fu & Fl & Fr & Fi & Hl3 & Hlevel & Hmessage)
    end.
    rewrite Hrun3. exists w3. split; [reflexivity |]. split; [exact Hok3 |].
    split; [exact Hh3 |]. split; [exact Fl |]. split; [exact Fr |]. split; [exact Fi |].
    split; [discriminate |]. intros _. simpl. rewrite Fu.
    split; [intros k; split; intros [] |]. split; [reflexivity |].
    split; [discriminate |]. intros _. exists e. split; [exact Hl3 |].
    split; [exact Hlevel | intros _; exact Hmessage].
  - destruct (loadEach_prefix a w1) as (w2 & Hrec & Hrun2).
    destruct (loadEach_records (loadable a) w1)
      as (w2' & Hrec' & Hw2 & Hok2 & Hh2 & Hkeys2 & Hurls2).
    rewrite Hrec in Hrec'. injection Hrec' as <-.
    assert (Hlogs2 : logs w2 = []) by (rewrite Hw2; reflexivity).
    assert (Hframe2 : localStorage w2 = localStorage w0 /\ randomReads w2 = randomReads w0 /\
                      uuidReads w2 = uuidReads w0)
      by (rewrite Hw2; repeat split).
    destruct Hframe2 as (Fl2 & Fr2 & Fi2).
    assert (Hdone : exists w3 e,
      (match (loadEach env a ;;
              logger.info env "UrlService.loadFromStorage" "frontend"
                ("Loaded " ++ natToString (length a) ++ " URLs from storage")%string
                (Some (JObj [("count"%string, JNum (Z.of_nat (length a)))])))%js w1 with
       | (Throw error, w') =>
           logger.error env "UrlService.loadFromStorage" "frontend"
             "Failed to load URLs from storage"
             (Some (JObj [("error"%string, JErr error)])) w'
       | r => r
       end) = (Ok tt, w3) /\
      registryOk w3 /\ flagsHonest env w3 /\
      urls w3 = urls w2 /\ localStorage w3 = localStorage w2 /\
      randomReads w3 = randomReads w2 /\ uuidReads w3 = uuidReads w2 /\
      logs w3 = [e] /\
      LogEntry.level e = (if negb (allStored a) then Err else Info) /\
      (negb (allStored a) = true ->
       LogEntry.message e = "Failed to load URLs from storage"%string)).
    { unfold bind at 1. rewrite Hrun2. unfold logger.info, logger.error.
      destruct (allStored a); cbn [negb];
        match goal with |- context [logger.Log env ?x1 ?x2 ?x3 ?x4 ?x5 ?v] =>
          destruct (Hlog x1 x2 x3 x4 x5 v (Hok2 Hok1) (Hh2 Hh1) Hlogs2)
            as (w3 & e & Hrun3 & Hok3 & Hh3 & Fu & Fl & Fr & Fi & Hl3 & Hlevel & Hmessage)
        end;
        exists w3, e; rewrite Hrun3;
        (split; [reflexivity |]); (split; [exact Hok3 |]); (split; [exact Hh3 |]);
        (split; [exact Fu |]); (split; [exact Fl |]); (split; [exact Fr |]);
        (split; [exact Fi |]); (split; [exact Hl3 |]);
        (split; [exact Hlevel | first [discriminate | intros _; exact Hmessage]]). }
    destruct Hdone as (w3 & e & Hrun3 & Hok3 & Hh3 & Fu & Fl & Fr & Fi & Hl3 & Hlevel & Hmessage).
    exists w3. split; [exact Hrun3 |]. split; [exact Hok3 |]. split; [exact Hh3 |].
    split; [rewrite Fl; exact Fl2 |]. split; [rewrite Fr; exact Fr2 |].
    split; [rewrite Fi; exact Fi2 |]. split; [discriminate |]. intros _. simpl.
    rewrite Fu. split.
    { intros k. rewrite Hkeys2. split; [intros [[] | H]; exact H | intros H; right; exact H]. }
    split.
    { intros Hnd. rewrite (Hurls2 Hnd); [reflexivity |]. intros u _. reflexivity. }
    split; [discriminate |]. intros _. exists e. split; [exact Hl3 |].
    split; [exact Hlevel | exact Hmessage].
Qed.

Lemma keeps_refl (I : World -> Prop) w : keeps I w w.
Proof. intros H. exact H. Qed.

Lemma keeps_trans (I : World -> Prop) a b c : keeps I a b -> keeps I b c -> keeps I a c.
Proof. unfold keeps. auto. Qed.

(** An invariant of the registry and the clock that every operation of
    the registry and every render keeps is kept by every step of the
    application. *)
Lemma runAppOp_keeps (I : World -> Prop) :
  (forall w w', registryUntouched w w' -> I w -> I w') ->
  (forall op, preserves (keeps I) (runRegistryOp env op)) ->
  (forall found w0 res w, pageLoad env found w0 = (res, w) -> I w) ->
  (forall ref w, I w -> I (StatisticsPage.sortClicks ref w)) ->
  forall op, preserves (keeps I) (runAppOp env isBlank op).
Proof.
  intros Hlogger Hservice Hload Hsort op.
  assert (HloggerOp : forall lop, preserves (keeps I) (runLoggerOp env lop)).
  { intros lop w res w' Hrun. unfold keeps. apply (Hlogger w w').
    exact (runLoggerOp_registryUntouched env lop w res w' Hrun). }
  apply runAppOp_preserves;
    [apply keeps_refl | apply keeps_trans | | | exact Hservice | exact HloggerOp | |].
  - intros stack level packageName message context.
    exact (HloggerOp (OpLog stack level packageName message context)).
  - intros w res w' [= _ <-]. unfold keeps. apply (Hlogger w).
    split; simpl; [reflexivity | lia].
  - intros found w0 res w Hrun _. exact (Hload found w0 res w Hrun).
  - intros st w res w'. unfold StatisticsPage.renderDetails.
    destruct (StatisticsPage.selectedUrl st) as [ref |].
    + intros [= _ <-]. unfold keeps. apply Hsort.
    + intros [= _ <-]. apply keeps_refl.
Qed.

Lemma appRun_keeps (I : World -> Prop) :
  (forall op, preserves (keeps I) (runAppOp env isBlank op)) ->
  forall w w', appRun env isBlank w w' -> I w -> I w'.
Proof.
  intros Hstep w w' Hrun. induction Hrun as [w | op w w1 w2 res _ IH Hop]; [auto |].
  intros H. exact (Hstep op w1 res w2 Hop (IH H)).
Qed.

(** The in-place sort of the dialog changes the clicks of one record. *)
Lemma sortClicks_cases ref w :
  StatisticsPage.sortClicks ref w = w \/
  exists url,
    Map_get ref (urls w) = Some url /\
    StatisticsPage.sortClicks ref w
    = set_urls (Map_set ref
                  (ShortenedUrl.set_clicks
                     (Array_sort StatisticsPage.newestClickFirst (ShortenedUrl.clicks url))
                     url)
                  (urls w)) w.
Proof.
  unfold StatisticsPage.sortClicks, StatisticsPage.deref.
  destruct (Map_get ref (urls w)) as [url |]; [| left; reflexivity].
  destruct (0 <? _); [right; exists url; split; reflexivity | left; reflexivity].
Qed.

Lemma sortClicks_registryOk ref w :
  registryOk w -> registryOk (StatisticsPage.sortClicks ref w).
Proof.
  intros Hok. destruct (sortClicks_cases ref w) as [-> | (url & Hget & ->)]; [exact Hok |].
  eapply registryOk_set; [exact Hok | | reflexivity].
  rewrite (registryOk_get ref url w Hok Hget). destruct url; reflexivity.
Qed.

Lemma sortClicks_flagsHonest ref w :
  flagsHonest env w -> flagsHonest env (StatisticsPage.sortClicks ref w).
Proof.
  intros Hh. destruct (sortClicks_cases ref w) as [-> | (url & Hget & ->)]; [exact Hh |].
  apply (flagsHonest_step w _ Hh); [simpl; lia |].
  intros kv Hkv. simpl in Hkv.
  destruct (Map_set_In _ _ _ _ Hkv) as [-> | Hold]; [| left; exact Hold].
  right. simpl. intros Hflag.
  destruct (Hh (ref, url) (Map_get_In _ _ _ Hget)) as (n & Hn & Hc);
    [destruct url; exact Hflag |].
  exists n. split; [simpl; exact Hn | destruct url; exact Hc].
Qed.

Lemma runAppOp_registryOk op : preserves (keeps registryOk) (runAppOp env isBlank op).
Proof.
  apply runAppOp_keeps.
  - intros w w' [Hu _] H. exact (registryOk_same w w' H Hu).
  - intros rop w res w' Hrun H. exact (runRegistryOp_registryOk env rop w res w' H Hrun).
  - intros found w0 res w Hrun. destruct (pageLoad_spec found w0) as (w1 & Hrun1 & Hok & _).
    rewrite Hrun in Hrun1. injection Hrun1 as _ ->. exact Hok.
  - apply sortClicks_registryOk.
Qed.

Lemma runAppOp_flagsHonest op : preserves (keeps (flagsHonest env)) (runAppOp env isBlank op).
Proof.
  apply runAppOp_keeps.
  - intros w w' [Hu Hd] H. apply (flagsHonest_step w w' H Hd). intros kv Hkv. left.
    rewrite <- Hu. exact Hkv.
  - intros rop w res w' Hrun H. exact (runRegistryOp_flagsHonest rop w res w' H Hrun).
  - intros found w0 res w Hrun.
    destruct (pageLoad_spec found w0) as (w1 & Hrun1 & _ & Hh & _).
    rewrite Hrun in Hrun1. injection Hrun1 as _ ->. exact Hh.
  - apply sortClicks_flagsHonest.
Qed.

End SessionInvariants.

(** X4: constructing the service never fails, whatever is under the
    storage key: nothing, text that does not parse or parses to no
    array, or an array of records (any number of them sharing a
    shortcode) and of elements the loader cannot handle. In a browser
    the registry then holds exactly the shortcodes of the records before
    the first such element, and when the load ended in its [catch] the
    log buffer holds the one error entry for it. And in every world of
    the session that follows, by any steps of the application with any
    outcomes, the registry has no shortcode twice and every record is
    filed under its own [shortCode]. *)
Theorem session_keeps_one_record_per_shortcode
    (env : Env) (isBlank : string -> bool) (found : StoredItem) (w0 w1 w : World)
    (res : Res unit) :
  pageLoad env found w0 = (res, w1) ->
  appRun env isBlank w1 w ->
  res = Ok tt /\
  (window env = true ->
   (forall k, In k (Map_keys (urls w1)) <->
      In k (map ShortenedUrl.shortCode (itemLoadable (itemUnderKey found w0)))) /\
   (loadFails (itemUnderKey found w0) = true ->
    exists e,
      logs w1 = [e] /\ LogEntry.level e = Err /\
      LogEntry.message e = "Failed to load URLs from storage"%string)) /\
  NoDup (Map_keys (urls w)) /\
  (forall key u, Map_get key (urls w) = Some u -> ShortenedUrl.shortCode u = key) /\
  (forall u, In u (Map_values (urls w)) ->
     Map_get (ShortenedUrl.shortCode u) (urls w) = Some u).
Proof.
  intros Hload Hrun.
  destruct (pageLoad_spec env found w0) as (w2 & Hrun2 & Hok2 & _ & _ & _ & _ & _ & Hon).
  rewrite Hload in Hrun2. injection Hrun2 as -> ->.
  assert (Hok : registryOk w)
    by exact (appRun_keeps env isBlank registryOk (runAppOp_registryOk env isBlank)
                w2 w Hrun Hok2).
  split; [reflexivity |]. split.
  { intros Hw. destruct (Hon Hw) as (Hkeys & _ & _ & Hlog). split; [exact Hkeys |].
    intros Hfails. destruct Hlog as (e & Hlogs & Hlevel & Hmessage).
    - intros Hnone. rewrite Hnone in Hfails. discriminate.
    - exists e. split; [exact Hlogs |]. rewrite Hfails in Hlevel.
      split; [exact Hlevel | exact (Hmessage Hfails)]. }
  split; [apply Hok |]. split.
  - intros key u Hget. symmetry. exact (registryOk_get key u w Hok Hget).
  - intros u Hin. destruct Hok as [Hnd Hkeyed].
    apply in_map_iff in Hin. destruct Hin as ([k v] & <- & Hin). simpl.
    unfold keyedByShortCode in Hkeyed. rewrite Forall_forall in Hkeyed.
    assert (Hk : k = ShortenedUrl.shortCode v) by exact (Hkeyed (k, v) Hin).
    rewrite <- Hk. apply Map_get_of_In; assumption.
Qed.

Lemma session_keeps_one_record_per_shortcode_witness :
  let older := sampleUrl "abc123" 1699999940000 1800000000000 false in
  let newer := sampleUrl "abc123" 1699999950000 1800000000000 false in
  let other := sampleUrl "xyz789" 1699999960000 1800000000000 false in
  let found := Parsed [Stored older; Stored newer; Malformed; Stored other] in
  let w1 := snd (pageLoad browser found emptyWorld) in
  let w := snd (runAppOp browser (String.eqb "") (AppService (OpClick "abc123" "direct")) w1) in
  fst (pageLoad browser found emptyWorld) = Ok tt /\
  Map_keys (urls w1) = ["abc123"%string] /\
  map LogEntry.level (logs w1) = [Err] /\
  NoDup (Map_keys (urls w)) /\ length (urls w) = 1.
Proof.
  intros older newer other found w1 w.
  destruct (session_keeps_one_record_per_shortcode browser (String.eqb "") found emptyWorld
              w1 w (fst (pageLoad browser found emptyWorld)))
    as (Hres & Hload & Hnd & _).
  - apply surjective_pairing.
  - apply (run_step browser (String.eqb "") (AppService (OpClick "abc123" "direct")) w1 w1 w
             (fst (runAppOp browser (String.eqb "") (AppService (OpClick "abc123" "direct"))
                     w1)));
      [apply run_done | apply surjective_pairing].
  - split; [exact Hres |]. split; [vm_compute; reflexivity |].
    destruct (Hload eq_refl) as (_ & Hlog). destruct (Hlog eq_refl) as (e & Hl & Hlevel & _).
    split; [rewrite Hl; simpl; rewrite Hlevel; reflexivity |].
    split; [exact Hnd | vm_compute; reflexivity].
Defined.

(** ** The redirect page *)

Section RedirectFacts.
Variable env : Env.

Lemma Log_then_ret {A} (a : A) stack level packageName message context w :
  exists w',
    (logger.Log env stack level packageName message context ;; ret a) w = (Ok a, w') /\
    urls w' = urls w.
Proof.
  destruct (Log_spec env stack level packageName message context w)
    as (w' & Hrun & [Fu _ _ _] & _).
  exists w'. rewrite (bind_Ok _ _ _ _ _ Hrun). split; [reflexivity | exact Fu].
Qed.

(** The only way to the [expired] view. *)
Lemma handleRedirect_expired shortcode referrer view w v w' :
  RedirectPage.handleRedirect env shortcode referrer view w = (Ok v, w') ->
  RedirectPage.status v = RedirectPage.expired ->
  exists u,
    Map_get shortcode (urls w) = Some u /\
    ShortenedUrl.isExpired u = true /\
    (clock env (dateReads w) <= ShortenedUrl.expiryDate u)%Z.
Proof.
  unfold RedirectPage.handleRedirect, logger.warn, logger.info, logger.error.
  unfold bind at 1.
  destruct (urlService.getUrlByShortcode env shortcode w) as [[[u |] | e |] w1] eqn:Hres;
    try discriminate.
  - destruct (getUrlByShortcode_step env (OpResolve shortcode) shortcode w _ w1
                (or_introl eq_refl) Hres) as (_ & _ & Hsome & _).
    destruct (Hsome u eq_refl) as (Hget & Hlive & _).
    destruct (ShortenedUrl.isExpired u) eqn:Hflag.
    + intros _ _. exists u. auto.
    + unfold bind at 1.
      destruct (urlService.recordClick env shortcode _ w1) as [[[|] | e |] w2];
        try discriminate.
      * match goal with |- context [bind (logger.Log env ?a ?b ?c ?d ?e) _ ?w0] =>
          destruct (Log_then_ret
                      (RedirectPage.mkView RedirectPage.redirecting
                         (ShortenedUrl.originalUrl u) (Some (ShortenedUrl.originalUrl u)))
                      a b c d e w0) as (w3 & -> & _)
        end.
        intros [= <- _]. discriminate.
      * match goal with |- context [bind (logger.Log env ?a ?b ?c ?d ?e) _ ?w0] =>
          destruct (Log_then_ret
                      (RedirectPage.mkView RedirectPage.notfound
                         (RedirectPage.originalUrl view) (RedirectPage.location view))
                      a b c d e w0) as (w3 & -> & _)
        end.
        intros [= <- _]. discriminate.
  - match goal with |- context [bind (logger.Log env ?a ?b ?c ?d ?e) _ ?w0] =>
      destruct (Log_then_ret
                  (RedirectPage.mkView RedirectPage.notfound
                     (RedirectPage.originalUrl view) (RedirectPage.location view))
                  a b c d e w0) as (w3 & -> & _)
    end.
    intros [= <- _]. discriminate.
Qed.

End RedirectFacts.



(** X6: on a clock that never runs backwards, the redirect page never
    shows "expired" in a session: whatever was under the storage key
    when the page was loaded and whatever steps the application took
    since, a flagged record is past its date, so the page reports it as
    not found. *)
Theorem redirect_page_never_shows_expired
    (env : Env) (isBlank : string -> bool) (found : StoredItem) (w0 w1 w w' : World)
    (res : Res unit)
    (shortcode : option string) (referrer : string) (view v : RedirectPage.View) :
  clockMonotone env ->
  pageLoad env found w0 = (res, w1) ->
  appRun env isBlank w1 w ->
  RedirectPage.onMount env shortcode referrer view w = (Ok v, w') ->
  RedirectPage.status v <> RedirectPage.expired.
Proof.
  intros Hmono Hload Hrun Hmount Hstatus.
  assert (Hh : flagsHonest env w).
  { apply (appRun_keeps env isBlank (flagsHonest env) (runAppOp_flagsHonest env isBlank)
             w1 w Hrun).
    destruct (pageLoad_spec env found w0) as (w2 & Hrun2 & _ & Hh2 & _).
    rewrite Hload in Hrun2. injection Hrun2 as _ ->. exact Hh2. }
  unfold RedirectPage.onMount in Hmount.
  destruct (negb (truthy shortcode)).
  - injection Hmount as <- _. discriminate.
  - destruct (handleRedirect_expired env _ referrer view w v w' Hmount Hstatus)
      as (u & Hget & Hflag & Hlive).
    destruct (Hh (orEmpty shortcode, u) (Map_get_In _ _ _ Hget) Hflag) as (n & Hn & Hpast).
    simpl in Hpast. assert (Hle := Hmono n (dateReads w) ltac:(lia)). lia.
Qed.

Lemma redirect_page_never_shows_expired_witness :
  let stored :=
    mkWorld [] (Some [sampleUrl "abc123" 0 1800000000000 true]) [] "" None [] 0 0 0 in
  let w1 := snd (pageLoad browser NoItem stored) in
  let shown := RedirectPage.mkView RedirectPage.redirecting "https://example.com/page"
                 (Some "https://example.com/page"%string) in
  fst (RedirectPage.onMount browser (Some "abc123"%string) "" RedirectPage.initialView w1)
  = Ok shown /\
  RedirectPage.status shown <> RedirectPage.expired.
Proof.
  intros stored w1 shown. split; [vm_compute; reflexivity |].
  apply (redirect_page_never_shows_expired browser (fun _ => false) NoItem stored w1 w1
           (snd (RedirectPage.onMount browser (Some "abc123"%string) ""
                   RedirectPage.initialView w1))
           (fst (pageLoad browser NoItem stored)) (Some "abc123"%string) ""
           RedirectPage.initialView shown).
  - intros i j Hij. unfold browser. cbn [clock]. lia.
  - apply surjective_pairing.
  - apply run_done.
  - vm_compute. reflexivity.
Defined.

(** ** What [shortenUrl] creates *)

Lemma chars_alnum c :
  In c (list_ascii_of_string urlService.chars) -> isAlnumChar c = true.
Proof.
  assert (H : forallb isAlnumChar (list_ascii_of_string urlService.chars) = true)
    by (vm_compute; reflexivity).
  rewrite forallb_forall in H. apply H.
Qed.

Lemma overAlphabet_alnum s :
  s <> EmptyString -> overAlphabet s -> isAlphanumeric s = true.
Proof.
  intros Hne Halpha. unfold isAlphanumeric. destruct s as [| c rest]; [contradiction |].
  apply forallb_forall. intros x Hx. apply chars_alnum.
  unfold overAlphabet in Halpha. rewrite Forall_forall in Halpha. apply Halpha. exact Hx.
Qed.

Lemma candidate_wellFormed env pos :
  randomInRange env -> wellFormedShortcode (candidate env pos) = true.
Proof.
  intros Hr. destruct (candidate_shape env pos Hr) as [Hlen Halpha].
  unfold wellFormedShortcode. rewrite Hlen.
  rewrite overAlphabet_alnum; [reflexivity | | exact Halpha].
  intros Heq. rewrite Heq in Hlen. discriminate.
Qed.

Lemma validateValidityMinutes_valid minutes :
  UrlValidationResult.isValid (urlService.validateValidityMinutes minutes) = true ->
  exists z, minutes = Integer z /\ (1 <= z <= 525600)%Z.
Proof.
  destruct minutes as [z |]; simpl; [| discriminate].
  destruct (Z.leb_spec z 0); [discriminate |].
  destruct (Z.ltb_spec 525600 z); [discriminate |].
  intros _. exists z. split; [reflexivity | lia].
Qed.

(** X7: every record [shortenUrl] returns is well formed, whichever way
    its shortcode came about. With a random source that stays in range,
    the shortcode (preferred or generated) is 3 to 20 letters and digits
    and was no key before; the URL passes [validateUrl]; the record
    expires after it was created, a whole number of minutes and at most
    a year (525600 minutes) later; it has no clicks and is not flagged;
    it is appended to the registry as the last record, and from then on
    [validateShortcode] turns its shortcode down as taken. *)
Theorem created_record_is_well_formed
    (env : Env) (fuel : nat) (formData : UrlFormData.t) (w w' : World) (r : ShortenedUrl.t) :
  randomInRange env ->
  urlService.shortenUrl env fuel formData w = (Ok r, w') ->
  wellFormedShortcode (ShortenedUrl.shortCode r) = true /\
  Map_has (ShortenedUrl.shortCode r) (urls w) = false /\
  UrlValidationResult.isValid (urlService.validateUrl env (ShortenedUrl.originalUrl r)) = true /\
  (exists minutes,
     (1 <= minutes <= 525600)%Z /\
     ShortenedUrl.expiryDate r = (ShortenedUrl.createdAt r + minutes * 60000)%Z) /\
  ShortenedUrl.clicks r = [] /\
  ShortenedUrl.isExpired r = false /\
  urls w' = urls w ++ [(ShortenedUrl.shortCode r, r)] /\
  urlService.validateShortcode w' (ShortenedUrl.shortCode r)
  = UrlValidationResult.mk false (Some "This shortcode is already taken"%string).
Proof.
  intros Hr Hrun.
  destruct (firstViolation env w formData) as [msg |] eqn:Hviol.
  { rewrite (shortenUrl_violation env fuel formData w msg Hviol) in Hrun. discriminate. }
  destruct (firstViolation_None env w formData Hviol) as (Hv1 & Hv2 & Hv3).
  destruct (shortenUrl_valid env fuel formData w Hviol) as [Hok Hdiv].
  destruct (assignCode env fuel formData w) as [[code | e |] wg] eqn:Hcode.
  2:{ exfalso. exact (assignCode_no_throw env fuel formData w e wg Hcode). }
  2:{ rewrite (Hdiv wg eq_refl) in Hrun. discriminate. }
  destruct (Hok code wg eq_refl) as (w1 & Hrun1 & Hurls & _).
  rewrite Hrun in Hrun1. injection Hrun1 as -> ->. cbn [ShortenedUrl.shortCode
    ShortenedUrl.originalUrl ShortenedUrl.expiryDate ShortenedUrl.createdAt
    ShortenedUrl.clicks ShortenedUrl.isExpired].
  assert (Hcode' : wellFormedShortcode code = true /\ Map_has code (urls w) = false).
  { destruct (assignCode_result env fuel formData w code wg Hcode) as (_ & Hpref & Hgen).
    destruct (truthy (UrlFormData.preferredShortcode formData)) eqn:Ht.
    - destruct (Hpref eq_refl) as [-> _].
      destruct (truthy_orEmpty _ Ht) as [_ Hne].
      exact (validateShortcode_valid w _ Hv2 Hne).
    - split; [| exact (Hgen eq_refl)].
      unfold assignCode in Hcode. rewrite Ht in Hcode.
      destruct (generateShortcode_result env fuel w code wg Hcode) as (_ & (k & _ & ->) & _).
      apply candidate_wellFormed. exact Hr. }
  destruct Hcode' as [Hwf Hfree].
  destruct (validateValidityMinutes_valid _ Hv3) as (z & Hz & Hrange).
  split; [exact Hwf |]. split; [exact Hfree |]. split; [exact Hv1 |].
  split. { exists z. split; [exact Hrange |]. rewrite Hz. simpl. lia. }
  split; [reflexivity |]. split; [reflexivity |].
  assert (Hurls' : urls w1 = urls w ++ [(code, ShortenedUrl.mk (randomUUID env (uuidReads w))
            (UrlFormData.originalUrl formData) code
            (clock env (dateReads w) + minutesToMs (UrlFormData.validityMinutes formData))
            (clock env (dateReads w)) [] false)]).
  { rewrite Hurls. apply Map_set_new. exact Hfree. }
  split; [exact Hurls' |].
  apply (proj1 (proj2 (validateShortcode_cases w1 code (wellFormed_nonempty code Hwf))));
    [exact Hwf |].
  rewrite Hurls'.
  match goal with |- Map_has code (_ ++ [(code, ?v)]) = true =>
    apply (In_Map_has (code, v))
  end.
  apply in_or_app. right. left. reflexivity.
Qed.

Lemma created_record_is_well_formed_witness :
  let formData := UrlFormData.mk "https://example.com/page" (Integer 30) None in
  let run := urlService.shortenUrl browser 3 formData emptyWorld in
  let r := ShortenedUrl.mk "uuid-0" "https://example.com/page" "abcdef"
             1700001800000 1700000000000 [] false in
  randomInRange browser /\
  fst run = Ok r /\
  urlService.validateShortcode (snd run) "abcdef"
  = UrlValidationResult.mk false (Some "This shortcode is already taken"%string).
Proof.
  intros formData run r.
  assert (Hr : randomInRange browser).
  { intros i. unfold browser. cbn [random]. apply Nat.mod_upper_bound. discriminate. }
  split; [exact Hr |]. split; [vm_compute; reflexivity |].
  destruct (created_record_is_well_formed browser 3 formData emptyWorld (snd run) r Hr)
    as (_ & _ & _ & _ & _ & _ & _ & Htaken).
  - vm_compute. reflexivity.
  - exact Htaken.
Defined.

(** ** Saving and loading again *)

Section RoundTrip.
Variable env : Env.

Lemma shortCode_unflagged l :
  map ShortenedUrl.shortCode (map (ShortenedUrl.set_isExpired false) l)
  = map ShortenedUrl.shortCode l.
Proof.
  rewrite map_map. apply map_ext. intros u. destruct u; reflexivity.
Qed.

Lemma keyed_codes (w : World) :
  keyedByShortCode w -> map ShortenedUrl.shortCode (Map_values (urls w)) = Map_keys (urls w).
Proof.
  unfold keyedByShortCode, Map_values, Map_keys. induction (urls w) as [| kv rest IH];
    intros H; [reflexivity |].
  inversion H as [| ? ? Hkv Hrest]; subst. simpl. rewrite <- Hkv. f_equal. apply IH. exact Hrest.
Qed.

Lemma reloaded_keys a : forall d, Map_keys (reloaded env d a) = map ShortenedUrl.shortCode a.
Proof.
  induction a as [| u rest IH]; intros d; simpl; [reflexivity |]. f_equal. apply IH.
Qed.

Lemma reloaded_values a : forall d,
  map (ShortenedUrl.set_isExpired false) (Map_values (reloaded env d a))
  = map (ShortenedUrl.set_isExpired false) a.
Proof.
  induction a as [| u rest IH]; intros d; simpl; [reflexivity |]. f_equal. apply IH.
Qed.

Lemma reloaded_flags a : forall d u,
  In u (Map_values (reloaded env d a)) ->
  exists n, d <= n < d + length a /\
    ShortenedUrl.isExpired u = (clock env n >? ShortenedUrl.expiryDate u)%Z.
Proof.
  induction a as [| u0 rest IH]; intros d u; simpl; [intros [] |].
  intros [<- | Hin].
  - exists d. split; [lia |]. destruct u0; reflexivity.
  - destruct (IH (S d) u Hin) as (n & Hn & Hflag). exists n. split; [lia | exact Hflag].
Qed.

Lemma stored_saved found w l :
  localStorage w = Some l -> stored found w = Some l.
Proof.
  intros Hl. unfold stored, itemUnderKey. rewrite Hl. simpl.
  destruct (stored_elements l) as [-> ->]. reflexivity.
Qed.

Lemma stored_same found w w' :
  localStorage w' = localStorage w -> stored found w' = stored found w.
Proof. intros Hl. unfold stored, itemUnderKey. rewrite Hl. reflexivity. Qed.

Lemma inSync_codes found w a :
  registryOk w -> stored found w = Some a ->
  map (ShortenedUrl.set_isExpired false) a
  = map (ShortenedUrl.set_isExpired false) (Map_values (urls w)) ->
  NoDup (map ShortenedUrl.shortCode a).
Proof.
  intros [Hnd Hkeyed] _ Hsync.
  rewrite <- shortCode_unflagged, Hsync, shortCode_unflagged, (keyed_codes w Hkeyed).
  exact Hnd.
Qed.

Lemma runRegistryOp_inSync found op w res w' :
  storeAccepts env -> runRegistryOp env op w = (res, w') ->
  inSync found w -> inSync found w'.
Proof.
  intros Hstore Hrun (a & Hstored & Hsync).
  destruct (runRegistryOp_step env op w res w' Hrun) as [_ Hsaved].
  destruct (Hsaved Hstore) as [[Hu Hl] | Hl].
  - exists a. rewrite (stored_same found w w' Hl), Hu. split; assumption.
  - exists (Map_values (urls w')). split; [apply stored_saved; exact Hl | reflexivity].
Qed.

Lemma reachable_inSync found w0 w :
  storeAccepts env -> inSync found w0 -> reachableFrom env w0 w -> inSync found w.
Proof.
  intros Hstore H0. induction 1 as [| op w w' res Hreach IH Hstep]; [exact H0 |].
  eapply runRegistryOp_inSync; eassumption.
Qed.

(** A page load on an array of records that has no shortcode twice. *)
Lemma pageLoad_stored found w0 a :
  window env = true ->
  stored found w0 = Some a ->
  NoDup (map ShortenedUrl.shortCode a) ->
  exists w,
    pageLoad env found w0 = (Ok tt, w) /\
    registryOk w /\
    localStorage w = localStorage w0 /\
    urls w = reloaded env (dateReads w0) a.
Proof.
  intros Hw Hstored Hnd.
  destruct (pageLoad_spec env found w0) as (w & Hrun & Hok & _ & Hl & _ & _ & _ & Hon).
  exists w. split; [exact Hrun |]. split; [exact Hok |]. split; [exact Hl |].
  unfold stored in Hstored.
  destruct (loadFails (itemUnderKey found w0)); [discriminate |].
  injection Hstored as <-. destruct (Hon Hw) as (_ & Hurls & _). apply Hurls. exact Hnd.
Qed.

End RoundTrip.

(** X8: the registry survives a reload. In a browser whose [localStorage]
    takes every write, start a session by a page load on an array of
    records that has no shortcode twice (or on nothing) and run any
    operations of the service, with any outcomes. Then the array under
    the key holds the records of the registry, in the registry's order,
    up to their [isExpired] flags; and a further page load succeeds and
    rebuilds the registry with the same shortcodes in the same order and
    the same records, each flag being recomputed from a clock reading
    taken during that load. *)
Theorem registry_survives_reload
    (env : Env) (found : StoredItem) (a : list ShortenedUrl.t) (w00 w0 w : World)
    (res : Res unit) :
  storeAccepts env ->
  stored found w00 = Some a ->
  NoDup (map ShortenedUrl.shortCode a) ->
  pageLoad env found w00 = (res, w0) ->
  reachableFrom env w0 w ->
  inSync found w /\
  exists w2,
    pageLoad env found w = (Ok tt, w2) /\
    Map_keys (urls w2) = Map_keys (urls w) /\
    map (ShortenedUrl.set_isExpired false) (Map_values (urls w2))
    = map (ShortenedUrl.set_isExpired false) (Map_values (urls w)) /\
    (forall u, In u (Map_values (urls w2)) ->
       exists n, dateReads w <= n /\
         ShortenedUrl.isExpired u = (clock env n >? ShortenedUrl.expiryDate u)%Z).
Proof.
  intros Hstore Hstored Hnd Hload Hreach.
  destruct (pageLoad_stored env found w00 a (proj1 Hstore) Hstored Hnd)
    as (w1 & Hrun1 & Hok1 & Hl1 & Hurls1).
  rewrite Hload in Hrun1. injection Hrun1 as -> ->.
  assert (Hsync1 : inSync found w1).
  { exists a. split; [rewrite (stored_same found w00 w1 Hl1); exact Hstored |].
    rewrite Hurls1, reloaded_values. reflexivity. }
  assert (Hok : registryOk w) by exact (reachable_registryOk env w1 w Hok1 Hreach).
  assert (Hsync : inSync found w) by exact (reachable_inSync env found w1 w Hstore Hsync1 Hreach).
  split; [exact Hsync |].
  destruct Hsync as (a' & Hstored' & Hsync').
  destruct (pageLoad_stored env found w a' (proj1 Hstore) Hstored'
              (inSync_codes found w a' Hok Hstored' Hsync'))
    as (w2 & Hrun2 & _ & _ & Hurls2).
  exists w2. split; [exact Hrun2 |]. rewrite Hurls2. split.
  - rewrite reloaded_keys, <- shortCode_unflagged, Hsync', shortCode_unflagged.
    apply keyed_codes. apply Hok.
  - split; [rewrite reloaded_values; exact Hsync' |].
    intros u Hin. destruct (reloaded_flags env _ _ u Hin) as (n & Hn & Hflag).
    exists n. split; [lia | exact Hflag].
Qed.

Lemma registry_survives_reload_witness :
  let formData := UrlFormData.mk "https://example.com/page" (Integer 30) None in
  let w0 := snd (pageLoad browser NoItem emptyWorld) in
  let w := snd (runRegistryOp browser (OpCreate 3 formData) w0) in
  exists w2,
    pageLoad browser NoItem w = (Ok tt, w2) /\
    Map_keys (urls w2) = ["abcdef"%string].
Proof.
  intros formData w0 w.
  destruct (registry_survives_reload browser NoItem [] emptyWorld w0 w
              (fst (pageLoad browser NoItem emptyWorld)))
    as (_ & w2 & Hrun & Hkeys & _).
  - split; [reflexivity | intros a; reflexivity].
  - reflexivity.
  - constructor.
  - apply surjective_pairing.
  - apply (reach_step browser w0 (OpCreate 3 formData) w0 w
             (fst (runRegistryOp browser (OpCreate 3 formData) w0)));
      [apply reach_start | apply surjective_pairing].
  - exists w2. split; [exact Hrun |]. rewrite Hkeys. vm_compute. reflexivity.
Defined.

(** ** The logger under the whole application *)

Section BuffersEverywhere.
Variable env : Env.
Variable isBlank : string -> bool.


Lemma Log_keeps_bounded stack level packageName message context :
  preserves (keeps buffersBounded)
    (logger.Log env stack level packageName message context).
Proof.
  intros w res w' Hrun [Hl Hs].
  destruct (Log_spec env stack level packageName message context w) as (w1 & Hrun1 & _).
  rewrite Hrun in Hrun1. injection Hrun1 as -> ->.
  exact (Log_bounded env stack level packageName message context w w1 Hrun Hs).
Qed.

Lemma newDate_keeps_bounded : preserves (keeps buffersBounded) (newDate env).
Proof. intros w res w' [= _ <-] Hb. exact Hb. Qed.

Lemma set_urls_keeps_bounded x w : keeps buffersBounded w (set_urls x w).
Proof. intros Hb. exact Hb. Qed.

Lemma setItem_keeps_bounded a : preserves (keeps buffersBounded) (localStorage_setItem env a).
Proof.
  intros w res w' Hrun Hb. unfold localStorage_setItem in Hrun.
  destruct (localQuota env a); injection Hrun as _ <-; exact Hb.
Qed.

Lemma runRegistryOp_keeps_bounded op :
  preserves (keeps buffersBounded) (runRegistryOp env op).
Proof.
  apply runRegistryOp_preserves.
  - apply keeps_refl.
  - apply keeps_trans.
  - apply Log_keeps_bounded.
  - apply newDate_keeps_bounded.
  - intros w res w' [= _ <-] Hb. exact Hb.
  - intros w res w' [= _ <-] Hb. exact Hb.
  - apply set_urls_keeps_bounded.
  - intros _. apply setItem_keeps_bounded.
Qed.

Lemma runLoggerOp_keeps_bounded op :
  preserves (keeps buffersBounded) (runLoggerOp env op).
Proof.
  intros w res w' Hrun Hb.
  destruct (runLoggerOp_bounded env op w Hb) as (w1 & Hrun1 & Hb1 & _).
  rewrite Hrun in Hrun1. injection Hrun1 as _ ->. exact Hb1.
Qed.

Lemma pageLoad_keeps_bounded found :
  preserves (keeps buffersBounded) (pageLoad env found).
Proof.
  unfold pageLoad. apply preserves_bind; [apply keeps_trans | |].
  - apply preserves_modify. intros w [Hl Hs]. split; [simpl; lia | exact Hs].
  - intros _. apply loadFromStorage_preserves.
    + apply keeps_refl.
    + apply keeps_trans.
    + apply Log_keeps_bounded.
    + apply newDate_keeps_bounded.
    + apply set_urls_keeps_bounded.
    + intros _. apply setItem_keeps_bounded.
Qed.

Lemma runAppOp_keeps_bounded op :
  preserves (keeps buffersBounded) (runAppOp env isBlank op).
Proof.
  apply runAppOp_preserves.
  - apply keeps_refl.
  - apply keeps_trans.
  - apply Log_keeps_bounded.
  - apply newDate_keeps_bounded.
  - apply runRegistryOp_keeps_bounded.
  - apply runLoggerOp_keeps_bounded.
  - apply pageLoad_keeps_bounded.
  - intros st. apply renderDetails_preserves;
      [apply keeps_refl | apply set_urls_keeps_bounded].
Qed.

(** A run of [Log] calls starts one delivery per call, in call order, to
    the endpoint configured when it starts. *)
Lemma logAll_pending calls : forall w,
  exists w' es,
    logAll env calls w = (Ok tt, w') /\
    map callOf es = calls /\
    map LogEntry.timestamp es = map (clock env) (seq (dateReads w) (length calls)) /\
    dateReads w' = dateReads w + length calls /\
    testServerEndpoint w' = testServerEndpoint w /\
    pending w' = (if window env then pending w ++ map (pair (testServerEndpoint w)) es
                  else pending w) /\
    (length (logs w) <= 1000 -> logs w' = sliceLast 1000 (logs w ++ es)).
Proof.
  induction calls as [| c rest IH]; intros w; simpl.
  - exists w, []. split; [reflexivity |]. split; [reflexivity |]. split; [reflexivity |].
    split; [lia |]. split; [reflexivity |].
    split; [destruct (window env); [rewrite app_nil_r |]; reflexivity |].
    intros Hl. rewrite app_nil_r. symmetry. apply sliceLast_short. exact Hl.
  - destruct (Log_spec env (call_stack c) (call_level c) (call_package c) (call_message c)
                (call_context c) w)
      as (w1 & Hrun1 & _ & Hlogs & Hd1 & He1 & Hp1 & _).
    destruct (IH w1) as (w2 & es & Hrun2 & Hmap & Htime & Hd2 & He2 & Hp2 & Hl2).
    exists w2.
    exists (LogEntry.mk (clock env (dateReads w)) (call_stack c) (call_level c)
              (call_package c) (call_message c) (call_context c) :: es).
    rewrite (bind_Ok _ _ _ _ _ Hrun1). split; [exact Hrun2 |].
    split; [simpl; rewrite Hmap; destruct c; reflexivity |].
    split; [simpl; rewrite Htime, Hd1; reflexivity |].
    split; [rewrite Hd2, Hd1; lia |].
    split; [rewrite He2; exact He1 |].
    split.
    + rewrite Hp2, Hp1, He1. destruct (window env); [| reflexivity].
      rewrite <- app_assoc. reflexivity.
    + intros _. rewrite Hl2.
      * rewrite Hlogs, sliceLast_app, <- app_assoc. reflexivity.
      * rewrite Hlogs, sliceLast_length. lia.
Qed.

End BuffersEverywhere.

(** X9: the logger's buffers stay bounded under the whole application.
    From a world whose primary buffer holds at most 1000 entries and
    whose session store holds at most 100, whatever steps the application
    takes (service calls, logger calls, deliveries ending, page loads,
    the handlers of the three components) and whatever their outcomes,
    both bounds still hold. *)
Theorem buffers_stay_bounded_in_every_run
    (env : Env) (isBlank : string -> bool) (w w' : World) :
  buffersBounded w ->
  appRun env isBlank w w' ->
  length (logs w') <= 1000 /\ length (sessionEntries w') <= 100.
Proof.
  intros Hb Hrun.
  exact (appRun_keeps env isBlank buffersBounded (runAppOp_keeps_bounded env isBlank)
           w w' Hrun Hb).
Qed.

Lemma buffers_stay_bounded_in_every_run_witness :
  let formData := UrlFormData.mk "https://example.com/page" (Integer 30) None in
  let w := snd (runAppOp browser (fun _ => false) (AppService (OpCreate 3 formData))
                  emptyWorld) in
  length (logs w) <= 1000 /\ length (sessionEntries w) <= 100.
Proof.
  intros formData w.
  apply (buffers_stay_bounded_in_every_run browser (fun _ => false) emptyWorld w).
  - split; simpl; lia.
  - apply (run_step browser (fun _ => false) (AppService (OpCreate 3 formData))
             emptyWorld emptyWorld w
             (fst (runAppOp browser (fun _ => false) (AppService (OpCreate 3 formData))
                     emptyWorld)));
      [apply run_done | apply surjective_pairing].
Defined.

(** X10: a change of endpoint affects later deliveries only, and clearing
    the buffers cancels none. In a browser, after a run of [Log] calls,
    then [clearLogs] and [setTestServerEndpoint], then a second run of
    [Log] calls, the deliveries in flight are the old ones, then one per
    call of the first run addressed to the old endpoint, then one per
    call of the second run addressed to the new endpoint, each carrying
    its call's entry; the primary buffer holds the entries of the second
    run only. *)
Theorem endpoint_change_affects_later_deliveries_only
    (env : Env) (endpoint : string) (before after : list LogCall) (w : World) :
  window env = true ->
  length after <= 1000 ->
  exists w' es1 es2,
    (logAll env before ;; logger.clearLogs env ;;
     logger.setTestServerEndpoint endpoint ;; logAll env after)%js w = (Ok tt, w') /\
    map callOf es1 = before /\
    map callOf es2 = after /\
    pending w'
    = pending w ++ map (pair (testServerEndpoint w)) es1 ++ map (pair endpoint) es2 /\
    logs w' = es2.
Proof.
  intros Hw Hlen.
  destruct (logAll_pending env before w)
    as (w1 & es1 & Hrun1 & Hmap1 & _ & _ & He1 & Hp1 & _).
  set (w2 := set_testServerEndpoint endpoint (set_sessionStorage None (set_logs [] w1))).
  destruct (logAll_pending env after w2)
    as (w3 & es2 & Hrun3 & Hmap2 & _ & _ & _ & Hp3 & Hl3).
  exists w3, es1, es2. rewrite (bind_Ok _ _ _ _ _ Hrun1).
  assert (Hmid : (logger.clearLogs env ;; logger.setTestServerEndpoint endpoint ;;
                  logAll env after)%js w1 = logAll env after w2).
  { unfold logger.clearLogs, logger.setTestServerEndpoint, bind, modify. rewrite Hw.
    reflexivity. }
  rewrite Hmid. split; [exact Hrun3 |]. split; [exact Hmap1 |]. split; [exact Hmap2 |].
  rewrite Hw in Hp1, Hp3. split.
  - rewrite Hp3. unfold w2. cbn [pending testServerEndpoint set_testServerEndpoint
      set_sessionStorage set_logs]. rewrite Hp1, <- app_assoc. reflexivity.
  - rewrite Hl3; [| simpl; lia]. simpl. apply sliceLast_short.
    rewrite <- (length_map callOf), Hmap2. exact Hlen.
Qed.

Lemma endpoint_change_affects_later_deliveries_only_witness :
  let first := mkLogCall "s1" Info "frontend" "one" None in
  let second := mkLogCall "s2" Warn "frontend" "two" None in
  exists w' e1 e2,
    (logAll browser [first] ;; logger.clearLogs browser ;;
     logger.setTestServerEndpoint "http://collector/logs" ;;
     logAll browser [second])%js emptyWorld = (Ok tt, w') /\
    pending w' = [("http://localhost:3001/api/logs"%string, e1);
                  ("http://collector/logs"%string, e2)] /\
    callOf e1 = first /\ callOf e2 = second.
Proof.
  intros first second.
  destruct (endpoint_change_affects_later_deliveries_only browser "http://collector/logs"
              [first] [second] emptyWorld)
    as (w' & es1 & es2 & Hrun & Hmap1 & Hmap2 & Hp & _).
  - reflexivity.
  - simpl. lia.
  - destruct es1 as [| e1 [| ? ?]]; try discriminate.
    destruct es2 as [| e2 [| ? ?]]; try discriminate.
    exists w', e1, e2. split; [exact Hrun |]. split; [exact Hp |].
    split; [exact (f_equal (hd first) Hmap1) | exact (f_equal (hd second) Hmap2)].
Defined.

(** ** The form *)

Section FormFacts.
Variable env : Env.
Variable isBlank : string -> bool.

Lemma Map_set_length {V} k (v : V) m : length m <= length (Map_set k v m).
Proof.
  induction m as [| [k' v'] rest IH]; simpl; [lia |].
  destruct (String.eqb k k'); simpl; lia.
Qed.

Lemma Map_set_nonempty {V} k (v : V) m : 0 < length (Map_set k v m).
Proof. destruct m as [| [k' v'] rest]; simpl; [lia |]. destruct (String.eqb k k'); simpl; lia. Qed.

Lemma collectErrors_grows w rows : forall acc,
  length acc <= length (UrlShortenerForm.collectErrors env isBlank w rows acc).
Proof.
  induction rows as [| row rest IH]; intros acc; simpl; [lia |].
  destruct (UrlShortenerForm.rowError env isBlank w row) as [message |].
  - eapply Nat.le_trans; [apply (Map_set_length (UrlShortenerForm.id row) message) | apply IH].
  - apply IH.
Qed.

Lemma collectErrors_clean w rows acc :
  Forall (fun row => UrlShortenerForm.rowError env isBlank w row = None) rows ->
  UrlShortenerForm.collectErrors env isBlank w rows acc = acc.
Proof.
  induction 1 as [| row rest Hrow _ IH]; simpl; [reflexivity |]. rewrite Hrow. exact IH.
Qed.

Lemma collectErrors_rejects w rows : forall acc row,
  In row rows ->
  UrlShortenerForm.rowError env isBlank w row <> None ->
  0 < length (UrlShortenerForm.collectErrors env isBlank w rows acc).
Proof.
  induction rows as [| row0 rest IH]; intros acc row Hin Herr; [destruct Hin |].
  simpl. destruct Hin as [-> | Hin].
  - destruct (UrlShortenerForm.rowError env isBlank w row) as [message |]; [| congruence].
    eapply Nat.lt_le_trans; [apply (Map_set_nonempty (UrlShortenerForm.id row) message acc) |].
    apply collectErrors_grows.
  - eapply IH; eassumption.
Qed.

Lemma collectErrors_get_other w rows : forall acc k,
  ~ In k (map UrlShortenerForm.id rows) ->
  Map_get k (UrlShortenerForm.collectErrors env isBlank w rows acc) = Map_get k acc.
Proof.
  induction rows as [| row rest IH]; intros acc k Hnotin; simpl; [reflexivity |].
  simpl in Hnotin. rewrite IH by tauto.
  destruct (UrlShortenerForm.rowError env isBlank w row) as [message |]; [| reflexivity].
  apply Map_get_set_other. intros Heq. apply Hnotin. left. symmetry. exact Heq.
Qed.

Lemma collectErrors_get w rows : forall acc,
  NoDup (map UrlShortenerForm.id rows) ->
  forall row, In row rows ->
    Map_get (UrlShortenerForm.id row) (UrlShortenerForm.collectErrors env isBlank w rows acc)
    = match UrlShortenerForm.rowError env isBlank w row with
      | Some message => Some message
      | None => Map_get (UrlShortenerForm.id row) acc
      end.
Proof.
  induction rows as [| row0 rest IH]; intros acc Hnd row Hin; [destruct Hin |].
  simpl in Hnd. inversion Hnd as [| ? ? Hnotin Hrest]; subst. simpl.
  destruct Hin as [-> | Hin].
  - rewrite collectErrors_get_other by exact Hnotin.
    destruct (UrlShortenerForm.rowError env isBlank w row) as [message |]; [| reflexivity].
    apply Map_get_set_same.
  - rewrite (IH _ Hrest row Hin).
    destruct (UrlShortenerForm.rowError env isBlank w row) as [message |]; [reflexivity |].
    destruct (UrlShortenerForm.rowError env isBlank w row0) as [message0 |]; [| reflexivity].
    apply Map_get_set_other. intros Heq. apply Hnotin. rewrite <- Heq.
    apply in_map. exact Hin.
Qed.

Lemma explicitRow_passes w row :
  explicitRow env isBlank w row -> UrlShortenerForm.rowError env isBlank w row = None.
Proof.
  intros (Hblank & Hurl & Hmin & Hwf & Hfree). unfold UrlShortenerForm.rowError.
  rewrite Hblank, Hurl. cbn [negb]. fold (codeOf row).
  rewrite (wellFormed_valid_when_free w (codeOf row) Hwf Hfree). cbn [negb UrlValidationResult.isValid].
  rewrite Hmin. reflexivity.
Qed.

Lemma explicitRow_formData w row :
  explicitRow env isBlank w row ->
  UrlFormData.preferredShortcode (UrlShortenerForm.formDataOf row) = Some (codeOf row).
Proof.
  intros (_ & _ & _ & Hwf & _). assert (Hne := wellFormed_nonempty _ Hwf).
  unfold UrlShortenerForm.formDataOf, codeOf in *. simpl.
  destruct (UrlShortenerForm.preferredShortcode row) as [[| c s] |]; simpl in *;
    congruence.
Qed.

Lemma Map_has_snoc_other {V} k k' (v : V) m :
  k <> k' -> Map_has k' m = false -> Map_has k (m ++ [(k', v)]) = Map_has k m.
Proof.
  intros Hne Hfree. rewrite <- (Map_set_new k' v m Hfree). apply Map_has_set_other. exact Hne.
Qed.

(** One round of the loop of [handleSubmit] on a row that is created. *)
Lemma submitRows_created fuel row rest acc errs w r w1 :
  urlService.shortenUrl env fuel (UrlShortenerForm.formDataOf row) w = (Ok r, w1) ->
  UrlShortenerForm.submitRows env fuel (row :: rest) acc errs w
  = UrlShortenerForm.submitRows env fuel rest (acc ++ [(row, r)]) errs w1.
Proof.
  intros Hrun. cbn [UrlShortenerForm.submitRows]. unfold bind at 1, tryCatch.
  rewrite (bind_Ok _ _ _ _ _ Hrun). reflexivity.
Qed.

(** One round on a row that [shortenUrl] turns down. *)
Lemma submitRows_refused fuel row rest acc errs w message :
  urlService.shortenUrl env fuel (UrlShortenerForm.formDataOf row) w
  = (Throw (Error message), w) ->
  UrlShortenerForm.submitRows env fuel (row :: rest) acc errs w
  = UrlShortenerForm.submitRows env fuel rest acc
      (Map_set (UrlShortenerForm.id row) message errs) w.
Proof.
  intros Hrun. cbn [UrlShortenerForm.submitRows]. unfold bind at 1, tryCatch.
  unfold bind at 1. rewrite Hrun. reflexivity.
Qed.

Lemma submitRows_all fuel rows : forall w acc errs,
  Forall (explicitRow env isBlank w) rows ->
  NoDup (map codeOf rows) ->
  exists created w',
    UrlShortenerForm.submitRows env fuel rows acc errs w
    = (Ok (acc ++ combine rows created, errs), w') /\
    length created = length rows /\
    map ShortenedUrl.shortCode created = map codeOf rows /\
    map ShortenedUrl.originalUrl created = map UrlShortenerForm.originalUrl rows /\
    urls w' = urls w ++ map (fun s => (ShortenedUrl.shortCode s, s)) created.
Proof.
  induction rows as [| row rest IH]; intros w acc errs Hrows Hnd.
  - exists [], w. simpl. rewrite !app_nil_r. repeat split; reflexivity.
  - inversion Hrows as [| ? ? Hrow Hrest]; subst.
    inversion Hnd as [| ? ? Hnotin Hnd']; subst.
    assert (Hrow' := Hrow). destruct Hrow' as (_ & Hurl & Hmin & Hwf & Hfree).
    destruct (shortenUrl_explicit env fuel (UrlShortenerForm.formDataOf row) (codeOf row) w
                (explicitRow_formData w row Hrow) Hwf Hfree Hurl Hmin)
      as (r & w1 & Hrun & Hcode & Horig & _ & _ & Hurls).
    rewrite (submitRows_created fuel row rest acc errs w r w1 Hrun).
    assert (Hrest1 : Forall (explicitRow env isBlank w1) rest).
    { rewrite Forall_forall in *. intros row' Hin.
      destruct (Hrest row' Hin) as (H1 & H2 & H3 & H4 & H5).
      repeat split; try assumption. rewrite Hurls, Map_has_snoc_other; [exact H5 | | exact Hfree].
      intros Heq. apply Hnotin. rewrite <- Heq. apply in_map. exact Hin. }
    destruct (IH w1 (acc ++ [(row, r)]) errs Hrest1 Hnd')
      as (created & w' & Hrun' & Hlen & Hcodes & Horigs & Hurls').
    exists (r :: created), w'. rewrite Hrun'. simpl. rewrite <- app_assoc. simpl.
    split; [reflexivity |]. split; [rewrite Hlen; reflexivity |].
    split; [rewrite Hcode, Hcodes; reflexivity |].
    split; [rewrite Horig, Horigs; reflexivity |].
    rewrite Hurls', Hurls, <- app_assoc, Hcode. reflexivity.
Qed.

End FormFacts.

(** X11: a form with a row that fails a check creates nothing. When some
    row of the form has an error (no URL, a URL, shortcode or validity
    that the service's validators turn down), [handleSubmit] returns
    without touching the world, so not even the rows that pass are
    created; the rows, the results shown and the loading flag are as
    before and the error object is not empty. If no two rows share an
    id, the error object holds for every row exactly the error of that
    row, and nothing for a row without one. *)
Theorem rejected_form_creates_nothing
    (env : Env) (isBlank : string -> bool) (fuel : nat)
    (st : UrlShortenerForm.State) (w : World) (bad : UrlShortenerForm.UrlRow) :
  In bad (UrlShortenerForm.urlRows st) ->
  UrlShortenerForm.rowError env isBlank w bad <> None ->
  exists st',
    UrlShortenerForm.handleSubmit env isBlank fuel st w = (Ok st', w) /\
    UrlShortenerForm.urlRows st' = UrlShortenerForm.urlRows st /\
    UrlShortenerForm.shortenedUrls st' = UrlShortenerForm.shortenedUrls st /\
    UrlShortenerForm.isLoading st' = UrlShortenerForm.isLoading st /\
    UrlShortenerForm.errors st' <> [] /\
    (NoDup (map UrlShortenerForm.id (UrlShortenerForm.urlRows st)) ->
     forall row, In row (UrlShortenerForm.urlRows st) ->
       Map_get (UrlShortenerForm.id row) (UrlShortenerForm.errors st')
       = UrlShortenerForm.rowError env isBlank w row).
Proof.
  intros Hin Hbad.
  assert (Hlen := collectErrors_rejects env isBlank w (UrlShortenerForm.urlRows st) [] bad
                    Hin Hbad).
  unfold UrlShortenerForm.handleSubmit, bind, get, UrlShortenerForm.validateForm.
  unfold Map_keys. rewrite length_map.
  destruct (Nat.eqb_spec
              (length (UrlShortenerForm.collectErrors env isBlank w
                         (UrlShortenerForm.urlRows st) [])) 0) as [Hz | _]; [lia |].
  cbn [negb]. eexists. split; [reflexivity |]. cbn [UrlShortenerForm.urlRows
    UrlShortenerForm.shortenedUrls UrlShortenerForm.isLoading UrlShortenerForm.errors].
  split; [reflexivity |]. split; [reflexivity |]. split; [reflexivity |]. split.
  - intros Heq. rewrite Heq in Hlen. simpl in Hlen. lia.
  - intros Hnd row Hrow.
    rewrite (collectErrors_get env isBlank w _ [] Hnd row Hrow).
    destruct (UrlShortenerForm.rowError env isBlank w row); reflexivity.
Qed.

Lemma rejected_form_creates_nothing_witness :
  let good := UrlShortenerForm.mkRow "1" "https://example.com/page" (Integer 30)
                (Some "abc123"%string) in
  let bad := UrlShortenerForm.mkRow "2" "ftp://example.com/file" (Integer 30)
               (Some ""%string) in
  let st := UrlShortenerForm.mkState [good; bad] [] [] false in
  exists st',
    UrlShortenerForm.handleSubmit browser (String.eqb "") 3 st emptyWorld
    = (Ok st', emptyWorld) /\
    UrlShortenerForm.errors st' = [("2"%string, "URL must use HTTP or HTTPS protocol"%string)].
Proof.
  intros good bad st.
  destruct (rejected_form_creates_nothing browser (String.eqb "") 3 st emptyWorld bad)
    as (st' & Hrun & _).
  - right. left. reflexivity.
  - vm_compute. discriminate.
  - exists st'. split; [exact Hrun |].
    assert (Hst : fst (UrlShortenerForm.handleSubmit browser (String.eqb "") 3 st emptyWorld)
                  = Ok st') by (rewrite Hrun; reflexivity).
    vm_compute in Hst. injection Hst as <-. reflexivity.
Defined.

(** X12: a batch of rows that all pass and ask for pairwise different
    shortcodes of their own, none of them a key of the registry, is
    created as a whole. [handleSubmit] returns; the results shown pair
    each row, in order, with a record that has the row's shortcode and
    URL; the registry has gained exactly these records, in row order,
    after the ones it had; no error is kept; and the form is reset to a
    single blank row whose id is the clock reading taken after the last
    creation. *)
Theorem batch_with_distinct_shortcodes_is_created
    (env : Env) (isBlank : string -> bool) (fuel : nat)
    (st : UrlShortenerForm.State) (w : World) :
  Forall (explicitRow env isBlank w) (UrlShortenerForm.urlRows st) ->
  NoDup (map codeOf (UrlShortenerForm.urlRows st)) ->
  exists created w',
    UrlShortenerForm.handleSubmit env isBlank fuel st w
    = (Ok (UrlShortenerForm.mkState
             [UrlShortenerForm.emptyRow (intToString (clock env (dateReads w')))]
             (combine (UrlShortenerForm.urlRows st) created) [] false),
       set_dateReads (S (dateReads w')) w') /\
    length created = length (UrlShortenerForm.urlRows st) /\
    map ShortenedUrl.shortCode created = map codeOf (UrlShortenerForm.urlRows st) /\
    map ShortenedUrl.originalUrl created
    = map UrlShortenerForm.originalUrl (UrlShortenerForm.urlRows st) /\
    urls w' = urls w ++ map (fun s => (ShortenedUrl.shortCode s, s)) created.
Proof.
  intros Hrows Hnd.
  assert (Hclean : UrlShortenerForm.collectErrors env isBlank w
                     (UrlShortenerForm.urlRows st) [] = []).
  { apply collectErrors_clean. rewrite Forall_forall in *. intros row Hin.
    apply explicitRow_passes. apply Hrows. exact Hin. }
  destruct (submitRows_all env isBlank fuel (UrlShortenerForm.urlRows st) w [] [] Hrows Hnd)
    as (created & w' & Hrun & Hlen & Hcodes & Horigs & Hurls).
  exists created, w'.
  split; [| repeat split; assumption].
  unfold UrlShortenerForm.handleSubmit. unfold bind at 1, get.
  unfold UrlShortenerForm.validateForm. rewrite Hclean. cbn [Map_keys map length Nat.eqb negb
    UrlShortenerForm.urlRows UrlShortenerForm.errors].
  unfold tryCatch. rewrite (bind_Ok _ _ _ _ _ Hrun). cbn [app].
  rewrite length_combine, Hlen, Nat.min_id, Nat.eqb_refl.
  reflexivity.
Qed.

Lemma batch_with_distinct_shortcodes_is_created_witness :
  let first := UrlShortenerForm.mkRow "1" "https://example.com/page" (Integer 30)
                 (Some "abc123"%string) in
  let second := UrlShortenerForm.mkRow "2" "https://example.com/other" (Integer 60)
                  (Some "xyz789"%string) in
  let st := UrlShortenerForm.mkState [first; second] [] [] false in
  exists st' w',
    UrlShortenerForm.handleSubmit browser (String.eqb "") 3 st emptyWorld = (Ok st', w') /\
    Map_keys (urls w') = ["abc123"%string; "xyz789"%string].
Proof.
  intros first second st.
  destruct (batch_with_distinct_shortcodes_is_created browser (String.eqb "") 3 st emptyWorld)
    as (created & w' & Hrun & _ & Hcodes & _ & Hurls).
  - repeat constructor.
  - repeat constructor; simpl; intuition discriminate.
  - eexists _, _. split; [exact Hrun |]. cbn [urls set_dateReads]. rewrite Hurls.
    unfold Map_keys. rewrite map_app, map_map. simpl. exact Hcodes.
Defined.

(** X13: the form checks each row against the registry, not against the
    other rows. Two rows that both pass and ask for the same shortcode
    are both accepted by [validateForm]; [handleSubmit] then creates the
    first, and the second is turned down by [shortenUrl] with "This
    shortcode is already taken", which is kept under the second row's
    id. One result is shown, the registry has gained the first record
    only, and the form is not reset. *)
Theorem same_shortcode_twice_creates_the_first_only
    (env : Env) (isBlank : string -> bool) (fuel : nat)
    (st : UrlShortenerForm.State) (w : World) (first second : UrlShortenerForm.UrlRow) :
  UrlShortenerForm.urlRows st = [first; second] ->
  explicitRow env isBlank w first ->
  explicitRow env isBlank w second ->
  codeOf second = codeOf first ->
  exists r w',
    UrlShortenerForm.validateForm env isBlank w st
    = (UrlShortenerForm.mkState [first; second] (UrlShortenerForm.shortenedUrls st) []
         (UrlShortenerForm.isLoading st), true) /\
    UrlShortenerForm.handleSubmit env isBlank fuel st w
    = (Ok (UrlShortenerForm.mkState [first; second] [(first, r)]
             [(UrlShortenerForm.id second, "This shortcode is already taken"%string)] false),
       w') /\
    ShortenedUrl.shortCode r = codeOf first /\
    ShortenedUrl.originalUrl r = UrlShortenerForm.originalUrl first /\
    urls w' = urls w ++ [(codeOf first, r)].
Proof.
  intros Hrows Hfirst Hsecond Hsame.
  assert (Hclean : UrlShortenerForm.collectErrors env isBlank w
                     (UrlShortenerForm.urlRows st) [] = []).
  { apply collectErrors_clean. rewrite Hrows.
    repeat constructor; apply explicitRow_passes; assumption. }
  assert (H1 := Hfirst). destruct H1 as (_ & Hurl1 & Hmin1 & Hwf1 & Hfree1).
  destruct (shortenUrl_explicit env fuel (UrlShortenerForm.formDataOf first) (codeOf first) w
              (explicitRow_formData env isBlank w first Hfirst) Hwf1 Hfree1 Hurl1 Hmin1)
    as (r & w1 & Hrun1 & Hcode & Horig & _ & _ & Hurls).
  assert (Htaken : Map_has (codeOf first) (urls w1) = true).
  { rewrite Hurls. apply (In_Map_has (codeOf first, r)). apply in_or_app. right. left.
    reflexivity. }
  assert (H2 := Hsecond). destruct H2 as (_ & Hurl2 & _ & Hwf2 & _).
  assert (Hviol : firstViolation env w1 (UrlShortenerForm.formDataOf second)
                  = Some "This shortcode is already taken"%string).
  { unfold firstViolation. cbn [UrlShortenerForm.formDataOf UrlFormData.originalUrl].
    rewrite Hurl2. cbn [negb].
    rewrite (explicitRow_formData env isBlank w second Hsecond). cbn [orEmpty].
    rewrite Hsame in *.
    rewrite (proj1 (proj2 (validateShortcode_cases w1 (codeOf first)
                             (wellFormed_nonempty _ Hwf2))) Hwf2 Htaken).
    reflexivity. }
  assert (Hrun2 := shortenUrl_violation env fuel (UrlShortenerForm.formDataOf second) w1 _ Hviol).
  exists r, w1. split.
  { unfold UrlShortenerForm.validateForm. rewrite Hclean, Hrows. reflexivity. }
  split; [| repeat split; assumption].
  unfold UrlShortenerForm.handleSubmit. unfold bind at 1, get.
  unfold UrlShortenerForm.validateForm. rewrite Hclean. cbn [Map_keys map length Nat.eqb negb
    UrlShortenerForm.urlRows UrlShortenerForm.errors]. rewrite Hrows.
  unfold tryCatch at 1. unfold bind at 1.
  rewrite (submitRows_created env fuel first [second] [] [] w r w1 Hrun1).
  rewrite (submitRows_refused env fuel second [] _ [] w1 _ Hrun2).
  reflexivity.
Qed.

Lemma same_shortcode_twice_creates_the_first_only_witness :
  let first := UrlShortenerForm.mkRow "1" "https://example.com/page" (Integer 30)
                 (Some "abc123"%string) in
  let second := UrlShortenerForm.mkRow "2" "https://example.com/other" (Integer 60)
                  (Some "abc123"%string) in
  let st := UrlShortenerForm.mkState [first; second] [] [] false in
  exists st' w',
    UrlShortenerForm.handleSubmit browser (String.eqb "") 3 st emptyWorld = (Ok st', w') /\
    UrlShortenerForm.errors st' = [("2"%string, "This shortcode is already taken"%string)] /\
    Map_keys (urls w') = ["abc123"%string].
Proof.
  intros first second st.
  destruct (same_shortcode_twice_creates_the_first_only browser (String.eqb "") 3 st emptyWorld
              first second)
    as (r & w' & _ & Hrun & _ & _ & Hurls).
  - reflexivity.
  - repeat constructor.
  - repeat constructor.
  - reflexivity.
  - eexists _, _. split; [exact Hrun |]. split; [reflexivity |]. rewrite Hurls. reflexivity.
Defined.

Section FormRows.
Variable env : Env.
Variable isBlank : string -> bool.

(** The rows [handleSubmit] leaves: the ones it found, or one blank row. *)
Lemma handleSubmit_rows fuel st w st' w' :
  UrlShortenerForm.handleSubmit env isBlank fuel st w = (Ok st', w') ->
  UrlShortenerForm.urlRows st' = UrlShortenerForm.urlRows st \/
  exists rowId, UrlShortenerForm.urlRows st' = [UrlShortenerForm.emptyRow rowId].
Proof.
  unfold UrlShortenerForm.handleSubmit. unfold bind at 1, get.
  unfold UrlShortenerForm.validateForm.
  destruct (negb _).
  - intros [= <- _]. left. reflexivity.
  - cbn [UrlShortenerForm.urlRows UrlShortenerForm.errors UrlShortenerForm.shortenedUrls].
    unfold tryCatch. unfold bind at 1.
    destruct (UrlShortenerForm.submitRows env fuel _ _ _ w) as [[[created errs] | e |] w1];
      [| | discriminate].
    + destruct (Nat.eqb _ _).
      * unfold UrlShortenerForm.freshId, bind, newDate, ret. intros [= <- _].
        right. eexists. reflexivity.
      * intros [= <- _]. left. reflexivity.
    + unfold logger.error.
      match goal with |- context [bind (logger.Log env ?a ?b ?c ?d ?e) _ ?w0] =>
        match goal with |- context [ret ?v] =>
          destruct (Log_then_ret env v a b c d e w0) as (w2 & Hrun & _)
        end
      end.
      rewrite Hrun. intros [= <- _]. left. reflexivity.
Qed.

Lemma filter_keeps_all {A} (f : A -> bool) l :
  Forall (fun x => f x = true) l -> filter f l = l.
Proof.
  induction 1 as [| x rest Hx _ IH]; simpl; [reflexivity |]. rewrite Hx, IH. reflexivity.
Qed.

Lemma filter_drops_all {A} (f : A -> bool) l :
  Forall (fun x => f x = false) l -> filter f l = [].
Proof.
  induction 1 as [| x rest Hx _ IH]; simpl; [reflexivity |]. rewrite Hx. exact IH.
Qed.

(** Removing by id takes at most one row when no two rows share an id. *)
Lemma remove_one_row rowId rows :
  NoDup (map UrlShortenerForm.id rows) ->
  length rows - 1
  <= length (filter (fun row => negb (String.eqb (UrlShortenerForm.id row) rowId)) rows).
Proof.
  induction rows as [| row rest IH]; intros Hnd; simpl; [lia |].
  inversion Hnd as [| ? ? Hnotin Hrest]; subst.
  destruct (String.eqb_spec (UrlShortenerForm.id row) rowId) as [Heq | Hne]; simpl.
  - rewrite filter_keeps_all; [lia |].
    rewrite Forall_forall. intros row' Hin.
    destruct (String.eqb_spec (UrlShortenerForm.id row') rowId) as [Heq' | _]; [| reflexivity].
    exfalso. apply Hnotin. rewrite Heq, <- Heq'. apply in_map. exact Hin.
  - specialize (IH Hrest). lia.
Qed.

End FormRows.

(** X14: the form never holds more than five rows. Whatever handler runs
    ([addUrlRow], [removeUrlRow], [updateUrlRow], [handleSubmit]) on a
    form of at most five rows, the form it leaves has at most five. As
    long as no two rows share an id it also keeps at least one row; but
    ids are clock readings, and when every row of a form of several rows
    has the id that is removed, [removeUrlRow] leaves no row at all. *)
Theorem form_keeps_at_most_five_rows
    (env : Env) (isBlank : string -> bool) (op : FormOp)
    (st st' : UrlShortenerForm.State) (w w' : World) :
  length (UrlShortenerForm.urlRows st) <= 5 ->
  runFormOp env isBlank op st w = (Ok st', w') ->
  length (UrlShortenerForm.urlRows st') <= 5 /\
  (NoDup (map UrlShortenerForm.id (UrlShortenerForm.urlRows st)) ->
   1 <= length (UrlShortenerForm.urlRows st) ->
   1 <= length (UrlShortenerForm.urlRows st')) /\
  (forall rowId,
     op = FormRemove rowId ->
     1 < length (UrlShortenerForm.urlRows st) ->
     Forall (fun row => UrlShortenerForm.id row = rowId) (UrlShortenerForm.urlRows st) ->
     UrlShortenerForm.urlRows st' = []).
Proof.
  intros Hmax. destruct op as [| rowId | rowId c | fuel]; simpl.
  - unfold UrlShortenerForm.addUrlRow.
    destruct (Nat.ltb_spec (length (UrlShortenerForm.urlRows st)) 5) as [Hlt | Hge].
    + unfold UrlShortenerForm.freshId, bind, newDate, ret. intros [= <- _]. simpl.
      rewrite length_app. simpl. split; [lia |]. split; [lia | discriminate].
    + intros [= <- _]. split; [exact Hmax |]. split; [auto | discriminate].
  - unfold ret, UrlShortenerForm.removeUrlRow. intros [= <- _].
    destruct (Nat.ltb_spec 1 (length (UrlShortenerForm.urlRows st))) as [Hlt | Hge]; simpl.
    + split; [eapply Nat.le_trans; [apply filter_length_le | exact Hmax] |]. split.
      * intros Hnd _. assert (H := remove_one_row rowId _ Hnd). lia.
      * intros rowId' [= <-] _ Hall. apply filter_drops_all.
        rewrite Forall_forall in *. intros row Hin. rewrite (Hall row Hin), String.eqb_refl.
        reflexivity.
    + split; [exact Hmax |]. split; [auto |]. intros rowId' _ Hlt. lia.
  - unfold ret, UrlShortenerForm.updateUrlRow. intros [= <- _]. simpl. rewrite length_map.
    split; [exact Hmax |]. split; [auto | discriminate].
  - intros Hrun. destruct (handleSubmit_rows env isBlank fuel st w st' w' Hrun)
      as [-> | [rowId ->]].
    + split; [exact Hmax |]. split; [auto | discriminate].
    + simpl. split; [lia |]. split; [lia | discriminate].
Qed.

Lemma form_keeps_at_most_five_rows_witness :
  let row := UrlShortenerForm.emptyRow "1700000000000" in
  let st := UrlShortenerForm.mkState [row; row] [] [] false in
  UrlShortenerForm.urlRows (UrlShortenerForm.removeUrlRow "1700000000000" st) = [].
Proof.
  intros row st.
  destruct (form_keeps_at_most_five_rows browser (String.eqb "")
              (FormRemove "1700000000000") st
              (UrlShortenerForm.removeUrlRow "1700000000000" st) emptyWorld emptyWorld)
    as (_ & _ & Hnone).
  - simpl. lia.
  - reflexivity.
  - apply (Hnone "1700000000000"%string); [reflexivity | simpl; lia | repeat constructor].
Defined.

(** ** The statistics page *)

Section StatisticsFacts.
Variable env : Env.

Lemma loadUrls_spec st w :
  exists w',
    StatisticsPage.loadUrls env st w
    = (Ok (StatisticsPage.mkState
             (map ShortenedUrl.shortCode
                (Array_sort newestFirst
                   (map (refreshFlag (clock env (dateReads w))) (Map_values (urls w)))))
             (StatisticsPage.selectedUrl st) (StatisticsPage.detailsOpen st)), w') /\
    urls w' = map (refreshEntry (clock env (dateReads w))) (urls w).
Proof.
  destruct (getAllUrls_spec env w) as (w1 & Hrun1 & Hurls1 & _).
  unfold StatisticsPage.loadUrls. rewrite (bind_Ok _ _ _ _ _ Hrun1). unfold logger.info.
  match goal with |- context [bind (logger.Log env ?a ?b ?c ?d ?e) (fun _ => ret ?v) ?w0] =>
    destruct (Log_then_ret env v a b c d e w0) as (w2 & Hrun2 & Hurls2)
  end.
  exists w2. split; [exact Hrun2 |]. rewrite Hurls2. exact Hurls1.
Qed.

Lemma refreshed_registryOk now w w' :
  registryOk w -> urls w' = map (refreshEntry now) (urls w) -> registryOk w'.
Proof.
  intros [Hnd Hkeyed] Hurls. unfold registryOk, keyedByShortCode in *. rewrite Hurls.
  split; [rewrite Map_keys_refresh; exact Hnd |].
  rewrite Forall_forall in *. intros kv Hin. apply in_map_iff in Hin.
  destruct Hin as ([k u] & <- & Hin). pose proof (Hkeyed (k, u) Hin) as Hk.
  simpl in Hk. subst k. destruct u; reflexivity.
Qed.

(** References to records of the registry resolve to these records. *)
Lemma shown_refs w l detailsOpen selectedUrl :
  registryOk w ->
  (forall u, In u l -> In u (Map_values (urls w))) ->
  StatisticsPage.shown w
    (StatisticsPage.mkState (map ShortenedUrl.shortCode l) selectedUrl detailsOpen) = l.
Proof.
  intros [Hnd Hkeyed] Hin. unfold StatisticsPage.shown. cbn [StatisticsPage.urls].
  unfold keyedByShortCode in Hkeyed. rewrite Forall_forall in Hkeyed.
  induction l as [| u rest IH]; [reflexivity |]. cbn [map flat_map].
  assert (Hget : StatisticsPage.deref w (ShortenedUrl.shortCode u) = Some u).
  { destruct (proj1 (in_map_iff _ _ _) (Hin u (or_introl eq_refl))) as ([k v] & Hv & Hkv).
    simpl in Hv. subst v. unfold StatisticsPage.deref.
    pose proof (Hkeyed (k, u) Hkv) as Hk. simpl in Hk. rewrite <- Hk.
    apply Map_get_of_In; assumption. }
  rewrite Hget. cbn [app]. f_equal. apply IH. intros v Hv. apply Hin. right. exact Hv.
Qed.

(** What the page shows right after [loadUrls]. *)
Lemma loadUrls_shown st w :
  registryOk w ->
  exists st' w',
    StatisticsPage.loadUrls env st w = (Ok st', w') /\
    urls w' = map (refreshEntry (clock env (dateReads w))) (urls w) /\
    registryOk w' /\
    StatisticsPage.shown w' st'
    = Array_sort newestFirst
        (map (refreshFlag (clock env (dateReads w))) (Map_values (urls w))) /\
    StatisticsPage.selectedUrl st' = StatisticsPage.selectedUrl st /\
    StatisticsPage.detailsOpen st' = StatisticsPage.detailsOpen st.
Proof.
  intros Hok. destruct (loadUrls_spec st w) as (w' & Hrun & Hurls).
  assert (Hok' := refreshed_registryOk _ w w' Hok Hurls).
  eexists _, w'. split; [exact Hrun |]. split; [exact Hurls |]. split; [exact Hok' |].
  split; [| split; reflexivity].
  apply shown_refs; [exact Hok' |]. intros u Hin.
  rewrite Hurls, Map_values_refresh.
  exact (Permutation_in _ (Array_sort_perm newestFirst _) Hin).
Qed.

Lemma fold_left_sum {A} (f : A -> nat) l : forall a,
  fold_left (fun total x => total + f x) l a = a + list_sum (map f l).
Proof.
  induction l as [| x rest IH]; intros a; simpl; [lia |]. rewrite IH. lia.
Qed.

Lemma perm_sum {A} (f : A -> nat) l l' :
  Permutation l l' -> list_sum (map f l) = list_sum (map f l').
Proof. induction 1; simpl; lia. Qed.

Lemma perm_filter_length {A} (f : A -> bool) l l' :
  Permutation l l' -> length (filter f l) = length (filter f l').
Proof.
  induction 1 as [| x l l' _ IH | x y l | l l' l'' _ IH1 _ IH2]; simpl.
  - reflexivity.
  - destruct (f x); simpl; rewrite IH; reflexivity.
  - destruct (f x), (f y); reflexivity.
  - rewrite IH1. exact IH2.
Qed.

Lemma refreshed_clicks now l :
  map (fun u => length (ShortenedUrl.clicks u)) (map (refreshFlag now) l)
  = map (fun u => length (ShortenedUrl.clicks u)) l.
Proof. rewrite map_map. apply map_ext. intros u. destruct u; reflexivity. Qed.


Lemma refreshed_active now l :
  length (filter (fun u => negb (ShortenedUrl.isExpired u)) (map (refreshFlag now) l))
  = length (filter (fun u => (now <=? ShortenedUrl.expiryDate u)%Z) l).
Proof.
  induction l as [| u rest IH]; [reflexivity |]. cbn [map filter].
  replace (negb (ShortenedUrl.isExpired (refreshFlag now u)))
    with (now <=? ShortenedUrl.expiryDate u)%Z.
  - destruct (now <=? ShortenedUrl.expiryDate u)%Z; cbn [length]; rewrite IH; reflexivity.
  - destruct u; simpl. rewrite Z.gtb_ltb, Z.leb_antisym. reflexivity.
Qed.



End StatisticsFacts.

(** X15: what the statistics page shows after a load, in a registry
    with one record per key. [loadUrls] returns; the records the page
    then shows are the registry's own records, newest first, each with
    its flag recomputed at the clock reading. So the total of clicks
    shown is the number of clicks of all records of the registry, and the
    number shown as active is the number of records whose expiry date is
    not before that clock reading, whatever their flags were. The
    selection is the same reference as before; as it refers to the
    registry's own record, that record too now carries the recomputed
    flag. *)
Theorem statistics_counts_after_load
    (env : Env) (st : StatisticsPage.State) (w : World) :
  registryOk w ->
  let now := clock env (dateReads w) in
  exists st' w',
    StatisticsPage.loadUrls env st w = (Ok st', w') /\
    Map_values (urls w') = map (refreshFlag now) (Map_values (urls w)) /\
    Permutation (StatisticsPage.shown w' st') (Map_values (urls w')) /\
    StronglySorted newerOrSame (StatisticsPage.shown w' st') /\
    StatisticsPage.getTotalClicks w' st'
    = list_sum (map (fun u => length (ShortenedUrl.clicks u)) (Map_values (urls w))) /\
    StatisticsPage.getActiveUrls w' st'
    = length (filter (fun u => (now <=? ShortenedUrl.expiryDate u)%Z)
                (Map_values (urls w))) /\
    StatisticsPage.selectedUrl st' = StatisticsPage.selectedUrl st /\
    StatisticsPage.detailsOpen st' = StatisticsPage.detailsOpen st /\
    (forall ref url,
       StatisticsPage.selectedUrl st = Some ref ->
       StatisticsPage.deref w ref = Some url ->
       exists url',
         StatisticsPage.deref w' ref = Some url' /\
         ShortenedUrl.isExpired url' = (now >? ShortenedUrl.expiryDate url)%Z /\
         ShortenedUrl.id url' = ShortenedUrl.id url /\
         ShortenedUrl.clicks url' = ShortenedUrl.clicks url).
Proof.
  intros Hok now.
  destruct (loadUrls_shown env st w Hok)
    as (st' & w' & Hrun & Hurls & _ & Hshown & Hsel & Hopen).
  exists st', w'. split; [exact Hrun |].
  assert (Hvalues : Map_values (urls w') = map (refreshFlag now) (Map_values (urls w)))
    by (rewrite Hurls; apply Map_values_refresh).
  assert (Hperm := Array_sort_perm newestFirst (map (refreshFlag now) (Map_values (urls w)))).
  fold now in Hshown.
  split; [exact Hvalues |]. split; [rewrite Hshown, Hvalues; exact Hperm |].
  split; [rewrite Hshown; apply Array_sort_newest_first |]. split.
  { unfold StatisticsPage.getTotalClicks.
    rewrite Hshown, fold_left_sum, (perm_sum _ _ _ Hperm), refreshed_clicks. reflexivity. }
  split.
  { unfold StatisticsPage.getActiveUrls.
    rewrite Hshown, (perm_filter_length _ _ _ Hperm). apply refreshed_active. }
  split; [exact Hsel |]. split; [exact Hopen |].
  intros ref url _ Hget. unfold StatisticsPage.deref in *.
  exists (refreshFlag now url). rewrite Hurls, Map_get_refreshed, Hget.
  split; [reflexivity |]. destruct url; repeat split.
Qed.

Lemma statistics_counts_after_load_witness :
  let past := sampleUrl "old123" 0 60000 false in
  let live := sampleUrl "abc123" 1699999940000 1800000000000 false in
  let st := StatisticsPage.handleViewDetails "old123"%string StatisticsPage.initialState in
  exists st' w',
    StatisticsPage.loadUrls browser st (worldWith [past; live]) = (Ok st', w') /\
    StatisticsPage.urls st' = ["abc123"; "old123"]%string /\
    StatisticsPage.getActiveUrls w' st' = 1 /\
    option_map ShortenedUrl.isExpired (StatisticsPage.deref (worldWith [past; live]) "old123"%string)
    = Some false /\
    StatisticsPage.selectedUrl st' = Some "old123"%string /\
    option_map ShortenedUrl.isExpired (StatisticsPage.deref w' "old123"%string) = Some true.
Proof.
  intros past live st.
  destruct (statistics_counts_after_load browser st (worldWith [past; live]))
    as (st' & w' & Hrun & _ & _ & _ & _ & Hactive & Hsel & _ & Halias).
  - split; [| repeat constructor].
    repeat constructor; simpl; intuition discriminate.
  - exists st', w'. split; [exact Hrun |].
    assert (Hst : fst (StatisticsPage.loadUrls browser st (worldWith [past; live])) = Ok st')
      by (rewrite Hrun; reflexivity).
    vm_compute in Hst. injection Hst as Hst.
    split; [rewrite <- Hst; reflexivity |]. split; [rewrite Hactive; reflexivity |].
    split; [reflexivity |]. split; [rewrite Hsel; reflexivity |].
    destruct (Halias "old123"%string past eq_refl eq_refl) as (url' & -> & Hflag & _).
    simpl. rewrite Hflag. reflexivity.
Defined.



(** ** The details dialog *)

Lemma sortInsert_newest_click_first x l :
  StronglySorted newerClickOrSame l ->
  StronglySorted newerClickOrSame (sortInsert StatisticsPage.newestClickFirst x l).
Proof.
  induction 1 as [| y rest Hsorted IH Hall]; simpl.
  - constructor; constructor.
  - unfold StatisticsPage.newestClickFirst at 1.
    destruct (Z.leb_spec (ClickRecord.timestamp y - ClickRecord.timestamp x) 0) as [Hle | Hgt].
    + constructor; [constructor; assumption |].
      constructor; [unfold newerClickOrSame; lia |].
      eapply Forall_impl; [| exact Hall]. unfold newerClickOrSame. intros z Hz. lia.
    + constructor; [exact IH |].
      eapply Permutation_Forall; [apply Permutation_sym, sortInsert_perm |].
      constructor; [unfold newerClickOrSame; lia | exact Hall].
Qed.

Lemma Array_sort_newest_click_first l :
  StronglySorted newerClickOrSame (Array_sort StatisticsPage.newestClickFirst l).
Proof.
  induction l as [| x rest IH]; simpl; [constructor |].
  apply sortInsert_newest_click_first. exact IH.
Qed.

(** X17: rendering the statistics page while a record is selected sorts
    the clicks of the registry's own record. With no selection a render
    changes nothing. With the record filed under [ref] selected, a render
    returns, and afterwards the registry holds under [ref] a record with
    the same clicks, newest first ([Array_sort] of the earlier
    sequence), and every other field as before; the keys of the
    registry, the records under other keys, both browser stores, the log
    buffer and the fetches in flight are as before. So the order in
    which the registry holds the clicks of a record is no longer the
    order of the calls once its details have been shown, and nothing is
    saved until the service next writes. *)
Theorem details_dialog_sorts_the_stored_clicks
    (st : StatisticsPage.State) (w : World) :
  (StatisticsPage.selectedUrl st = None -> StatisticsPage.renderDetails st w = (Ok tt, w)) /\
  (forall ref url,
     StatisticsPage.selectedUrl st = Some ref ->
     StatisticsPage.deref w ref = Some url ->
     exists w' url',
       StatisticsPage.renderDetails st w = (Ok tt, w') /\
       StatisticsPage.deref w' ref = Some url' /\
       ShortenedUrl.clicks url'
       = Array_sort StatisticsPage.newestClickFirst (ShortenedUrl.clicks url) /\
       Permutation (ShortenedUrl.clicks url') (ShortenedUrl.clicks url) /\
       StronglySorted newerClickOrSame (ShortenedUrl.clicks url') /\
       ShortenedUrl.id url' = ShortenedUrl.id url /\
       ShortenedUrl.originalUrl url' = ShortenedUrl.originalUrl url /\
       ShortenedUrl.shortCode url' = ShortenedUrl.shortCode url /\
       ShortenedUrl.expiryDate url' = ShortenedUrl.expiryDate url /\
       ShortenedUrl.createdAt url' = ShortenedUrl.createdAt url /\
       ShortenedUrl.isExpired url' = ShortenedUrl.isExpired url /\
       Map_keys (urls w') = Map_keys (urls w) /\
       (forall other, other <> ref ->
          StatisticsPage.deref w' other = StatisticsPage.deref w other) /\
       localStorage w' = localStorage w /\
       sessionStorage w' = sessionStorage w /\
       logs w' = logs w /\
       pending w' = pending w).
Proof.
  split.
  - intros Hsel. unfold StatisticsPage.renderDetails. rewrite Hsel. reflexivity.
  - intros ref url Hsel Hget. unfold StatisticsPage.renderDetails. rewrite Hsel.
    unfold modify, StatisticsPage.sortClicks. rewrite Hget.
    destruct (0 <? length (ShortenedUrl.clicks url)) eqn:Hsome.
    + set (url' := ShortenedUrl.set_clicks
                     (Array_sort StatisticsPage.newestClickFirst (ShortenedUrl.clicks url)) url).
      exists (set_urls (Map_set ref url' (urls w)) w), url'.
      split; [reflexivity |]. unfold StatisticsPage.deref in *.
      assert (Hurls : urls (set_urls (Map_set ref url' (urls w)) w) = Map_set ref url' (urls w))
        by (destruct w; reflexivity).
      rewrite Hurls.
      split; [apply Map_get_set_same |].
      assert (Hclicks : ShortenedUrl.clicks url'
                        = Array_sort StatisticsPage.newestClickFirst (ShortenedUrl.clicks url))
        by (destruct url; reflexivity).
      split; [exact Hclicks |]. rewrite Hclicks.
      split; [apply Array_sort_perm |].
      split; [apply Array_sort_newest_click_first |].
      do 6 (split; [destruct url; reflexivity |]).
      split; [apply Map_set_keys; unfold Map_has; rewrite Hget; reflexivity |].
      split; [intros other Hne; apply Map_get_set_other; exact Hne |].
      destruct w; repeat split.
    + assert (Hclicks : ShortenedUrl.clicks url = []).
      { destruct (ShortenedUrl.clicks url); [reflexivity | discriminate]. }
      exists w, url. rewrite Hclicks.
      repeat (split; [first [reflexivity | exact Hget | constructor] |]). reflexivity.
Qed.

Lemma details_dialog_sorts_the_stored_clicks_witness :
  let first := ClickRecord.mk "c1" 1700000001000 "direct" "en-US (UTC)" in
  let second := ClickRecord.mk "c2" 1700000002000 "direct" "en-US (UTC)" in
  let clicked :=
    ShortenedUrl.set_clicks [first; second]
      (sampleUrl "abc123" 1699999940000 1800000000000 false) in
  let st := StatisticsPage.handleViewDetails "abc123"%string StatisticsPage.initialState in
  option_map ShortenedUrl.clicks (StatisticsPage.deref (worldWith [clicked]) "abc123"%string)
  = Some [first; second] /\
  exists w',
    StatisticsPage.renderDetails st (worldWith [clicked]) = (Ok tt, w') /\
    option_map ShortenedUrl.clicks (StatisticsPage.deref w' "abc123"%string)
    = Some [second; first] /\
    localStorage w' = None.
Proof.
  intros first second clicked st. split; [reflexivity |].
  destruct (proj2 (details_dialog_sorts_the_stored_clicks st (worldWith [clicked]))
              "abc123"%string clicked eq_refl eq_refl)
    as (w' & url' & Hrun & Hget & Hclicks & _ & _ & _ & _ & _ & _ & _ & _ & _ & _ & Hstore & _).
  exists w'. split; [exact Hrun |]. split; [| rewrite Hstore; reflexivity].
  rewrite Hget. simpl. rewrite Hclicks. reflexivity.
Defined.
